(** * Catalog service: the cache-aware product repository

    A shallow embedding of the product repository
    ([internal/product/repository]), of the part of the product service
    that drives it ([internal/product/service]) and of the error helpers
    ([pkg/errors]), followed by the properties of the read-through /
    write-invalidate policy.

    The repository methods are functions on a world that holds the two
    tables, the cache keyspace and the log of the cache commands issued.
    The world also says which of the next cache commands and database
    statements fail, so that every error branch of the code can be taken.
    An entry keeps the expiry it was written with; no time passes inside
    a run.  [context.Context] and logging carry no state of their own and
    are left out. *)

From Stdlib Require Import ZArith NArith String Ascii List Bool Lia.
From Stdlib Require Import DecimalString DecimalPos PrimFloat SpecFloat FloatOps.
From stdpp Require Import base option gmap strings list.

Set Warnings "-register-all".

Local Open Scope Z_scope.
Local Open Scope string_scope.

(** ** Go base types *)

(** [uuid.UUID] is [[16]byte]; it is kept as the 128-bit big-endian number
    its bytes spell.  [uuid.Nil] is [0]. *)
Definition UUID : Type := N.

(** Go's [int] and [int64] on the 64-bit targets the service is built
    for: integers with wrap-around written out where arithmetic happens. *)
Definition wrap64 (z : Z) : Z := (z + 2 ^ 63) mod 2 ^ 64 - 2 ^ 63.

(** [time.Duration] counts nanoseconds. *)
Definition Duration : Type := Z.
Definition Minute : Duration := 60 * 1000000000.

(** ** Formatting: [fmt.Sprintf] verbs and [uuid.UUID.String] *)

Definition hex_digit (n : N) : ascii :=
  match String.get (N.to_nat n) "0123456789abcdef" with
  | Some c => c
  | None => "0"%char
  end.

(** The [i]-th hexadecimal digit of a UUID, most significant first. *)
Definition nibble (u : UUID) (i : nat) : N :=
  N.land (N.shiftr u (4 * N.of_nat (31 - i))) 15.

Fixpoint hex_run (u : UUID) (from len : nat) : string :=
  match len with
  | O => ""
  | S len' => String (hex_digit (nibble u from)) (hex_run u (S from) len')
  end.

(** [xxxxxxxx-xxxx-xxxx-xxxx-xxxxxxxxxxxx] *)
Definition uuid_String (u : UUID) : string :=
  hex_run u 0 8 +:+ "-" +:+ hex_run u 8 4 +:+ "-" +:+ hex_run u 12 4
    +:+ "-" +:+ hex_run u 16 4 +:+ "-" +:+ hex_run u 20 12.

(** [%d] *)
Definition fmt_d (z : Z) : string := NilZero.string_of_int (Z.to_int z).

(** [%t] *)
Definition fmt_t (b : bool) : string := if b then "true" else "false".

(** ** Domain types ([internal/product/domain]) *)

Inductive Category : Type :=
  mkCategory {
    cat_ID : UUID;
    cat_Name : string;
    cat_Description : string;
    cat_ParentID : option UUID;
    cat_Parent : option Category;
    cat_Children : list Category;
    cat_IsActive : bool;
    cat_CreatedAt : Z;
    cat_UpdatedAt : Z
  }.

(** [Category_] is the field [Category], the preloaded association. *)
Record Product : Type :=
  mkProduct {
    ID : UUID;
    Name : string;
    Description : string;
    Price : float;
    CategoryID : UUID;
    Category_ : option Category;
    Stock : Z;
    ImageURL : string;
    SKU : string;
    IsActive : bool;
    CreatedAt : Z;
    UpdatedAt : Z
  }.

Record ProductFilters : Type :=
  mkFilters {
    f_CategoryID : option UUID;
    f_MinPrice : option float;
    f_MaxPrice : option float;
    f_Search : string;
    f_IsActive : option bool;
    f_InStock : option bool;
    f_Limit : Z;
    f_Offset : Z;
    f_SortBy : string;
    f_SortOrder : string
  }.

Record ProductList : Type :=
  mkProductList {
    pl_Products : list Product;
    pl_Total : Z;
    pl_Limit : Z;
    pl_Offset : Z;
    pl_HasMore : bool
  }.

Record CreateProductRequest : Type :=
  mkCreateProductRequest {
    cr_Name : string;
    cr_Description : string;
    cr_Price : float;
    cr_CategoryID : UUID;
    cr_Stock : Z;
    cr_ImageURL : string;
    cr_SKU : string
  }.

Record UpdateProductRequest : Type :=
  mkUpdateProductRequest {
    ur_Name : option string;
    ur_Description : option string;
    ur_Price : option float;
    ur_CategoryID : option UUID;
    ur_Stock : option Z;
    ur_ImageURL : option string;
    ur_SKU : option string;
    ur_IsActive : option bool
  }.

(** ** Cache keys *)

Definition is_nil {A} (o : option A) : bool :=
  match o with None => true | Some _ => false end.

Definition str_empty (s : string) : bool :=
  match s with EmptyString => true | String _ _ => false end.

(** [productRepository.buildCacheKey]; the empty string means
    "do not cache". *)
Definition buildCacheKey (filters : ProductFilters) : string :=
  if negb (str_empty (f_Search filters))
     || negb (is_nil (f_MinPrice filters))
     || negb (is_nil (f_MaxPrice filters))
  then ""
  else
    let key := "products:list" in
    let key :=
      match f_CategoryID filters with
      | Some c => key +:+ (":cat_" +:+ uuid_String c)
      | None => key
      end in
    let key :=
      match f_IsActive filters with
      | Some b => key +:+ (":active_" +:+ fmt_t b)
      | None => key
      end in
    let key :=
      match f_InStock filters with
      | Some b => key +:+ (":stock_" +:+ fmt_t b)
      | None => key
      end in
    let key :=
      key +:+ (":limit_" +:+ fmt_d (f_Limit filters)
                 +:+ ":offset_" +:+ fmt_d (f_Offset filters)) in
    let key :=
      key +:+ (":sort_" +:+ f_SortBy filters +:+ "_" +:+ f_SortOrder filters) in
    key.

(** The key of a single product, [fmt.Sprintf("product:%s", id.String())]. *)
Definition productKey (id : UUID) : string := "product:" +:+ uuid_String id.

(** ** Errors ([pkg/errors], and the sentinels of gorm and go-redis) *)

Inductive ErrType : Type :=
  | ErrNotFound | ErrValidation | ErrConflict
  | ErrInternal | ErrUnauthorized | ErrForbidden.

Inductive error : Type :=
  | gorm_ErrRecordNotFound
  | db_failure                       (* any other error of the database *)
  | redis_Nil                        (* the key does not exist *)
  | redis_failure                    (* any other error of the cache client *)
  | validation_failure               (* reported by the validator *)
  | Errorf (msg : string) (err : error)      (* fmt.Errorf(msg + ": %w", err) *)
  | AppError (Type_ : ErrType) (Message : string) (Cause : option error).

Definition NewNotFoundError (message : string) (cause : option error) : error :=
  AppError ErrNotFound message cause.
Definition NewValidationError (message : string) (cause : option error) : error :=
  AppError ErrValidation message cause.
Definition NewConflictError (message : string) (cause : option error) : error :=
  AppError ErrConflict message cause.
Definition NewInternalError (message : string) (cause : option error) : error :=
  AppError ErrInternal message cause.

(** [errors.As(err, &appErr)]: the first [*AppError] on the unwrap chain. *)
Fixpoint as_AppError (e : error) : option ErrType :=
  match e with
  | AppError t _ _ => Some t
  | Errorf _ e' => as_AppError e'
  | _ => None
  end.

Definition IsNotFound (e : error) : bool :=
  match as_AppError e with
  | Some ErrNotFound => true
  | _ => false
  end.

(** [errors.Is(err, gorm.ErrRecordNotFound)] *)
Fixpoint is_ErrRecordNotFound (e : error) : bool :=
  match e with
  | gorm_ErrRecordNotFound => true
  | Errorf _ e' => is_ErrRecordNotFound e'
  | AppError _ _ (Some e') => is_ErrRecordNotFound e'
  | _ => false
  end.

(** A Go [(T, error)] pair. *)
Inductive result (A : Type) : Type :=
  | Ok (a : A)
  | Err (e : error).
Arguments Ok {A} a.
Arguments Err {A} e.

(** ** The world the repository acts on

    The relational store (two tables), the cache keyspace, and what the
    environment decides: which commands fail to reach the cache or the
    database, the wall clock, and the ids the database generates. *)

Record Entry : Type :=
  mkEntry { payload : string; expiration : Duration }.

Inductive RedisCmd : Type :=
  | GET (key : string)
  | SET (key value : string) (ttl : Duration)
  | DEL (keys : list string)
  | KEYS (pattern : string).

Record World : Type :=
  mkWorld {
    products : list Product;          (* table "products" *)
    categories : list Category;       (* table "categories" *)
    cache : gmap string Entry;        (* the cache keyspace *)
    redis_log : list RedisCmd;        (* cache commands issued, oldest first *)
    redis_faults : list bool;         (* true: the next cache command fails *)
    db_faults : list bool;            (* true: the next database statement fails *)
    now : Z;                          (* wall clock *)
    entropy : nat -> UUID;            (* gen_random_uuid() *)
    draws : nat
  }.

Definition with_products (ps : list Product) (w : World) : World :=
  mkWorld ps (categories w) (cache w) (redis_log w) (redis_faults w)
          (db_faults w) (now w) (entropy w) (draws w).

Definition with_categories (cs : list Category) (w : World) : World :=
  mkWorld (products w) cs (cache w) (redis_log w) (redis_faults w)
          (db_faults w) (now w) (entropy w) (draws w).

Definition with_cache (c : gmap string Entry) (w : World) : World :=
  mkWorld (products w) (categories w) c (redis_log w) (redis_faults w)
          (db_faults w) (now w) (entropy w) (draws w).

Definition with_redis_io (log : list RedisCmd) (faults : list bool) (w : World) : World :=
  mkWorld (products w) (categories w) (cache w) log faults
          (db_faults w) (now w) (entropy w) (draws w).

Definition with_db_faults (faults : list bool) (w : World) : World :=
  mkWorld (products w) (categories w) (cache w) (redis_log w) (redis_faults w)
          faults (now w) (entropy w) (draws w).

Definition with_draws (n : nat) (w : World) : World :=
  mkWorld (products w) (categories w) (cache w) (redis_log w) (redis_faults w)
          (db_faults w) (now w) (entropy w) n.

(** State passing, with the usual notation. *)
Definition Repo (A : Type) : Type := World -> A * World.

Definition ret {A} (a : A) : Repo A := fun w => (a, w).

Definition bind {A B} (m : Repo A) (k : A -> Repo B) : Repo B :=
  fun w => let (a, w') := m w in k a w'.

Notation "'let*' x ':=' m 'in' k" := (bind m (fun x => k))
  (at level 10, x name, m at level 100, k at level 200).

(** *** The cache client *)

(** Patterns with a wildcard for any run of characters and one for a
    single character, as Redis globs ([*], [?]) and SQL [LIKE] ([%], [_])
    have them; the repository's key patterns use [*] only. *)
Fixpoint wildcard_match (many one : ascii) (p : list ascii) : list ascii -> bool :=
  match p with
  | [] => fun s => match s with [] => true | _ => false end
  | c :: p' =>
      if Ascii.eqb c many then
        fix star (s : list ascii) : bool :=
          wildcard_match many one p' s
          || match s with [] => false | _ :: s' => star s' end
      else if Ascii.eqb c one then
        fun s => match s with [] => false | _ :: s' => wildcard_match many one p' s' end
      else
        fun s => match s with
                 | [] => false
                 | d :: s' => Ascii.eqb c d && wildcard_match many one p' s'
                 end
  end.

Definition matches (pattern key : string) : bool :=
  wildcard_match "*" "?" (list_ascii_of_string pattern) (list_ascii_of_string key).

(** Sending one command: it is logged, and executed unless the
    environment makes it fail. *)
Definition redis_send (c : RedisCmd) : Repo bool :=
  fun w =>
    match redis_faults w with
    | true :: fs => (false, with_redis_io (redis_log w ++ [c]) fs w)
    | false :: fs => (true, with_redis_io (redis_log w ++ [c]) fs w)
    | [] => (true, with_redis_io (redis_log w ++ [c]) [] w)
    end.

Definition redis_Get (key : string) : Repo (result string) :=
  let* ok := redis_send (GET key) in
  if ok then
    fun w => match cache w !! key with
             | Some e => (Ok (payload e), w)
             | None => (Err redis_Nil, w)
             end
  else ret (Err redis_failure).

Definition redis_Set (key value : string) (ttl : Duration) : Repo (option error) :=
  let* ok := redis_send (SET key value ttl) in
  if ok then fun w => (None, with_cache (<[key := mkEntry value ttl]> (cache w)) w)
  else ret (Some redis_failure).

Definition redis_Del (keys : list string) : Repo (option error) :=
  let* ok := redis_send (DEL keys) in
  if ok then fun w => (None, with_cache (foldr delete (cache w) keys) w)
  else ret (Some redis_failure).

Definition redis_Keys (pattern : string) : Repo (result (list string)) :=
  let* ok := redis_send (KEYS pattern) in
  if ok then
    fun w => (Ok (filter (fun k => matches pattern k = true)
                         (map fst (map_to_list (cache w)))), w)
  else ret (Err redis_failure).

(** *** The database session *)

(** Association fields are not columns: a row carries none. *)
Definition set_Category_ (c : option Category) (p : Product) : Product :=
  mkProduct (ID p) (Name p) (Description p) (Price p) (CategoryID p) c
            (Stock p) (ImageURL p) (SKU p) (IsActive p) (CreatedAt p) (UpdatedAt p).

Definition set_ID (id : UUID) (p : Product) : Product :=
  mkProduct id (Name p) (Description p) (Price p) (CategoryID p) (Category_ p)
            (Stock p) (ImageURL p) (SKU p) (IsActive p) (CreatedAt p) (UpdatedAt p).

Definition set_times (created updated : Z) (p : Product) : Product :=
  mkProduct (ID p) (Name p) (Description p) (Price p) (CategoryID p) (Category_ p)
            (Stock p) (ImageURL p) (SKU p) (IsActive p) created updated.

Definition row (p : Product) : Product := set_Category_ None p.

Definition set_assoc (parent : option Category) (children : list Category)
    (c : Category) : Category :=
  mkCategory (cat_ID c) (cat_Name c) (cat_Description c) (cat_ParentID c)
             parent children (cat_IsActive c) (cat_CreatedAt c) (cat_UpdatedAt c).

Definition set_cat_key (id : UUID) (created updated : Z) (c : Category) : Category :=
  mkCategory id (cat_Name c) (cat_Description c) (cat_ParentID c)
             (cat_Parent c) (cat_Children c) (cat_IsActive c) created updated.

Definition cat_row (c : Category) : Category := set_assoc None [] c.

(** [First]: the matching row that comes first in primary-key order. *)
Definition first_by_pk {A} (pk : A -> UUID) (f : A -> bool) (rows : list A) : option A :=
  foldr (fun r acc =>
           if f r then
             match acc with
             | Some r' => if N.leb (pk r) (pk r') then Some r else Some r'
             | None => Some r
             end
           else acc) None rows.

(** [Preload("Category")] *)
Definition preload_Category (cats : list Category) (p : Product) : Product :=
  set_Category_ (first_by_pk cat_ID (fun c => N.eqb (cat_ID c) (CategoryID p)) cats) p.

(** One statement: executed unless the environment makes it fail. *)
Definition db_exec : Repo bool :=
  fun w =>
    match db_faults w with
    | true :: fs => (false, with_db_faults fs w)
    | false :: fs => (true, with_db_faults fs w)
    | [] => (true, w)
    end.

(** [db.Preload("Category").First(&product, cond)] *)
Definition db_First_product (f : Product -> bool) : Repo (result Product) :=
  let* ok := db_exec in
  if ok then
    fun w => match first_by_pk ID f (products w) with
             | Some r => (Ok (preload_Category (categories w) r), w)
             | None => (Err gorm_ErrRecordNotFound, w)
             end
  else ret (Err db_failure).

(** [db.Preload("Parent").Preload("Children").First(&category, "id = ?", id)] *)
Definition db_First_category (id : UUID) : Repo (result Category) :=
  let* ok := db_exec in
  if ok then
    fun w =>
      match first_by_pk cat_ID (fun c => N.eqb (cat_ID c) id) (categories w) with
      | Some c =>
          let parent :=
            match cat_ParentID c with
            | Some pid => first_by_pk cat_ID (fun c' => N.eqb (cat_ID c') pid) (categories w)
            | None => None
            end in
          let children :=
            filter (fun c' => cat_ParentID c' = Some (cat_ID c)) (categories w) in
          (Ok (set_assoc parent children c), w)
      | None => (Err gorm_ErrRecordNotFound, w)
      end
  else ret (Err db_failure).

Definition zero_or (t fallback : Z) : Z := if Z.eqb t 0 then fallback else t.

(** The primary key of a row that comes without one is generated by
    the database ([default:gen_random_uuid()]). *)
Definition with_key (id : UUID) : World -> UUID * World :=
  fun w =>
    if N.eqb id 0 then (entropy w (draws w), with_draws (S (draws w)) w)
    else (id, w).

(** Columns with a default, on an INSERT: for the zero value of
    [is_active] ([default:true]) gorm sends [true], for a zero timestamp
    the current time, and it writes what it sends into the struct. *)
Definition category_defaults (t : Z) (c : Category) : Category :=
  mkCategory (cat_ID c) (cat_Name c) (cat_Description c) (cat_ParentID c)
             (cat_Parent c) (cat_Children c) true
             (zero_or (cat_CreatedAt c) t) (zero_or (cat_UpdatedAt c) t).

Definition product_defaults (t : Z) (p : Product) : Product :=
  mkProduct (ID p) (Name p) (Description p) (Price p) (CategoryID p) (Category_ p)
            (Stock p) (ImageURL p) (SKU p) true
            (zero_or (CreatedAt p) t) (zero_or (UpdatedAt p) t).

(** A loaded belongs-to association is saved before its owner
    ([callbacks.SaveBeforeAssociations]): the category is inserted with
    [ON CONFLICT DO NOTHING], so a row with its id or its name keeps it
    out, and the struct comes back as the insert left it.  One level
    only: the associations of the associated category are not followed. *)
Definition save_belongs_to (c : Category) : World -> Category * World :=
  fun w =>
    let c1 := category_defaults (now w) c in
    let '(id, w1) := with_key (cat_ID c) w in
    if existsb (fun r => N.eqb (cat_ID r) id || String.eqb (cat_Name r) (cat_Name c))
               (categories w)
    then (c1, w1)
    else
      let c2 := set_cat_key id (cat_CreatedAt c1) (cat_UpdatedAt c1) c1 in
      (c2, with_categories (categories w ++ [cat_row c2]) w1).

(** ... and its primary key is written over the foreign key of the
    owner.  A product whose category is not loaded keeps its
    [CategoryID]. *)
Definition save_Category (p : Product) : World -> Product * World :=
  fun w =>
    match Category_ p with
    | Some c =>
        let '(c', w1) := save_belongs_to c w in
        (mkProduct (ID p) (Name p) (Description p) (Price p) (cat_ID c') (Some c')
                   (Stock p) (ImageURL p) (SKU p) (IsActive p) (CreatedAt p) (UpdatedAt p),
         w1)
    | None => (p, w)
    end.

(** [db.Create(product)]: a loaded category is saved first, the id is
    generated when it is nil, the columns with a default are filled in,
    the primary key and the SKU are unique.  The struct behind the
    pointer comes back with all of it; a failed statement leaves the
    tables as they were. *)
Definition db_Create (p : Product) : Repo (Product * option error) :=
  let* ok := db_exec in
  if ok then
    fun w =>
      let '(p1, w1) := save_Category p w in
      let '(id, w2) := with_key (ID p) w1 in
      let p' := set_ID id (product_defaults (now w) p1) in
      if existsb (fun r => N.eqb (ID r) id || String.eqb (SKU r) (SKU p)) (products w)
      then ((p, Some db_failure), w)
      else ((p', None), with_products (products w ++ [row p']) w2)
  else ret (p, Some db_failure).

(** [db.Save(product)]: without a primary key this is [Create].
    Otherwise a loaded category is saved first, then every column, zero
    values included, is written to the row with the product's primary
    key, the update time being the current time; when no row has that
    key the product is inserted, with the defaults of an INSERT. *)
Definition db_Save (p : Product) : Repo (Product * option error) :=
  if N.eqb (ID p) 0 then db_Create p
  else
    let* ok := db_exec in
    if ok then
      fun w =>
        let '(p1, w1) := save_Category p w in
        let p' := set_times (CreatedAt p1) (now w) p1 in
        if existsb (fun r => negb (N.eqb (ID r) (ID p)) && String.eqb (SKU r) (SKU p))
                   (products w)
        then ((p, Some db_failure), w)
        else if existsb (fun r => N.eqb (ID r) (ID p)) (products w)
        then ((p', None),
              with_products (map (fun r => if N.eqb (ID r) (ID p) then row p' else r)
                                 (products w)) w1)
        else
          let p'' := product_defaults (now w) p' in
          ((p'', None), with_products (products w ++ [row p'']) w1)
    else ret (p, Some db_failure).

(** [db.Delete(&domain.Product{}, "id = ?", id)] *)
Definition db_Delete (id : UUID) : Repo (option error) :=
  let* ok := db_exec in
  if ok then
    fun w => (None, with_products
                      (filter (fun r => N.eqb (ID r) id = false) (products w)) w)
  else ret (Some db_failure).

(** *** Filtered queries *)

Inductive Cond : Type :=
  | CategoryEq (c : UUID)            (* category_id = ? *)
  | PriceGe (x : float)              (* price >= ? *)
  | PriceLe (x : float)              (* price <= ? *)
  | NameOrDescriptionLike (pattern : string)
                                     (* LOWER(name) LIKE ? OR LOWER(description) LIKE ? *)
  | IsActiveEq (b : bool)            (* is_active = ? *)
  | StockPositive.                   (* stock > 0 *)

Record Query : Type :=
  mkQuery {
    q_where : list Cond;
    q_order : option string;
    q_offset : option Z;
    q_limit : option Z
  }.

Definition Where (c : Cond) (q : Query) : Query :=
  mkQuery (q_where q ++ [c]) (q_order q) (q_offset q) (q_limit q).
Definition Order (clause : string) (q : Query) : Query :=
  mkQuery (q_where q) (Some clause) (q_offset q) (q_limit q).
Definition Offset (n : Z) (q : Query) : Query :=
  mkQuery (q_where q) (q_order q) (Some n) (q_limit q).
Definition Limit (n : Z) (q : Query) : Query :=
  mkQuery (q_where q) (q_order q) (q_offset q) (Some n).

(** Comparison of [double precision] values in the database: NaN is
    equal to itself and above every other value. *)
Definition sql_float_le (x y : float) : bool :=
  if PrimFloat.is_nan y then true
  else if PrimFloat.is_nan x then false
  else PrimFloat.leb x y.

(** What the repository is linked against and does not define: the
    JSON codec, [strings], the validator, and the text and ordering
    functions of the database. *)
Class Lib : Type :=
  mkLib {
    json_Marshal_product : Product -> option string;
    json_Unmarshal_product : string -> option Product;
    json_Marshal_list : list Product * Z -> option string;
    json_Unmarshal_list : string -> option (list Product * Z);
    strings_ToLower : string -> string;
    strings_ToUpper : string -> string;
    sql_LOWER : string -> string;
    sql_LIKE : string -> string -> bool;       (* text, pattern *)
    sql_ORDER_BY : string -> list Product -> option (list Product);
                                               (* None: the clause is rejected *)
    validate_create : CreateProductRequest -> bool;
    validate_update : UpdateProductRequest -> bool
  }.

Definition eval_cond `{Lib} (c : Cond) (r : Product) : bool :=
  match c with
  | CategoryEq c => N.eqb (CategoryID r) c
  | PriceGe x => sql_float_le x (Price r)
  | PriceLe x => sql_float_le (Price r) x
  | NameOrDescriptionLike pattern =>
      sql_LIKE (sql_LOWER (Name r)) pattern || sql_LIKE (sql_LOWER (Description r)) pattern
  | IsActiveEq b => Bool.eqb (IsActive r) b
  | StockPositive => Z.ltb 0 (Stock r)
  end.

Definition selected `{Lib} (q : Query) (rows : list Product) : list Product :=
  List.filter (fun r => forallb (fun c => eval_cond c r) (q_where q)) rows.

(** [query.Count(&total)] *)
Definition db_Count `{Lib} (q : Query) : Repo (result Z) :=
  let* ok := db_exec in
  if ok then fun w => (Ok (Z.of_nat (length (selected q (products w)))), w)
  else ret (Err db_failure).

Definition paginate (q : Query) (rows : list Product) : list Product :=
  let rows := match q_offset q with Some n => drop (Z.to_nat n) rows | None => rows end in
  match q_limit q with Some n => take (Z.to_nat n) rows | None => rows end.

(** [query.Find(&products)], with the category of each row preloaded. *)
Definition db_Find `{Lib} (q : Query) : Repo (result (list Product)) :=
  let* ok := db_exec in
  if ok then
    fun w =>
      let rows := selected q (products w) in
      match (match q_order q with
             | Some clause => sql_ORDER_BY clause rows
             | None => Some rows
             end) with
      | Some sorted =>
          (Ok (map (preload_Category (categories w)) (paginate q sorted)), w)
      | None => (Err db_failure, w)
      end
  else ret (Err db_failure).

(** ** The repository ([productRepository])

    A method that receives a [*domain.Product] and lets the database
    session write into it returns the struct next to its error. *)

Section Repository.
Context `{Lib}.

Definition Create (product : Product) : Repo (Product * option error) :=
  let* r := db_Create product in
  match r with
  | (product, Some err) => ret (product, Some (Errorf "failed to create product" err))
  | (product, None) => ret (product, None)
  end.

Definition GetByID (id : UUID) : Repo (result Product) :=
  (* Try cache first *)
  let cacheKey := productKey id in
  let* cached := redis_Get cacheKey in
  match (match cached with
         | Ok cached => json_Unmarshal_product cached
         | Err _ => None
         end) with
  | Some product => ret (Ok product)
  | None =>
      let* r := db_First_product (fun p => N.eqb (ID p) id) in
      match r with
      | Err err =>
          if is_ErrRecordNotFound err
          then ret (Err (NewNotFoundError "Product not found" (Some err)))
          else ret (Err (Errorf "failed to get product" err))
      | Ok product =>
          (* Cache the result *)
          match json_Marshal_product product with
          | Some productJSON =>
              let* _ := redis_Set cacheKey productJSON (10 * Minute) in
              ret (Ok product)
          | None => ret (Ok product)
          end
      end
  end.

Definition GetBySKU (sku : string) : Repo (result Product) :=
  let* r := db_First_product (fun p => String.eqb (SKU p) sku) in
  match r with
  | Err err =>
      if is_ErrRecordNotFound err
      then ret (Err (NewNotFoundError "Product not found" (Some err)))
      else ret (Err (Errorf "failed to get product by SKU" err))
  | Ok product => ret (Ok product)
  end.

Definition Update (product : Product) : Repo (Product * option error) :=
  let* r := db_Save product in
  match r with
  | (product, Some err) => ret (product, Some (Errorf "failed to update product" err))
  | (product, None) =>
      (* Invalidate cache *)
      let cacheKey := productKey (ID product) in
      let* _ := redis_Del [cacheKey] in
      ret (product, None)
  end.

Definition Delete (id : UUID) : Repo (option error) :=
  let* r := db_Delete id in
  match r with
  | Some err => ret (Some (Errorf "failed to delete product" err))
  | None =>
      (* Invalidate cache *)
      let cacheKey := productKey id in
      let* _ := redis_Del [cacheKey] in
      ret None
  end.

(** The query [List] builds from the filters, up to the count. *)
Definition filtered (filters : ProductFilters) : Query :=
  let query := mkQuery [] None None None in
  let query :=
    match f_CategoryID filters with
    | Some c => Where (CategoryEq c) query
    | None => query
    end in
  let query :=
    match f_MinPrice filters with
    | Some x => Where (PriceGe x) query
    | None => query
    end in
  let query :=
    match f_MaxPrice filters with
    | Some x => Where (PriceLe x) query
    | None => query
    end in
  let query :=
    if negb (str_empty (f_Search filters)) then
      let searchTerm := "%" +:+ strings_ToLower (f_Search filters) +:+ "%" in
      Where (NameOrDescriptionLike searchTerm) query
    else query in
  let query :=
    match f_IsActive filters with
    | Some b => Where (IsActiveEq b) query
    | None => query
    end in
  let query :=
    match f_InStock filters with
    | Some true => Where StockPositive query
    | _ => query
    end in
  query.

(** ... and from there on: sorting and pagination. *)
Definition sorted_page (filters : ProductFilters) (query : Query) : Query :=
  let orderClause := f_SortBy filters +:+ " " +:+ strings_ToUpper (f_SortOrder filters) in
  let query := Order orderClause query in
  let query :=
    if Z.ltb 0 (f_Offset filters) then Offset (f_Offset filters) query else query in
  let query :=
    if Z.ltb 0 (f_Limit filters) then Limit (f_Limit filters) query else query in
  query.

(** [productRepository.List] *)
Definition List_ (filters : ProductFilters) : Repo (result (list Product * Z)) :=
  (* Try cache for common queries *)
  let cacheKey := buildCacheKey filters in
  let* hit :=
    if negb (str_empty cacheKey) then
      let* cached := redis_Get cacheKey in
      ret (match cached with
           | Ok cached => json_Unmarshal_list cached
           | Err _ => None
           end)
    else ret None in
  match hit with
  | Some (products, total) => ret (Ok (products, total))
  | None =>
      let query := filtered filters in
      (* Count total *)
      let* c := db_Count query in
      match c with
      | Err err => ret (Err (Errorf "failed to count products" err))
      | Ok total =>
          let query := sorted_page filters query in
          let* f := db_Find query in
          match f with
          | Err err => ret (Err (Errorf "failed to list products" err))
          | Ok products =>
              (* Cache the result for common queries *)
              let* _ :=
                if negb (str_empty cacheKey) then
                  match json_Marshal_list (products, total) with
                  | Some resultJSON =>
                      let* _ := redis_Set cacheKey resultJSON (5 * Minute) in ret tt
                  | None => ret tt
                  end
                else ret tt in
              ret (Ok (products, total))
          end
      end
  end.

Definition GetCategory (id : UUID) : Repo (result Category) :=
  let* r := db_First_category id in
  match r with
  | Err err =>
      if is_ErrRecordNotFound err
      then ret (Err (NewNotFoundError "Category not found" (Some err)))
      else ret (Err (Errorf "failed to get category" err))
  | Ok category => ret (Ok category)
  end.

Definition InvalidateProductCache : Repo (option error) :=
  (* Delete all product-related cache keys *)
  let* r := redis_Keys "product:*" in
  match r with
  | Err err => ret (Some err)
  | Ok keys =>
      if Nat.ltb 0 (length keys) then redis_Del keys
      else
        (* Also delete list cache keys *)
        let* r := redis_Keys "products:*" in
        match r with
        | Err err => ret (Some err)
        | Ok listKeys =>
            if Nat.ltb 0 (length listKeys) then redis_Del listKeys
            else ret None
        end
  end.

End Repository.

(** ** The service ([productService])

    Logging is left out: it writes to standard output only. *)

Definition set_Limit (n : Z) (f : ProductFilters) : ProductFilters :=
  mkFilters (f_CategoryID f) (f_MinPrice f) (f_MaxPrice f) (f_Search f)
            (f_IsActive f) (f_InStock f) n (f_Offset f) (f_SortBy f) (f_SortOrder f).

Definition set_SortBy (s : string) (f : ProductFilters) : ProductFilters :=
  mkFilters (f_CategoryID f) (f_MinPrice f) (f_MaxPrice f) (f_Search f)
            (f_IsActive f) (f_InStock f) (f_Limit f) (f_Offset f) s (f_SortOrder f).

Definition set_SortOrder (s : string) (f : ProductFilters) : ProductFilters :=
  mkFilters (f_CategoryID f) (f_MinPrice f) (f_MaxPrice f) (f_Search f)
            (f_IsActive f) (f_InStock f) (f_Limit f) (f_Offset f) (f_SortBy f) s.

Definition set_Search (s : string) (f : ProductFilters) : ProductFilters :=
  mkFilters (f_CategoryID f) (f_MinPrice f) (f_MaxPrice f) s
            (f_IsActive f) (f_InStock f) (f_Limit f) (f_Offset f)
            (f_SortBy f) (f_SortOrder f).

Definition or_else {A} (o : option A) (a : A) : A :=
  match o with Some x => x | None => a end.

Section Service.
Context `{Lib}.

Definition CreateProduct (req : CreateProductRequest) : Repo (result Product) :=
  (* Validate request *)
  if negb (validate_create req)
  then ret (Err (NewValidationError "Invalid request" (Some validation_failure)))
  else
    (* Check if SKU already exists *)
    let* r := GetBySKU (cr_SKU req) in
    match r with
    | Err err =>
        if negb (IsNotFound err)
        then ret (Err (NewInternalError "Failed to validate SKU" (Some err)))
        else
          (* Verify category exists *)
          let* c := GetCategory (cr_CategoryID req) in
          match c with
          | Err err =>
              if IsNotFound err
              then ret (Err (NewNotFoundError "Category not found" (Some err)))
              else ret (Err (NewInternalError "Failed to verify category" (Some err)))
          | Ok _ =>
              let product :=
                mkProduct 0%N (cr_Name req) (cr_Description req) (cr_Price req)
                          (cr_CategoryID req) None (cr_Stock req) (cr_ImageURL req)
                          (cr_SKU req) true 0 0 in
              let* r := Create product in
              match r with
              | (_, Some err) =>
                  ret (Err (NewInternalError "Failed to create product" (Some err)))
              | (product, None) =>
                  (* Invalidate cache *)
                  let* _ := InvalidateProductCache in
                  ret (Ok product)
              end
          end
    | Ok existing => ret (Err (NewConflictError "SKU already exists" None))
    end.

Definition GetProduct (id : UUID) : Repo (result Product) :=
  let* r := GetByID id in
  match r with
  | Err err =>
      if IsNotFound err
      then ret (Err (NewNotFoundError "Product not found" (Some err)))
      else ret (Err (NewInternalError "Failed to get product" (Some err)))
  | Ok product => ret (Ok product)
  end.

(** The fields of the request that are set, written over the product. *)
Definition apply_update (req : UpdateProductRequest) (product : Product) : Product :=
  mkProduct (ID product)
            (or_else (ur_Name req) (Name product))
            (or_else (ur_Description req) (Description product))
            (or_else (ur_Price req) (Price product))
            (or_else (ur_CategoryID req) (CategoryID product))
            (Category_ product)
            (or_else (ur_Stock req) (Stock product))
            (or_else (ur_ImageURL req) (ImageURL product))
            (or_else (ur_SKU req) (SKU product))
            (or_else (ur_IsActive req) (IsActive product))
            (CreatedAt product) (UpdatedAt product).

Definition UpdateProduct (id : UUID) (req : UpdateProductRequest) : Repo (result Product) :=
  (* Validate request *)
  if negb (validate_update req)
  then ret (Err (NewValidationError "Invalid request" (Some validation_failure)))
  else
    (* Get existing product *)
    let* r := GetByID id in
    match r with
    | Err err =>
        if IsNotFound err
        then ret (Err (NewNotFoundError "Product not found" (Some err)))
        else ret (Err (NewInternalError "Failed to get product" (Some err)))
    | Ok product =>
        (* Check SKU uniqueness if being updated *)
        let* sku_check :=
          match ur_SKU req with
          | Some sku =>
              if negb (String.eqb sku (SKU product)) then
                let* r := GetBySKU sku in
                match r with
                | Err err =>
                    if negb (IsNotFound err)
                    then ret (Some (NewInternalError "Failed to validate SKU" (Some err)))
                    else ret None
                | Ok existing => ret (Some (NewConflictError "SKU already exists" None))
                end
              else ret None
          | None => ret None
          end in
        match sku_check with
        | Some err => ret (Err err)
        | None =>
            (* Verify category exists if being updated *)
            let* cat_check :=
              match ur_CategoryID req with
              | Some c =>
                  let* r := GetCategory c in
                  match r with
                  | Err err =>
                      if IsNotFound err
                      then ret (Some (NewNotFoundError "Category not found" (Some err)))
                      else ret (Some (NewInternalError "Failed to verify category" (Some err)))
                  | Ok _ => ret None
                  end
              | None => ret None
              end in
            match cat_check with
            | Some err => ret (Err err)
            | None =>
                (* Update fields *)
                let product := apply_update req product in
                let* r := Update product in
                match r with
                | (_, Some err) =>
                    ret (Err (NewInternalError "Failed to update product" (Some err)))
                | (product, None) =>
                    (* Invalidate cache *)
                    let* _ := InvalidateProductCache in
                    ret (Ok product)
                end
            end
        end
    end.

Definition DeleteProduct (id : UUID) : Repo (option error) :=
  (* Check if product exists *)
  let* r := GetByID id in
  match r with
  | Err err =>
      if IsNotFound err
      then ret (Some (NewNotFoundError "Product not found" (Some err)))
      else ret (Some (NewInternalError "Failed to get product" (Some err)))
  | Ok _ =>
      let* r := Delete id in
      match r with
      | Some err => ret (Some (NewInternalError "Failed to delete product" (Some err)))
      | None =>
          (* Invalidate cache *)
          let* _ := InvalidateProductCache in
          ret None
      end
  end.

(** The defaults [ListProducts] writes into the filters. *)
Definition with_defaults (filters : ProductFilters) : ProductFilters :=
  let filters :=
    if Z.leb (f_Limit filters) 0 then set_Limit 20 filters else filters in
  let filters :=
    if Z.ltb 100 (f_Limit filters) then set_Limit 100 filters else filters in
  let filters :=
    if str_empty (f_SortBy filters) then set_SortBy "created_at" filters else filters in
  let filters :=
    if str_empty (f_SortOrder filters) then set_SortOrder "desc" filters else filters in
  filters.

Definition ListProducts (filters : ProductFilters) : Repo (result ProductList) :=
  (* Set default values *)
  let filters := with_defaults filters in
  let* r := List_ filters in
  match r with
  | Err err => ret (Err (NewInternalError "Failed to list products" (Some err)))
  | Ok (products, total) =>
      ret (Ok (mkProductList products total (f_Limit filters) (f_Offset filters)
                 (Z.ltb (wrap64 (f_Offset filters + f_Limit filters)) total)))
  end.

Definition SearchProducts (query : string) (filters : ProductFilters)
    : Repo (result ProductList) :=
  if str_empty query then ListProducts filters
  else
    (* Set search query in filters *)
    let filters := set_Search query filters in
    ListProducts filters.

End Service.

(** ** An instance to run the model on

    A small stand-in for the linked libraries: ASCII case mapping,
    [LIKE] with [%] and [_], ordering by the integer columns, a validator
    for the [required] tags, and a codec that prints a product and reads
    back the products of a given universe. *)

Module Demo.

Definition lower (c : ascii) : ascii :=
  let n := nat_of_ascii c in
  if Nat.leb 65 n && Nat.leb n 90 then ascii_of_nat (n + 32) else c.

Definition upper (c : ascii) : ascii :=
  let n := nat_of_ascii c in
  if Nat.leb 97 n && Nat.leb n 122 then ascii_of_nat (n - 32) else c.

Definition map_string (f : ascii -> ascii) (s : string) : string :=
  string_of_list_ascii (map f (list_ascii_of_string s)).

Definition like (text pattern : string) : bool :=
  wildcard_match "%" "_" (list_ascii_of_string pattern) (list_ascii_of_string text).

Fixpoint insert_by (key : Product -> Z) (desc : bool) (r : Product)
    (rows : list Product) : list Product :=
  match rows with
  | [] => [r]
  | r' :: rest =>
      if (if desc then Z.leb (key r') (key r) else Z.leb (key r) (key r'))
      then r :: rows
      else r' :: insert_by key desc r rest
  end.

Definition sort_by (key : Product -> Z) (desc : bool) (rows : list Product)
    : list Product :=
  foldr (insert_by key desc) [] rows.

Definition order_by (clause : string) (rows : list Product) : option (list Product) :=
  if String.eqb clause "created_at DESC" then Some (sort_by CreatedAt true rows)
  else if String.eqb clause "created_at ASC" then Some (sort_by CreatedAt false rows)
  else if String.eqb clause "stock DESC" then Some (sort_by Stock true rows)
  else if String.eqb clause "stock ASC" then Some (sort_by Stock false rows)
  else None.

Definition print_float (x : float) : string :=
  match Prim2SF x with
  | S754_zero _ => "0"
  | S754_infinity s => if s then "-Inf" else "+Inf"
  | S754_nan => "NaN"
  | S754_finite s m e =>
      (if s then "-" else "") +:+ fmt_d (Z.pos m) +:+ "p" +:+ fmt_d e
  end.

Definition print_product (p : Product) : string :=
  "{" +:+ uuid_String (ID p) +:+ "," +:+ Name p +:+ "," +:+ Description p
      +:+ "," +:+ print_float (Price p) +:+ "," +:+ uuid_String (CategoryID p)
      +:+ "," +:+ fmt_d (Stock p) +:+ "," +:+ ImageURL p +:+ "," +:+ SKU p
      +:+ "," +:+ fmt_t (IsActive p) +:+ "," +:+ fmt_d (CreatedAt p)
      +:+ "," +:+ fmt_d (UpdatedAt p) +:+ "}".

Definition print_list (l : list Product * Z) : string :=
  "[" +:+ foldr (fun p acc => print_product p +:+ acc) "" (fst l)
      +:+ "]" +:+ fmt_d (snd l).

Definition lib (universe : list Product) (lists : list (list Product * Z)) : Lib :=
  {| json_Marshal_product := fun p => Some (print_product p);
     json_Unmarshal_product := fun s =>
       List.find (fun p => String.eqb (print_product p) s) universe;
     json_Marshal_list := fun l => Some (print_list l);
     json_Unmarshal_list := fun s =>
       List.find (fun l => String.eqb (print_list l) s) lists;
     strings_ToLower := map_string lower;
     strings_ToUpper := map_string upper;
     sql_LOWER := map_string lower;
     sql_LIKE := like;
     sql_ORDER_BY := order_by;
     validate_create := fun req =>
       negb (str_empty (cr_Name req)) && PrimFloat.ltb 0%float (cr_Price req)
       && negb (N.eqb (cr_CategoryID req) 0) && Z.leb 0 (cr_Stock req)
       && negb (str_empty (cr_SKU req));
     validate_update := fun req =>
       match ur_Price req with Some x => PrimFloat.ltb 0%float x | None => true end
       && match ur_Stock req with Some n => Z.leb 0 n | None => true end |}.

(** One category, two products, nothing cached, no fault. *)
Definition audio : Category :=
  mkCategory 0xc0%N "Audio" "" None None [] true 1 1.

Definition headphones : Product :=
  mkProduct 0xa1%N "Wireless headphones" "" 10%float 0xc0%N None 5 "" "X1" true 100 100.

Definition speaker : Product :=
  mkProduct 0xb2%N "Speaker" "" 45%float 0xc0%N None 3 "" "S9" true 200 200.

Definition world0 : World :=
  mkWorld [headphones; speaker] [audio] ∅ [] [] [] 1000 (fun n => 0xf000 + N.of_nat n)%N 0.

Definition page1 : ProductFilters :=
  mkFilters None None None "" None None 20 0 "" "".

Definition page1_key : string :=
  "products:list:limit_20:offset_0:sort_created_at_desc".

(** The codec knows the two products as the store returns them and the
    first page of the listing. *)
Definition hp : Product := preload_Category [audio] headphones.
Definition sp : Product := preload_Category [audio] speaker.
Definition codec : Lib := lib [hp; sp] [([sp; hp], 2)].

(** The world after the headphones were read once and the first page
    was listed once: both results are cached. *)
Definition warm : World :=
  snd (@ListProducts codec page1 (snd (@GetProduct codec 0xa1%N world0))).

Definition earbuds : CreateProductRequest :=
  mkCreateProductRequest "Earbuds" "" 30%float 0xc0%N 7 "" "E3".

Definition reprice : UpdateProductRequest :=
  mkUpdateProductRequest None None (Some 50%float) None None None None None.

(** The headphones at their new price. *)
Definition headphones20 : Product :=
  mkProduct 0xa1%N "Wireless headphones" "" 20%float 0xc0%N None 5 "" "X1" true 100 100.


(** The cache is unreachable for the next command. *)
Definition cache_down : World := with_redis_io [] [true] warm.

(** The database fails the next statement. *)
Definition db_down : World := with_db_faults [true] warm.

Definition wireless : ProductFilters :=
  mkFilters None None None "wireless" None None 0 0 "" "".

End Demo.

(** ** What the store answers to a lookup by id

    The outcome of [First(&product, "id = ?", id)] as [GetByID] reports
    it: the row with its category, a not-found error, or the wrapped
    database failure. *)
Definition store_lookup (id : UUID) (w : World) : result Product :=
  if hd false (db_faults w) then Err (Errorf "failed to get product" db_failure)
  else
    match first_by_pk ID (fun p => N.eqb (ID p) id) (products w) with
    | Some r => Ok (preload_Category (categories w) r)
    | None => Err (NewNotFoundError "Product not found" (Some gorm_ErrRecordNotFound))
    end.

(** What the cache probe of [GetByID] delivers: a product when the read
    reaches the cache, the key is there and its payload deserializes. *)
Definition cache_probe `{Lib} (id : UUID) (w : World) : option Product :=
  if hd false (redis_faults w) then None
  else
    match cache w !! productKey id with
    | Some e => json_Unmarshal_product (payload e)
    | None => None
    end.

(** What the cache probe of [List] delivers: a page and its total when
    the filters have a key, the read reaches the cache, the key is there
    and its payload deserializes. *)
Definition list_probe `{Lib} (filters : ProductFilters) (w : World)
    : option (list Product * Z) :=
  if str_empty (buildCacheKey filters) then None
  else if hd false (redis_faults w) then None
  else
    match cache w !! buildCacheKey filters with
    | Some e => json_Unmarshal_list (payload e)
    | None => None
    end.

Definition is_Ok {A} (r : result A) : bool :=
  match r with Ok _ => true | Err _ => false end.

Definition total_of (r : result ProductList) : option Z :=
  match r with Ok l => Some (pl_Total l) | Err _ => None end.

Definition names_of (r : result ProductList) : list string :=
  match r with Ok l => map Name (pl_Products l) | Err _ => [] end.

Definition price_of (r : result Product) : option float :=
  match r with Ok p => Some (Price p) | Err _ => None end.




Definition offset_of (r : result ProductList) : option Z :=
  match r with Ok l => Some (pl_Offset l) | Err _ => None end.

(** ** The key format, as the interface description writes it

    [products:list[:cat_<uuid>][:active_<bool>][:stock_<bool>]:limit_<n>:offset_<n>:sort_<field>_<dir>],
    and no key for a filter set with a search term or a price bound. *)

Definition optional {A} (tag : string) (show : A -> string) (o : option A) : string :=
  match o with
  | Some a => tag +:+ show a
  | None => ""
  end.

Definition KeyForFilterSet (filters : ProductFilters) : option string :=
  if negb (str_empty (f_Search filters))
     || negb (is_nil (f_MinPrice filters))
     || negb (is_nil (f_MaxPrice filters))
  then None
  else Some ("products:list"
               +:+ optional ":cat_" uuid_String (f_CategoryID filters)
               +:+ optional ":active_" fmt_t (f_IsActive filters)
               +:+ optional ":stock_" fmt_t (f_InStock filters)
               +:+ ":limit_" +:+ fmt_d (f_Limit filters)
               +:+ ":offset_" +:+ fmt_d (f_Offset filters)
               +:+ ":sort_" +:+ f_SortBy filters +:+ "_" +:+ f_SortOrder filters).

(** ** The remaining error helpers ([pkg/errors]) *)

Definition NewUnauthorizedError (message : string) (cause : option error) : error :=
  AppError ErrUnauthorized message cause.
Definition NewForbiddenError (message : string) (cause : option error) : error :=
  AppError ErrForbidden message cause.

Definition IsValidation (e : error) : bool :=
  match as_AppError e with
  | Some ErrValidation => true
  | _ => false
  end.

Definition IsConflict (e : error) : bool :=
  match as_AppError e with
  | Some ErrConflict => true
  | _ => false
  end.

Definition IsInternal (e : error) : bool :=
  match as_AppError e with
  | Some ErrInternal => true
  | _ => false
  end.

Definition IsUnauthorized (e : error) : bool :=
  match as_AppError e with
  | Some ErrUnauthorized => true
  | _ => false
  end.

Definition IsForbidden (e : error) : bool :=
  match as_AppError e with
  | Some ErrForbidden => true
  | _ => false
  end.

(** The answers of the six class tests, in the order of the source. *)
Definition classes (e : error) : list bool :=
  [IsNotFound e; IsValidation e; IsConflict e;
   IsInternal e; IsUnauthorized e; IsForbidden e].

Definition class_index (t : ErrType) : nat :=
  match t with
  | ErrNotFound => 0 | ErrValidation => 1 | ErrConflict => 2
  | ErrInternal => 3 | ErrUnauthorized => 4 | ErrForbidden => 5
  end.

(** ** Categories *)

Record CreateCategoryRequest : Type :=
  mkCreateCategoryRequest {
    ccr_Name : string;
    ccr_Description : string;
    ccr_ParentID : option UUID
  }.

Record UpdateCategoryRequest : Type :=
  mkUpdateCategoryRequest {
    ucr_Name : option string;
    ucr_Description : option string;
    ucr_ParentID : option UUID;
    ucr_IsActive : option bool
  }.

(** What the category code is linked against: the ordering of the
    database on category rows and the validator of the two requests. *)
Class CategoryLib : Type :=
  mkCategoryLib {
    sql_ORDER_categories : string -> list Category -> option (list Category);
    validate_create_category : CreateCategoryRequest -> bool;
    validate_update_category : UpdateCategoryRequest -> bool
  }.

(** [Preload("Parent").Preload("Children")] *)
Definition preload_family (cats : list Category) (c : Category) : Category :=
  set_assoc
    match cat_ParentID c with
    | Some pid => first_by_pk cat_ID (fun c' => N.eqb (cat_ID c') pid) cats
    | None => None
    end
    (filter (fun c' => cat_ParentID c' = Some (cat_ID c)) cats)
    c.

(** A loaded parent is a belongs-to association: it is saved first and
    its primary key is written over [ParentID]. *)
Definition save_Parent (c : Category) : World -> Category * World :=
  fun w =>
    match cat_Parent c with
    | Some parent =>
        let '(parent', w1) := save_belongs_to parent w in
        (mkCategory (cat_ID c) (cat_Name c) (cat_Description c) (Some (cat_ID parent'))
                    (Some parent') (cat_Children c) (cat_IsActive c)
                    (cat_CreatedAt c) (cat_UpdatedAt c),
         w1)
    | None => (c, w)
    end.

Definition set_cat_ParentID (pid : option UUID) (c : Category) : Category :=
  mkCategory (cat_ID c) (cat_Name c) (cat_Description c) pid
             (cat_Parent c) (cat_Children c) (cat_IsActive c)
             (cat_CreatedAt c) (cat_UpdatedAt c).

(** Loaded children are a has-many association, saved after their owner
    ([callbacks.SaveAfterAssociations]): each child gets the owner's
    primary key as its parent id and is inserted with
    [ON CONFLICT (id) DO UPDATE SET parent_id]; a name that another row
    has makes the statement fail.  One level only. *)
Definition save_child (owner : UUID) (child : Category)
    : World -> option (Category * World) :=
  fun w =>
    let '(id, w1) := with_key (cat_ID child) w in
    let c1 := set_cat_ParentID (Some owner) (category_defaults (now w) child) in
    let c2 := set_cat_key id (cat_CreatedAt c1) (cat_UpdatedAt c1) c1 in
    if existsb (fun r => N.eqb (cat_ID r) id) (categories w)
    then Some (c2, with_categories
                     (map (fun r => if N.eqb (cat_ID r) id
                                    then set_cat_ParentID (Some owner) r else r)
                          (categories w)) w1)
    else if existsb (fun r => String.eqb (cat_Name r) (cat_Name child)) (categories w)
    then None
    else Some (c2, with_categories (categories w ++ [cat_row c2]) w1).

Fixpoint save_has_many (owner : UUID) (children : list Category) (w : World)
    : option (list Category * World) :=
  match children with
  | [] => Some ([], w)
  | child :: rest =>
      match save_child owner child w with
      | Some (child', w1) =>
          match save_has_many owner rest w1 with
          | Some (rest', w2) => Some (child' :: rest', w2)
          | None => None
          end
      | None => None
      end
  end.

(** [db.Create(category)]: a loaded parent is saved first, the id is
    generated when it is nil, the columns with a default are filled in,
    id and name are unique, loaded children are saved last.  A failed
    statement leaves the table as it was. *)
Definition db_Create_category (c : Category) : Repo (Category * option error) :=
  let* ok := db_exec in
  if ok then
    fun w =>
      let '(c1, w1) := save_Parent c w in
      let '(id, w2) := with_key (cat_ID c) w1 in
      let c2 := category_defaults (now w) c1 in
      let c' := set_cat_key id (cat_CreatedAt c2) (cat_UpdatedAt c2) c2 in
      if existsb (fun r => N.eqb (cat_ID r) id || String.eqb (cat_Name r) (cat_Name c))
                 (categories w1)
      then ((c, Some db_failure), w)
      else
        match save_has_many id (cat_Children c)
                (with_categories (categories w1 ++ [cat_row c']) w2) with
        | Some (children, w3) => ((set_assoc (cat_Parent c') children c', None), w3)
        | None => ((c, Some db_failure), w)
        end
  else ret (c, Some db_failure).

(** [db.First(&category, "name = ?", name)] *)
Definition db_First_category_by_name (name : string) : Repo (result Category) :=
  let* ok := db_exec in
  if ok then
    fun w =>
      match first_by_pk cat_ID (fun c => String.eqb (cat_Name c) name) (categories w) with
      | Some c => (Ok c, w)
      | None => (Err gorm_ErrRecordNotFound, w)
      end
  else ret (Err db_failure).

(** [db.Save(category)]: without a primary key this is [Create].
    Otherwise a loaded parent is saved first, every column is written to
    the row with the category's primary key (inserted, with the defaults
    of an INSERT, when no row has that key), and loaded children are
    saved last. *)
Definition db_Save_category (c : Category) : Repo (Category * option error) :=
  if N.eqb (cat_ID c) 0 then db_Create_category c
  else
    let* ok := db_exec in
    if ok then
      fun w =>
        let '(c1, w1) := save_Parent c w in
        let c' := set_cat_key (cat_ID c) (cat_CreatedAt c1) (now w) c1 in
        if existsb (fun r => negb (N.eqb (cat_ID r) (cat_ID c))
                             && String.eqb (cat_Name r) (cat_Name c))
                   (categories w1)
        then ((c, Some db_failure), w)
        else
          let '(c'', rows) :=
            if existsb (fun r => N.eqb (cat_ID r) (cat_ID c)) (categories w1)
            then (c', map (fun r => if N.eqb (cat_ID r) (cat_ID c) then cat_row c' else r)
                          (categories w1))
            else (category_defaults (now w) c',
                  (categories w1 ++ [cat_row (category_defaults (now w) c')])%list) in
          match save_has_many (cat_ID c) (cat_Children c) (with_categories rows w1) with
          | Some (children, w2) => ((set_assoc (cat_Parent c'') children c'', None), w2)
          | None => ((c, Some db_failure), w)
          end
    else ret (c, Some db_failure).

(** [db.Delete(&domain.Category{}, "id = ?", id)] *)
Definition db_Delete_category (id : UUID) : Repo (option error) :=
  let* ok := db_exec in
  if ok then
    fun w => (None, with_categories
                      (filter (fun r => N.eqb (cat_ID r) id = false) (categories w)) w)
  else ret (Some db_failure).

(** [db.Preload("Parent").Preload("Children").Where("is_active = ?", true).Order("name ASC").Find(&categories)] *)
Definition db_Find_categories `{CategoryLib} : Repo (result (list Category)) :=
  let* ok := db_exec in
  if ok then
    fun w =>
      match sql_ORDER_categories "name ASC"
              (List.filter cat_IsActive (categories w)) with
      | Some sorted => (Ok (map (preload_family (categories w)) sorted), w)
      | None => (Err db_failure, w)
      end
  else ret (Err db_failure).

(** *** The category methods of the repository *)

Definition CreateCategory (category : Category) : Repo (Category * option error) :=
  let* r := db_Create_category category in
  match r with
  | (category, Some err) => ret (category, Some (Errorf "failed to create category" err))
  | (category, None) => ret (category, None)
  end.

Definition GetCategoryByName (name : string) : Repo (result Category) :=
  let* r := db_First_category_by_name name in
  match r with
  | Err err =>
      if is_ErrRecordNotFound err
      then ret (Err (NewNotFoundError "Category not found" (Some err)))
      else ret (Err (Errorf "failed to get category by name" err))
  | Ok category => ret (Ok category)
  end.

Definition UpdateCategory (category : Category) : Repo (Category * option error) :=
  let* r := db_Save_category category in
  match r with
  | (category, Some err) => ret (category, Some (Errorf "failed to update category" err))
  | (category, None) => ret (category, None)
  end.

Definition DeleteCategory (id : UUID) : Repo (option error) :=
  let* r := db_Delete_category id in
  match r with
  | Some err => ret (Some (Errorf "failed to delete category" err))
  | None => ret None
  end.

Definition ListCategories `{CategoryLib} : Repo (result (list Category)) :=
  let* r := db_Find_categories in
  match r with
  | Err err => ret (Err (Errorf "failed to list categories" err))
  | Ok categories => ret (Ok categories)
  end.

(** *** The category methods of the service *)

(** The methods carry the names they have in [productService]; in each
    body a name that is also a method of the repository still denotes
    the repository's method, which is why [GetCategory] comes last. *)
Module CategoryService.
Section Methods.
Context `{Lib} `{CategoryLib}.

Definition CreateCategory (req : CreateCategoryRequest) : Repo (result Category) :=
  (* Validate request *)
  if negb (validate_create_category req)
  then ret (Err (NewValidationError "Invalid request" (Some validation_failure)))
  else
    (* Check if name already exists *)
    let* r := GetCategoryByName (ccr_Name req) in
    match r with
    | Err err =>
        if negb (IsNotFound err)
        then ret (Err (NewInternalError "Failed to validate category name" (Some err)))
        else
          (* Verify parent category exists if specified *)
          let* parent_check :=
            match ccr_ParentID req with
            | Some pid =>
                let* r := GetCategory pid in
                match r with
                | Err err =>
                    if IsNotFound err
                    then ret (Some (NewNotFoundError "Parent category not found" (Some err)))
                    else ret (Some (NewInternalError "Failed to verify parent category"
                                      (Some err)))
                | Ok _ => ret None
                end
            | None => ret None
            end in
          match parent_check with
          | Some err => ret (Err err)
          | None =>
              let category :=
                mkCategory 0%N (ccr_Name req) (ccr_Description req) (ccr_ParentID req)
                           None [] true 0 0 in
              let* r := CreateCategory category in
              match r with
              | (_, Some err) =>
                  ret (Err (NewInternalError "Failed to create category" (Some err)))
              | (category, None) => ret (Ok category)
              end
          end
    | Ok existing => ret (Err (NewConflictError "Category name already exists" None))
    end.

(** The fields of the request that are set, written over the category. *)
Definition apply_category_update (req : UpdateCategoryRequest) (category : Category)
    : Category :=
  mkCategory (cat_ID category)
             (or_else (ucr_Name req) (cat_Name category))
             (or_else (ucr_Description req) (cat_Description category))
             (match ucr_ParentID req with
              | Some pid => Some pid
              | None => cat_ParentID category
              end)
             (cat_Parent category) (cat_Children category)
             (or_else (ucr_IsActive req) (cat_IsActive category))
             (cat_CreatedAt category) (cat_UpdatedAt category).

Definition UpdateCategory (id : UUID) (req : UpdateCategoryRequest)
    : Repo (result Category) :=
  (* Validate request *)
  if negb (validate_update_category req)
  then ret (Err (NewValidationError "Invalid request" (Some validation_failure)))
  else
    (* Get existing category *)
    let* r := GetCategory id in
    match r with
    | Err err =>
        if IsNotFound err
        then ret (Err (NewNotFoundError "Category not found" (Some err)))
        else ret (Err (NewInternalError "Failed to get category" (Some err)))
    | Ok category =>
        (* Check name uniqueness if being updated *)
        let* name_check :=
          match ucr_Name req with
          | Some name =>
              if negb (String.eqb name (cat_Name category)) then
                let* r := GetCategoryByName name in
                match r with
                | Err err =>
                    if negb (IsNotFound err)
                    then ret (Some (NewInternalError "Failed to validate category name"
                                      (Some err)))
                    else ret None
                | Ok existing =>
                    ret (Some (NewConflictError "Category name already exists" None))
                end
              else ret None
          | None => ret None
          end in
        match name_check with
        | Some err => ret (Err err)
        | None =>
            (* Verify parent category exists if being updated *)
            let* parent_check :=
              match ucr_ParentID req with
              | Some pid =>
                  let* r := GetCategory pid in
                  match r with
                  | Err err =>
                      if IsNotFound err
                      then ret (Some (NewNotFoundError "Parent category not found"
                                        (Some err)))
                      else ret (Some (NewInternalError "Failed to verify parent category"
                                        (Some err)))
                  | Ok _ => ret None
                  end
              | None => ret None
              end in
            match parent_check with
            | Some err => ret (Err err)
            | None =>
                (* Update fields *)
                let category := apply_category_update req category in
                let* r := UpdateCategory category in
                match r with
                | (_, Some err) =>
                    ret (Err (NewInternalError "Failed to update category" (Some err)))
                | (category, None) => ret (Ok category)
                end
            end
        end
    end.

Definition DeleteCategory (id : UUID) : Repo (option error) :=
  (* Check if category exists *)
  let* r := GetCategory id in
  match r with
  | Err err =>
      if IsNotFound err
      then ret (Some (NewNotFoundError "Category not found" (Some err)))
      else ret (Some (NewInternalError "Failed to get category" (Some err)))
  | Ok _ =>
      (* Check if category has products *)
      let filters := mkFilters (Some id) None None "" None None 1 0 "" "" in
      let* r := List_ filters in
      match r with
      | Err err => ret (Some (NewInternalError "Failed to check category usage" (Some err)))
      | Ok (products, _) =>
          if Nat.ltb 0 (length products)
          then ret (Some (NewConflictError "Cannot delete category with products" None))
          else
            let* r := DeleteCategory id in
            match r with
            | Some err =>
                ret (Some (NewInternalError "Failed to delete category" (Some err)))
            | None => ret None
            end
      end
  end.

Definition ListCategories : Repo (result (list Category)) :=
  let* r := ListCategories in
  match r with
  | Err err => ret (Err (NewInternalError "Failed to list categories" (Some err)))
  | Ok categories => ret (Ok categories)
  end.

Definition GetCategory (id : UUID) : Repo (result Category) :=
  let* r := GetCategory id in
  match r with
  | Err err =>
      if IsNotFound err
      then ret (Err (NewNotFoundError "Category not found" (Some err)))
      else ret (Err (NewInternalError "Failed to get category" (Some err)))
  | Ok category => ret (Ok category)
  end.

End Methods.
End CategoryService.

(** ** [strconv] *)

Definition is_digit (c : ascii) : bool :=
  let n := nat_of_ascii c in Nat.leb 48 n && Nat.leb n 57.

(** The value of a non-empty run of decimal digits. *)
Definition digits_value (s : string) : option Z :=
  if str_empty s then None
  else
    match NilZero.uint_of_string s with
    | Some d => Some (Z.of_N (N.of_uint d))
    | None => None
    end.

(** [strconv.Atoi]: an optional sign, then decimal digits only; a value
    outside [int] is an error. *)
Definition strconv_Atoi (s : string) : option Z :=
  let signed :=
    match s with
    | String c rest =>
        if Ascii.eqb c "-" then Z.opp <$> digits_value rest
        else if Ascii.eqb c "+" then digits_value rest
        else digits_value s
    | EmptyString => None
    end in
  match signed with
  | Some n => if Z.leb (- 2 ^ 63) n && Z.ltb n (2 ^ 63) then Some n else None
  | None => None
  end.

(** [strconv.ParseBool] *)
Definition strconv_ParseBool (s : string) : option bool :=
  if existsb (String.eqb s) ["1"; "t"; "T"; "TRUE"; "true"; "True"] then Some true
  else if existsb (String.eqb s) ["0"; "f"; "F"; "FALSE"; "false"; "False"] then Some false
  else None.

(** ** Configuration ([internal/product/config]) *)

Module Config.

Record HTTPConfig : Type := mkHTTPConfig { http_Port : string }.
Record GRPCConfig : Type := mkGRPCConfig { grpc_Port : string }.

Record DatabaseConfig : Type :=
  mkDatabaseConfig {
    db_Host : string;
    db_Port : Z;
    db_User : string;
    db_Password : string;
    db_Name : string;
    db_SSLMode : string;
    db_TimeZone : string;
    db_MaxIdleConns : Z;
    db_MaxOpenConns : Z;
    db_ConnMaxLifetime : Z
  }.

Record RedisConfig : Type :=
  mkRedisConfig {
    redis_Host : string;
    redis_Port : Z;
    redis_Password : string;
    redis_DB : Z;
    redis_PoolSize : Z;
    redis_MinIdleConns : Z;
    redis_MaxRetries : Z;
    redis_DialTimeout : Z;
    redis_ReadTimeout : Z;
    redis_WriteTimeout : Z
  }.

Record LoggerConfig : Type := mkLoggerConfig { log_Level : string }.

Record Config : Type :=
  mkConfig {
    HTTP : HTTPConfig;
    GRPC : GRPCConfig;
    Database : DatabaseConfig;
    Redis : RedisConfig;
    Logger : LoggerConfig
  }.

(** The process environment: [os.Getenv], the empty string for a
    variable that is not set. *)
Definition Env : Type := string -> string.

Definition getEnv (env : Env) (key defaultValue : string) : string :=
  let value := env key in
  if negb (str_empty value) then value else defaultValue.

Definition getEnvAsInt (env : Env) (key : string) (defaultValue : Z) : Z :=
  let value := env key in
  if negb (str_empty value) then
    match strconv_Atoi value with
    | Some intValue => intValue
    | None => defaultValue
    end
  else defaultValue.

Definition Load (env : Env) : Config :=
  mkConfig
    (mkHTTPConfig (getEnv env "HTTP_PORT" "8080"))
    (mkGRPCConfig (getEnv env "GRPC_PORT" "50051"))
    (mkDatabaseConfig
       (getEnv env "DB_HOST" "localhost")
       (getEnvAsInt env "DB_PORT" 5432)
       (getEnv env "DB_USER" "postgres")
       (getEnv env "DB_PASSWORD" "password")
       (getEnv env "DB_NAME" "ecommerce")
       (getEnv env "DB_SSLMODE" "disable")
       (getEnv env "DB_TIMEZONE" "UTC")
       (getEnvAsInt env "DB_MAX_IDLE_CONNS" 10)
       (getEnvAsInt env "DB_MAX_OPEN_CONNS" 100)
       (getEnvAsInt env "DB_CONN_MAX_LIFETIME" 60))
    (mkRedisConfig
       (getEnv env "REDIS_HOST" "localhost")
       (getEnvAsInt env "REDIS_PORT" 6379)
       (getEnv env "REDIS_PASSWORD" "")
       (getEnvAsInt env "REDIS_DB" 0)
       (getEnvAsInt env "REDIS_POOL_SIZE" 10)
       (getEnvAsInt env "REDIS_MIN_IDLE_CONNS" 5)
       (getEnvAsInt env "REDIS_MAX_RETRIES" 3)
       (getEnvAsInt env "REDIS_DIAL_TIMEOUT" 5)
       (getEnvAsInt env "REDIS_READ_TIMEOUT" 3)
       (getEnvAsInt env "REDIS_WRITE_TIMEOUT" 3))
    (mkLoggerConfig (getEnv env "LOG_LEVEL" "info")).

End Config.

(** ** The HTTP handlers ([internal/product/handler])

    A request is what the handlers read of [gin.Context]: the path
    parameters and the query string.  A response is the status code and
    the [APIResponse] written. *)

Module Handler.

Record Request : Type :=
  mkRequest {
    Param : string -> string;             (* c.Param *)
    GetQuery : string -> option string    (* c.GetQuery *)
  }.

(** [c.Query]: the empty string when the key is absent. *)
Definition Query (c : Request) (key : string) : string :=
  match GetQuery c key with Some v => v | None => "" end.

(** [c.DefaultQuery] *)
Definition DefaultQuery (c : Request) (key defaultValue : string) : string :=
  match GetQuery c key with Some v => v | None => defaultValue end.

Inductive Data : Type :=
  | NoData
  | ProductData (p : Product)
  | ProductListData (l : ProductList).

(** The error whose text goes into the response. *)
Inductive Detail : Type :=
  | NoDetail
  | ErrorText (e : error)
  | ParseError (input : string).

Record APIResponse : Type :=
  mkAPIResponse {
    Success : bool;
    Message : string;
    Data_ : Data;
    Error_ : Detail
  }.

Definition Response : Type := (Z * APIResponse)%type.

(** [response.Success] and [response.Error] *)
Definition respond_Success (statusCode : Z) (message : string) (data : Data) : Response :=
  (statusCode, mkAPIResponse true message data NoDetail).

Definition respond_Error (statusCode : Z) (message : string) (err : Detail) : Response :=
  (statusCode, mkAPIResponse false message NoData err).

Definition StatusOK : Z := 200.
Definition StatusBadRequest : Z := 400.
Definition StatusNotFound : Z := 404.
Definition StatusConflict : Z := 409.
Definition StatusInternalServerError : Z := 500.

Definition handleError (err : error) : Response :=
  if IsNotFound err then respond_Error StatusNotFound "Resource not found" (ErrorText err)
  else if IsValidation err then respond_Error StatusBadRequest "Validation failed" (ErrorText err)
  else if IsConflict err then respond_Error StatusConflict "Resource conflict" (ErrorText err)
  else respond_Error StatusInternalServerError "Internal server error" NoDetail.

(** The parsers of the [uuid] and [strconv] packages the handlers call
    and the model does not define. *)
Class Parsers : Type :=
  mkParsers {
    uuid_Parse : string -> option UUID;
    strconv_ParseFloat : string -> option float
  }.

Definition set_CategoryID (c : option UUID) (f : ProductFilters) : ProductFilters :=
  mkFilters c (f_MinPrice f) (f_MaxPrice f) (f_Search f)
            (f_IsActive f) (f_InStock f) (f_Limit f) (f_Offset f)
            (f_SortBy f) (f_SortOrder f).

Definition set_MinPrice (x : option float) (f : ProductFilters) : ProductFilters :=
  mkFilters (f_CategoryID f) x (f_MaxPrice f) (f_Search f)
            (f_IsActive f) (f_InStock f) (f_Limit f) (f_Offset f)
            (f_SortBy f) (f_SortOrder f).

Definition set_MaxPrice (x : option float) (f : ProductFilters) : ProductFilters :=
  mkFilters (f_CategoryID f) (f_MinPrice f) x (f_Search f)
            (f_IsActive f) (f_InStock f) (f_Limit f) (f_Offset f)
            (f_SortBy f) (f_SortOrder f).

Definition set_IsActive (b : option bool) (f : ProductFilters) : ProductFilters :=
  mkFilters (f_CategoryID f) (f_MinPrice f) (f_MaxPrice f) (f_Search f)
            b (f_InStock f) (f_Limit f) (f_Offset f)
            (f_SortBy f) (f_SortOrder f).

Definition set_InStock (b : option bool) (f : ProductFilters) : ProductFilters :=
  mkFilters (f_CategoryID f) (f_MinPrice f) (f_MaxPrice f) (f_Search f)
            (f_IsActive f) b (f_Limit f) (f_Offset f)
            (f_SortBy f) (f_SortOrder f).

Definition set_Offset (n : Z) (f : ProductFilters) : ProductFilters :=
  mkFilters (f_CategoryID f) (f_MinPrice f) (f_MaxPrice f) (f_Search f)
            (f_IsActive f) (f_InStock f) (f_Limit f) n
            (f_SortBy f) (f_SortOrder f).

(** [&domain.ProductFilters{}] *)
Definition no_filters : ProductFilters :=
  mkFilters None None None "" None None 0 0 "" "".

(** A query parameter that is present, non-empty and parses is written
    into the filters; otherwise they are left as they are. *)
Definition parsed {A} (c : Request) (key : string) (parse : string -> option A)
    (set : A -> ProductFilters -> ProductFilters) (filters : ProductFilters)
    : ProductFilters :=
  let v := Query c key in
  if negb (str_empty v) then
    match parse v with
    | Some a => set a filters
    | None => filters
    end
  else filters.

Section Handlers.
Context `{Lib} `{Parsers}.

Definition GetProduct (c : Request) : Repo Response :=
  let idStr := Param c "id" in
  match uuid_Parse idStr with
  | None => ret (respond_Error StatusBadRequest "Invalid product ID" (ParseError idStr))
  | Some id =>
      let* r := GetProduct id in
      match r with
      | Err err => ret (handleError err)
      | Ok product =>
          ret (respond_Success StatusOK "Product retrieved successfully" (ProductData product))
      end
  end.

Definition DeleteProduct (c : Request) : Repo Response :=
  let idStr := Param c "id" in
  match uuid_Parse idStr with
  | None => ret (respond_Error StatusBadRequest "Invalid product ID" (ParseError idStr))
  | Some id =>
      let* r := DeleteProduct id in
      match r with
      | Some err => ret (handleError err)
      | None => ret (respond_Success StatusOK "Product deleted successfully" NoData)
      end
  end.

(** The filters [ListProducts] reads off the query string. *)
Definition list_filters (c : Request) : ProductFilters :=
  let filters := no_filters in
  (* Parse query parameters *)
  let filters := parsed c "category_id" uuid_Parse (fun id => set_CategoryID (Some id)) filters in
  let filters := parsed c "min_price" strconv_ParseFloat (fun x => set_MinPrice (Some x)) filters in
  let filters := parsed c "max_price" strconv_ParseFloat (fun x => set_MaxPrice (Some x)) filters in
  let filters := set_Search (Query c "search") filters in
  let filters := parsed c "is_active" strconv_ParseBool (fun b => set_IsActive (Some b)) filters in
  let filters := parsed c "in_stock" strconv_ParseBool (fun b => set_InStock (Some b)) filters in
  let filters := parsed c "limit" strconv_Atoi set_Limit filters in
  let filters := parsed c "offset" strconv_Atoi set_Offset filters in
  let filters := set_SortBy (DefaultQuery c "sort_by" "created_at") filters in
  let filters := set_SortOrder (DefaultQuery c "sort_order" "desc") filters in
  filters.

Definition ListProducts (c : Request) : Repo Response :=
  let filters := list_filters c in
  let* r := ListProducts filters in
  match r with
  | Err err => ret (handleError err)
  | Ok productList =>
      ret (respond_Success StatusOK "Products retrieved successfully"
             (ProductListData productList))
  end.

(** The filters [SearchProducts] reads off the query string. *)
Definition search_filters (c : Request) : ProductFilters :=
  let filters := no_filters in
  (* Parse additional filters *)
  let filters := parsed c "category_id" uuid_Parse (fun id => set_CategoryID (Some id)) filters in
  let filters := parsed c "limit" strconv_Atoi set_Limit filters in
  let filters := parsed c "offset" strconv_Atoi set_Offset filters in
  filters.

Definition SearchProducts (c : Request) : Repo Response :=
  let query := Query c "q" in
  if str_empty query
  then ret (respond_Error StatusBadRequest "Search query is required" NoDetail)
  else
    let filters := search_filters c in
    let* r := SearchProducts query filters in
    match r with
    | Err err => ret (handleError err)
    | Ok productList =>
        ret (respond_Success StatusOK "Search results retrieved successfully"
               (ProductListData productList))
    end.

End Handlers.
End Handler.

(** ** More data to run the model on *)

Module Fixture.

(** A product that carries its own id. *)
Definition earbuds_e3 : Product :=
  mkProduct 0xe3%N "Earbuds" "" 30%float 0xc0%N None 7 "" "E3" true 0 0.

(** Categories keep the order of the table; a name is required. *)
Definition categories_lib : CategoryLib :=
  {| sql_ORDER_categories := fun clause rows =>
       if String.eqb clause "name ASC" then Some rows else None;
     validate_create_category := fun req => negb (str_empty (ccr_Name req));
     validate_update_category := fun req =>
       match ucr_Name req with Some n => negb (str_empty n) | None => true end |}.

(** Ids are read in their canonical form, among the ids of the examples. *)
Definition parsers : Handler.Parsers :=
  {| Handler.uuid_Parse := fun s =>
       List.find (fun u => String.eqb (uuid_String u) s)
                 [0xa1%N; 0xb2%N; 0xc0%N; 0xdead%N];
     Handler.strconv_ParseFloat := fun _ => None |}.

Definition request (params query : list (string * string)) : Handler.Request :=
  Handler.mkRequest
    (fun k => match List.find (fun kv => String.eqb (fst kv) k) params with
              | Some kv => snd kv
              | None => ""
              end)
    (fun k => match List.find (fun kv => String.eqb (fst kv) k) query with
              | Some kv => Some (snd kv)
              | None => None
              end).







(** One product, from one row before the first. *)
Definition negative_offset : ProductFilters :=
  mkFilters None None None "" None None 1 (-1) "" "".

(** The key under which the usage check of [DeleteCategory] is cached. *)
Definition usage_key (id : UUID) : string :=
  buildCacheKey (mkFilters (Some id) None None "" None None 1 0 "" "").

(** A cache that holds an empty listing for the products of [Demo.audio]. *)
Definition stale_usage : World :=
  with_cache {[ usage_key 0xc0%N := mkEntry (Demo.print_list ([], 0)) (5 * Minute) ]}
             Demo.world0.

Definition usage_codec : Lib := Demo.lib [] [([], 0)].

Definition environment (vars : list (string * string)) : Config.Env :=
  fun k => match List.find (fun kv => String.eqb (fst kv) k) vars with
           | Some kv => snd kv
           | None => ""
           end.

End Fixture.

(** * Properties *)

(** ** Strings *)

Lemma append_cons (c : ascii) (s t : string) : String c s +:+ t = String c (s +:+ t).
Proof. reflexivity. Qed.

Lemma append_assoc (s1 s2 s3 : string) : (s1 +:+ s2) +:+ s3 = s1 +:+ (s2 +:+ s3).
Proof.
  induction s1 as [|c s1 IH]; [reflexivity|].
  now rewrite !append_cons, IH.
Qed.

Lemma append_nil_r (s : string) : s +:+ "" = s.
Proof.
  induction s as [|c s IH]; [reflexivity|].
  now rewrite append_cons, IH.
Qed.

Lemma str_empty_spec (s : string) : str_empty s = true <-> s = "".
Proof. destruct s; simpl; split; congruence. Qed.

Lemma str_empty_false (s : string) : str_empty s = false <-> s <> "".
Proof. destruct s; simpl; split; congruence. Qed.

Lemma is_nil_false {A} (o : option A) : is_nil o = false <-> o <> None.
Proof. destruct o; simpl; split; congruence. Qed.

(** ** The cache key of a filter set *)

Lemma KeyForFilterSet_None (f : ProductFilters) :
  KeyForFilterSet f = None
  <-> (f_Search f <> "" \/ f_MinPrice f <> None \/ f_MaxPrice f <> None).
Proof.
  unfold KeyForFilterSet.
  destruct (f_Search f), (f_MinPrice f), (f_MaxPrice f); simpl;
    split; intros Hk; try discriminate; try reflexivity;
    solve [ right; left; discriminate | right; right; discriminate
          | left; discriminate | destruct Hk as [Hk|[Hk|Hk]]; congruence ].
Qed.

Lemma buildCacheKey_refines (f : ProductFilters) :
  buildCacheKey f = match KeyForFilterSet f with Some k => k | None => "" end.
Proof.
  unfold buildCacheKey, KeyForFilterSet, optional.
  destruct (negb (str_empty (f_Search f)) || negb (is_nil (f_MinPrice f))
            || negb (is_nil (f_MaxPrice f))); [reflexivity|].
  destruct (f_CategoryID f), (f_IsActive f), (f_InStock f);
    rewrite ?append_assoc, ?append_nil_r; reflexivity.
Qed.

Lemma KeyForFilterSet_nonempty (f : ProductFilters) (k : string) :
  KeyForFilterSet f = Some k -> k <> "".
Proof.
  unfold KeyForFilterSet.
  destruct (_ || _); [discriminate|].
  intros [= <-]. rewrite append_cons. discriminate.
Qed.

Lemma buildCacheKey_empty_iff (f : ProductFilters) :
  buildCacheKey f = ""
  <-> (f_Search f <> "" \/ f_MinPrice f <> None \/ f_MaxPrice f <> None).
Proof.
  rewrite buildCacheKey_refines, <- KeyForFilterSet_None.
  destruct (KeyForFilterSet f) as [k|] eqn:Hk; [|tauto].
  apply KeyForFilterSet_nonempty in Hk. split; [tauto | discriminate].
Qed.

(** C3. [buildCacheKey] is a function of the filter values alone; it
    returns no key (the empty string) exactly when the filter set has a
    non-empty search term or a minimum or maximum price, and otherwise the
    key in the format
    [products:list[:cat_<uuid>][:active_<bool>][:stock_<bool>]:limit_<n>:offset_<n>:sort_<field>_<dir>];
    two filter sets with the same field values get the same key. *)
Theorem buildCacheKey_spec (f : ProductFilters) :
  (buildCacheKey f = ""
   <-> (f_Search f <> "" \/ f_MinPrice f <> None \/ f_MaxPrice f <> None))
  /\ (forall k, KeyForFilterSet f = Some k -> buildCacheKey f = k)
  /\ (forall g : ProductFilters,
        f_CategoryID g = f_CategoryID f -> f_MinPrice g = f_MinPrice f ->
        f_MaxPrice g = f_MaxPrice f -> f_Search g = f_Search f ->
        f_IsActive g = f_IsActive f -> f_InStock g = f_InStock f ->
        f_Limit g = f_Limit f -> f_Offset g = f_Offset f ->
        f_SortBy g = f_SortBy f -> f_SortOrder g = f_SortOrder f ->
        buildCacheKey g = buildCacheKey f).
Proof.
  split; [|split].
  - apply buildCacheKey_empty_iff.
  - intros k Hk. now rewrite buildCacheKey_refines, Hk.
  - intros g H1 H2 H3 H4 H5 H6 H7 H8 H9 H10.
    unfold buildCacheKey.
    now rewrite H1, H2, H3, H4, H5, H6, H7, H8, H9, H10.
Qed.

Lemma buildCacheKey_spec_witness :
  buildCacheKey Demo.page1 = "products:list:limit_20:offset_0:sort__"
  /\ buildCacheKey
       (mkFilters None None None "" None None 20 0 "" "") = buildCacheKey Demo.page1.
Proof.
  split; [reflexivity|].
  apply (buildCacheKey_spec Demo.page1); reflexivity.
Defined.

(** ** Reading by SKU *)

Ltac unfold_repo :=
  unfold GetByID, GetBySKU, Update, Delete, Create, GetCategory,
    db_First_product, db_First_category, db_Save, db_Create, db_Delete, db_exec,
    redis_Get, redis_Set, redis_Del, redis_Keys, redis_send, bind, ret in *.

(** C10. [GetBySKU] goes to the store only: it issues no cache command
    and leaves the cache as it was, and two worlds with the same store
    give the same answer whatever their caches hold. *)
Theorem GetBySKU_store_only (sku : string) (w w2 : World) :
  products w2 = products w ->
  categories w2 = categories w ->
  db_faults w2 = db_faults w ->
  cache (snd (GetBySKU sku w)) = cache w
  /\ redis_log (snd (GetBySKU sku w)) = redis_log w
  /\ redis_faults (snd (GetBySKU sku w)) = redis_faults w
  /\ fst (GetBySKU sku w2) = fst (GetBySKU sku w).
Proof.
  intros Hp Hc Hf. unfold_repo.
  destruct w as [ps cs c lg rf df t en dr], w2 as [ps2 cs2 c2 lg2 rf2 df2 t2 en2 dr2].
  simpl in *. subst ps2 cs2 df2.
  destruct df as [|[] df]; simpl;
    try destruct (first_by_pk ID _ ps); simpl; auto.
Qed.

Lemma GetBySKU_store_only_witness :
  cache (snd (GetBySKU "X1" Demo.warm)) = cache Demo.warm
  /\ redis_log (snd (GetBySKU "X1" Demo.warm)) = redis_log Demo.warm
  /\ redis_faults (snd (GetBySKU "X1" Demo.warm)) = redis_faults Demo.warm
  /\ fst (GetBySKU "X1" Demo.world0) = fst (GetBySKU "X1" Demo.warm).
Proof.
  apply (GetBySKU_store_only "X1" Demo.warm Demo.world0); vm_compute; reflexivity.
Defined.

(** ** Writes that fail in the store *)

(** C7. When the store mutation of [Update] or of [Delete] fails, the
    operation returns that error (wrapped with its message) and issues no
    cache command: the cache, the command log and the pending cache
    faults are what they were. *)
Theorem store_error_no_cache_effect (product : Product) (id : UUID) (w : World) :
  (forall p1 err w1,
      db_Save product w = ((p1, Some err), w1) ->
      Update product w = ((p1, Some (Errorf "failed to update product" err)), w1)
      /\ cache w1 = cache w /\ redis_log w1 = redis_log w
      /\ redis_faults w1 = redis_faults w)
  /\ (forall err w1,
        db_Delete id w = (Some err, w1) ->
        Delete id w = (Some (Errorf "failed to delete product" err), w1)
        /\ cache w1 = cache w /\ redis_log w1 = redis_log w
        /\ redis_faults w1 = redis_faults w).
Proof.
  split.
  - intros p1 err w1 Hs. unfold Update, bind. rewrite Hs. split; [reflexivity|].
    revert Hs. unfold_repo. destruct w as [ps cs c lg rf df t en dr]. simpl.
    repeat case_match; intros; simplify_eq/=; auto.
  - intros err w1 Hd. unfold Delete, bind. rewrite Hd. split; [reflexivity|].
    revert Hd. unfold_repo. destruct w as [ps cs c lg rf df t en dr]. simpl.
    repeat case_match; intros; simplify_eq/=; auto.
Qed.

Lemma store_error_no_cache_effect_witness :
  (Update Demo.headphones20 Demo.db_down
   = ((Demo.headphones20, Some (Errorf "failed to update product" db_failure)),
      with_db_faults [] Demo.warm)
   /\ cache (with_db_faults [] Demo.warm) = cache Demo.db_down
   /\ redis_log (with_db_faults [] Demo.warm) = redis_log Demo.db_down
   /\ redis_faults (with_db_faults [] Demo.warm) = redis_faults Demo.db_down)
  /\ (Delete 0xa1%N Demo.db_down
      = (Some (Errorf "failed to delete product" db_failure), with_db_faults [] Demo.warm)
      /\ cache (with_db_faults [] Demo.warm) = cache Demo.db_down
      /\ redis_log (with_db_faults [] Demo.warm) = redis_log Demo.db_down
      /\ redis_faults (with_db_faults [] Demo.warm) = redis_faults Demo.db_down).
Proof.
  split.
  - apply (proj1 (store_error_no_cache_effect Demo.headphones20 0xa1%N Demo.db_down)).
    reflexivity.
  - apply (proj2 (store_error_no_cache_effect Demo.headphones20 0xa1%N Demo.db_down)).
    reflexivity.
Defined.

(** ** Reading by id *)

Section GetByID_facts.
Context `{Lib}.

Lemma GetByID_hit (id : UUID) (w : World) (p : Product) :
  cache_probe id w = Some p ->
  GetByID id w
  = (Ok p, with_redis_io (redis_log w ++ [GET (productKey id)])
                         (tl (redis_faults w)) w).
Proof.
  unfold cache_probe. unfold_repo.
  destruct w as [ps cs c lg rf df t en dr]; simpl.
  destruct rf as [|[] rf]; simpl; try discriminate;
    destruct (c !! productKey id) as [e|]; simpl; try discriminate;
    intros ->; reflexivity.
Qed.

Lemma GetByID_fallthrough (id : UUID) (w : World) :
  cache_probe id w = None ->
  fst (GetByID id w) = store_lookup id w
  /\ (cache (snd (GetByID id w)) = cache w
      \/ exists r js,
          first_by_pk ID (fun p => N.eqb (ID p) id) (products w) = Some r
          /\ fst (GetByID id w) = Ok (preload_Category (categories w) r)
          /\ json_Marshal_product (preload_Category (categories w) r) = Some js
          /\ cache (snd (GetByID id w))
             = <[productKey id := mkEntry js (10 * Minute)]> (cache w)).
Proof.
  unfold cache_probe, store_lookup. unfold_repo.
  destruct w as [ps cs c lg rf df t en dr]; simpl.
  intros Hprobe.
  assert (Hread :
    match (match rf with
           | true :: _ => None
           | _ => match c !! productKey id with
                  | Some e => json_Unmarshal_product (payload e)
                  | None => None
                  end
           end) with Some _ => False | None => True end).
  { destruct rf as [|[] rf]; simpl in *; [rewrite Hprobe| |rewrite Hprobe]; exact I. }
  clear Hprobe.
  destruct rf as [|[] rf]; simpl in *;
    destruct (c !! productKey id) as [e|]; simpl in *;
    try destruct (json_Unmarshal_product (payload e)); try contradiction;
    destruct df as [|[] df]; simpl;
    try (destruct (first_by_pk ID _ ps) as [r|] eqn:Hrow; simpl);
    try (destruct (json_Marshal_product (preload_Category cs r)) as [js|] eqn:Hjs; simpl);
    try destruct rf as [|[] rf]; simpl;
    (split; [reflexivity|]);
    first [ left; reflexivity | right; exists r, js; auto ].
Qed.

End GetByID_facts.

Section GetByID_commands.
Context `{Lib}.

(** The cache commands of one [GetByID]: the read alone, with the cache
    left as it was, or the read and one write of the product the store
    returned. *)
Lemma GetByID_writes (id : UUID) (w : World) :
  (redis_log (snd (GetByID id w)) = (redis_log w ++ [GET (productKey id)])%list
   /\ cache (snd (GetByID id w)) = cache w)
  \/ exists r js,
      first_by_pk ID (fun p => N.eqb (ID p) id) (products w) = Some r
      /\ hd false (db_faults w) = false
      /\ fst (GetByID id w) = Ok (preload_Category (categories w) r)
      /\ json_Marshal_product (preload_Category (categories w) r) = Some js
      /\ redis_log (snd (GetByID id w))
         = (redis_log w ++ [GET (productKey id);
                            SET (productKey id) js (10 * Minute)])%list
      /\ (cache (snd (GetByID id w)) = cache w
          \/ cache (snd (GetByID id w))
             = <[productKey id := mkEntry js (10 * Minute)]> (cache w)).
Proof.
  unfold_repo. destruct w as [ps cs c lg rf df t en dr]; simpl.
  destruct rf as [|[] rf]; simpl;
    try (destruct (c !! productKey id) as [e|]; simpl);
    try (destruct (json_Unmarshal_product (payload e)); simpl);
    try (left; split; reflexivity);
    (destruct df as [|[] df]; simpl;
     try (destruct (first_by_pk ID _ ps) as [r|] eqn:Hrow; simpl);
     try (destruct (json_Marshal_product (preload_Category cs r)) as [js|] eqn:Hjs; simpl);
     try (destruct rf as [|[] rf]; simpl);
     first [ left; split; reflexivity
           | right; exists r, js; rewrite <- ?app_assoc; simpl; auto 10 ]).
Qed.

End GetByID_commands.

Section GetByID_claims.
Context `{Lib}.

(** C4. When [GetByID] finds nothing in the cache and the store has no
    row for the id, it returns the not-found error and the only cache
    command it issues is the read: nothing is written.  In every case it
    either issues the read alone and leaves the cache as it was, or the
    store returned a product and the one write it issues is that product
    under [product:<id>] with an expiry of ten minutes. *)
Theorem GetByID_no_negative_caching (id : UUID) (w : World) :
  (cache w !! productKey id = None ->
   hd false (db_faults w) = false ->
   first_by_pk ID (fun p => N.eqb (ID p) id) (products w) = None ->
   fst (GetByID id w)
   = Err (NewNotFoundError "Product not found" (Some gorm_ErrRecordNotFound))
   /\ cache (snd (GetByID id w)) = cache w
   /\ redis_log (snd (GetByID id w)) = (redis_log w ++ [GET (productKey id)])%list)
  /\ ((redis_log (snd (GetByID id w)) = (redis_log w ++ [GET (productKey id)])%list
       /\ cache (snd (GetByID id w)) = cache w)
      \/ exists r js,
          first_by_pk ID (fun p => N.eqb (ID p) id) (products w) = Some r
          /\ hd false (db_faults w) = false
          /\ fst (GetByID id w) = Ok (preload_Category (categories w) r)
          /\ json_Marshal_product (preload_Category (categories w) r) = Some js
          /\ redis_log (snd (GetByID id w))
             = (redis_log w ++ [GET (productKey id);
                                SET (productKey id) js (10 * Minute)])%list
          /\ (cache (snd (GetByID id w)) = cache w
              \/ cache (snd (GetByID id w))
                 = <[productKey id := mkEntry js (10 * Minute)]> (cache w))).
Proof.
  split; [|apply GetByID_writes].
  intros Hmiss Hdb Hrow. unfold_repo.
  destruct w as [ps cs c lg rf df t en dr]; simpl in *.
  destruct rf as [|[] rf]; simpl; rewrite ?Hmiss; simpl;
    destruct df as [|[] df]; simpl in *; try discriminate;
    rewrite Hrow; simpl; auto.
Qed.

(** C8. When the cache read of [GetByID] fails, or the cached payload
    does not deserialize, [GetByID] returns what the store answers, which
    is what it returns in the world where the key is absent and the
    cache is reachable; the cache error is not returned. *)
Theorem GetByID_cache_failure_is_miss (id : UUID) (w : World) :
  (hd false (redis_faults w) = true
   \/ exists e, cache w !! productKey id = Some e
                /\ json_Unmarshal_product (payload e) = None) ->
  fst (GetByID id w) = store_lookup id w
  /\ fst (GetByID id w)
     = fst (GetByID id (with_redis_io (redis_log w) []
                          (with_cache (delete (productKey id) (cache w)) w))).
Proof.
  intros Hfail.
  assert (Hprobe : cache_probe id w = None).
  { unfold cache_probe. destruct Hfail as [-> | (e & -> & ->)]; [reflexivity|].
    now destruct (hd false (redis_faults w)). }
  destruct (GetByID_fallthrough id w Hprobe) as [-> _].
  split; [reflexivity|].
  set (w' := with_redis_io _ _ _).
  assert (Hprobe' : cache_probe id w' = None).
  { unfold cache_probe, w'. simpl. now rewrite lookup_delete_eq. }
  destruct (GetByID_fallthrough id w' Hprobe') as [-> _].
  reflexivity.
Qed.

End GetByID_claims.

Lemma GetByID_no_negative_caching_witness :
  fst (@GetByID Demo.codec 0xdead%N Demo.warm)
  = Err (NewNotFoundError "Product not found" (Some gorm_ErrRecordNotFound))
  /\ cache (snd (@GetByID Demo.codec 0xdead%N Demo.warm)) = cache Demo.warm
  /\ redis_log (snd (@GetByID Demo.codec 0xdead%N Demo.warm))
     = (redis_log Demo.warm ++ [GET (productKey 0xdead%N)])%list.
Proof.
  apply (proj1 (@GetByID_no_negative_caching Demo.codec 0xdead%N Demo.warm));
    vm_compute; reflexivity.
Defined.

Lemma GetByID_cache_failure_is_miss_witness :
  fst (@GetByID Demo.codec 0xa1%N Demo.cache_down) = store_lookup 0xa1%N Demo.cache_down
  /\ fst (@GetByID Demo.codec 0xa1%N Demo.cache_down)
     = fst (@GetByID Demo.codec 0xa1%N
              (with_redis_io (redis_log Demo.cache_down) []
                 (with_cache (delete (productKey 0xa1%N) (cache Demo.cache_down))
                             Demo.cache_down))).
Proof.
  apply (@GetByID_cache_failure_is_miss Demo.codec 0xa1%N Demo.cache_down).
  left. reflexivity.
Defined.

(** ** Update, then read *)

Lemma first_by_pk_Some {A} (pk : A -> UUID) (f : A -> bool) (rows : list A) (r : A) :
  first_by_pk pk f rows = Some r -> r ∈ rows /\ f r = true.
Proof.
  induction rows as [|x rows IH]; simpl; [discriminate|].
  destruct (f x) eqn:Hx.
  - destruct (first_by_pk pk f rows) as [r'|] eqn:Hrest.
    + destruct (N.leb (pk x) (pk r')); intros [= <-].
      * split; [left | assumption].
      * destruct (IH eq_refl) as [Hin Hf]. split; [now right | assumption].
    + intros [= <-]. split; [left | assumption].
  - intros Hr. destruct (IH Hr) as [Hin Hf]. split; [now right | assumption].
Qed.

Lemma first_by_pk_unique {A} (pk : A -> UUID) (f : A -> bool) (rows : list A) (r : A) :
  (forall x, x ∈ rows -> f x = true -> x = r) ->
  (exists x, x ∈ rows /\ f x = true) ->
  first_by_pk pk f rows = Some r.
Proof.
  intros Hall (x & Hin & Hfx).
  destruct (first_by_pk pk f rows) as [r'|] eqn:Hfirst.
  - apply first_by_pk_Some in Hfirst as [Hin' Hf']. f_equal. now apply Hall.
  - exfalso. clear Hall. induction rows as [|y rows IH]; [inversion Hin|].
    simpl in Hfirst. apply elem_of_cons in Hin as [<- | Hin].
    + rewrite Hfx in Hfirst.
      destruct (first_by_pk pk f rows) as [r'|]; [|discriminate].
      now destruct (N.leb (pk x) (pk r')).
    + destruct (f y); [|now apply IH].
      destruct (first_by_pk pk f rows) as [r'|]; [|discriminate].
      now destruct (N.leb (pk y) (pk r')).
Qed.

Lemma existsb_false_elem {A} (f : A -> bool) (l : list A) (x : A) :
  existsb f l = false -> x ∈ l -> f x = false.
Proof.
  intros He Hin. apply list_elem_of_In in Hin.
  destruct (f x) eqn:Hx; [|reflexivity].
  assert (existsb f l = true) by (apply existsb_exists; eauto). congruence.
Qed.

(** ** What a write leaves in the store *)

Lemma db_exec_frame (w : World) :
  products (snd (db_exec w)) = products w
  /\ categories (snd (db_exec w)) = categories w
  /\ cache (snd (db_exec w)) = cache w
  /\ redis_log (snd (db_exec w)) = redis_log w
  /\ redis_faults (snd (db_exec w)) = redis_faults w
  /\ now (snd (db_exec w)) = now w
  /\ fst (db_exec w) = negb (hd false (db_faults w))
  /\ db_faults (snd (db_exec w)) = tl (db_faults w).
Proof.
  unfold db_exec. destruct w as [ps cs c lg rf df t en dr]; simpl.
  destruct df as [|[] df]; simpl; auto 10.
Qed.

Lemma with_key_frame (id : UUID) (w : World) :
  products (snd (with_key id w)) = products w
  /\ categories (snd (with_key id w)) = categories w
  /\ cache (snd (with_key id w)) = cache w
  /\ redis_log (snd (with_key id w)) = redis_log w
  /\ redis_faults (snd (with_key id w)) = redis_faults w
  /\ db_faults (snd (with_key id w)) = db_faults w
  /\ now (snd (with_key id w)) = now w
  /\ (id <> 0%N -> fst (with_key id w) = id).
Proof.
  unfold with_key. destruct (N.eqb_spec id 0); simpl; auto 10.
  repeat split; auto. intros; contradiction.
Qed.

(** Saving a loaded category touches the categories table only, and
    not even that when the category is one of its rows. *)
Lemma save_belongs_to_frame (c : Category) (w : World) :
  products (snd (save_belongs_to c w)) = products w
  /\ cache (snd (save_belongs_to c w)) = cache w
  /\ redis_log (snd (save_belongs_to c w)) = redis_log w
  /\ redis_faults (snd (save_belongs_to c w)) = redis_faults w
  /\ db_faults (snd (save_belongs_to c w)) = db_faults w
  /\ now (snd (save_belongs_to c w)) = now w
  /\ (cat_ID c <> 0%N -> cat_ID (fst (save_belongs_to c w)) = cat_ID c)
  /\ (c ∈ categories w ->
      fst (save_belongs_to c w) = category_defaults (now w) c
      /\ categories (snd (save_belongs_to c w)) = categories w).
Proof.
  unfold save_belongs_to.
  destruct (with_key_frame (cat_ID c) w) as (Hp & Hcs & Hc & Hl & Hrf & Hdf & Hn & Hid).
  destruct (with_key (cat_ID c) w) as [id w1]; simpl in *.
  destruct (existsb _ (categories w)) eqn:Hex; simpl;
    (do 6 (split; [assumption|])); (split; [first [exact Hid | reflexivity]|]);
    intros Hin.
  - split; [reflexivity | assumption].
  - exfalso.
    pose proof (existsb_false_elem _ _ _ Hex Hin) as Hno. simpl in Hno.
    rewrite String.eqb_refl, orb_true_r in Hno. discriminate.
Qed.

Lemma save_Category_frame (p : Product) (w : World) :
  products (snd (save_Category p w)) = products w
  /\ cache (snd (save_Category p w)) = cache w
  /\ redis_log (snd (save_Category p w)) = redis_log w
  /\ redis_faults (snd (save_Category p w)) = redis_faults w
  /\ db_faults (snd (save_Category p w)) = db_faults w
  /\ now (snd (save_Category p w)) = now w.
Proof.
  unfold save_Category. destruct (Category_ p) as [c|]; [|auto 10].
  destruct (save_belongs_to_frame c w) as (Hp & Hc & Hl & Hrf & Hdf & Hn & _).
  destruct (save_belongs_to c w) as [c' w1]; simpl in *. auto 10.
Qed.

(** The columns and the foreign key of the product after its loaded
    category was saved. *)
Lemma save_Category_fields (p : Product) (w : World) :
  row (fst (save_Category p w))
  = row (mkProduct (ID p) (Name p) (Description p) (Price p)
           (CategoryID (fst (save_Category p w))) None
           (Stock p) (ImageURL p) (SKU p) (IsActive p) (CreatedAt p) (UpdatedAt p))
  /\ match Category_ p with
     | None => save_Category p w = (p, w)
     | Some c =>
         (cat_ID c <> 0%N -> CategoryID (fst (save_Category p w)) = cat_ID c)
         /\ (c ∈ categories w ->
             fst (save_Category p w)
             = mkProduct (ID p) (Name p) (Description p) (Price p) (cat_ID c)
                 (Some (category_defaults (now w) c))
                 (Stock p) (ImageURL p) (SKU p) (IsActive p) (CreatedAt p) (UpdatedAt p)
             /\ categories (snd (save_Category p w)) = categories w)
     end.
Proof.
  unfold save_Category. destruct (Category_ p) as [c|] eqn:Hc.
  - destruct (save_belongs_to_frame c w) as (_ & _ & _ & _ & _ & _ & Hid & Hin).
    destruct (save_belongs_to c w) as [c' w1]; simpl in *.
    split; [reflexivity|]. split; [exact Hid|].
    intros Hc'. destruct (Hin Hc') as [-> ->]. split; reflexivity.
  - split; [|reflexivity]. destruct p; simpl in *. subst. reflexivity.
Qed.

Lemma first_by_pk_appended {A} (pk : A -> UUID) (rows : list A) (r : A) :
  (forall x, x ∈ rows -> pk x <> pk r) ->
  first_by_pk pk (fun x => N.eqb (pk x) (pk r)) (rows ++ [r]) = Some r.
Proof.
  intros Hfresh. apply first_by_pk_unique.
  - intros x Hin Hx. apply N.eqb_eq in Hx.
    apply elem_of_app in Hin as [Hin | Hin].
    + exfalso. now apply (Hfresh x Hin).
    + now apply list_elem_of_singleton in Hin.
  - exists r. split; [apply elem_of_app; right; now left | apply N.eqb_refl].
Qed.

Lemma first_by_pk_replaced {A} (pk : A -> UUID) (rows : list A) (r : A) :
  (exists x, x ∈ rows /\ pk x = pk r) ->
  first_by_pk pk (fun x => N.eqb (pk x) (pk r))
    (map (fun x => if N.eqb (pk x) (pk r) then r else x) rows) = Some r.
Proof.
  intros (y & Hy & Hyr). apply first_by_pk_unique.
  - intros x Hin Hx. apply list_elem_of_fmap in Hin as (z & -> & Hz).
    destruct (N.eqb (pk z) (pk r)) eqn:Hzr; [reflexivity | congruence].
  - exists r. split; [|apply N.eqb_refl].
    apply list_elem_of_fmap. exists y. split; [|exact Hy].
    apply N.eqb_eq in Hyr. now rewrite Hyr.
Qed.

(** What [Create] wrote, and where: the struct that comes back is the
    row a lookup by its id finds. *)
Lemma db_Create_written (p pc : Product) (w w' : World) :
  db_Create p w = ((pc, None), w') ->
  first_by_pk ID (fun r => N.eqb (ID r) (ID pc)) (products w') = Some (row pc)
  /\ (forall r, r ∈ products w -> ID r <> ID pc /\ SKU r <> SKU p)
  /\ products w' = (products w ++ [row pc])%list
  /\ cache w' = cache w /\ redis_log w' = redis_log w
  /\ redis_faults w' = redis_faults w /\ now w' = now w
  /\ db_faults w' = tl (db_faults w)
  /\ pc = set_ID (ID pc) (product_defaults (now w) (fst (save_Category p (snd (db_exec w)))))
  /\ (ID p <> 0%N -> ID pc = ID p)
  /\ categories w' = categories (snd (save_Category p (snd (db_exec w)))).
Proof.
  unfold db_Create, bind, ret.
  destruct (db_exec_frame w) as (Hp0 & Hcs0 & Hc0 & Hl0 & Hrf0 & Hn0 & _ & Hdf0).
  destruct (db_exec w) as [[] w0]; simpl in *; [|discriminate].
  destruct (save_Category_frame p w0) as (Hp1 & Hc1 & Hl1 & Hrf1 & Hdf1 & Hn1).
  destruct (save_Category p w0) as [p1 w1] eqn:Hsave; simpl in *.
  destruct (with_key_frame (ID p) w1) as (Hp2 & Hcs2 & Hc2 & Hl2 & Hrf2 & Hdf2 & Hn2 & Hid).
  destruct (with_key (ID p) w1) as [id w2]; simpl in *.
  destruct (existsb _ (products w0)) eqn:Hex; [discriminate|].
  intros [= <- <-]. simpl.
  assert (Hfresh : forall r, r ∈ products w -> ID r <> id /\ SKU r <> SKU p).
  { intros r Hin. rewrite <- Hp0 in Hin.
    pose proof (existsb_false_elem _ _ _ Hex Hin) as Hno. simpl in Hno.
    apply orb_false_iff in Hno as [Hi Hs].
    split; [now apply N.eqb_neq | now apply String.eqb_neq]. }
  rewrite ?Hp0, ?Hn0.
  split.
  { apply (first_by_pk_appended ID (products w)
             (row (set_ID id (product_defaults (now w) p1)))).
    intros x Hin. simpl. now apply Hfresh. }
  split; [exact Hfresh|].
  repeat split; try congruence. exact Hid.
Qed.

(** What [Save] wrote for a product that has a primary key. *)
Lemma db_Save_written (p pu : Product) (w w' : World) :
  ID p <> 0%N ->
  db_Save p w = ((pu, None), w') ->
  first_by_pk ID (fun r => N.eqb (ID r) (ID p)) (products w') = Some (row pu)
  /\ ID pu = ID p
  /\ cache w' = cache w /\ redis_log w' = redis_log w
  /\ redis_faults w' = redis_faults w /\ now w' = now w
  /\ db_faults w' = tl (db_faults w)
  /\ pu = (let p1 := fst (save_Category p (snd (db_exec w))) in
           let p' := set_times (CreatedAt p1) (now w) p1 in
           if existsb (fun r => N.eqb (ID r) (ID p)) (products w) then p'
           else product_defaults (now w) p')
  /\ categories w' = categories (snd (save_Category p (snd (db_exec w)))).
Proof.
  intros Hid. unfold db_Save.
  destruct (N.eqb (ID p) 0) eqn:Hz; [apply N.eqb_eq in Hz; contradiction|].
  unfold bind, ret.
  destruct (db_exec_frame w) as (Hp0 & Hcs0 & Hc0 & Hl0 & Hrf0 & Hn0 & _ & Hdf0).
  destruct (db_exec w) as [[] w0]; simpl in *; [|discriminate].
  destruct (save_Category_frame p w0) as (Hp1 & Hc1 & Hl1 & Hrf1 & Hdf1 & Hn1).
  destruct (save_Category_fields p w0) as [Hrow _].
  destruct (save_Category p w0) as [p1 w1] eqn:Hsave; simpl in *.
  assert (Hid1 : ID p1 = ID p).
  { apply (f_equal ID) in Hrow. exact Hrow. }
  destruct (existsb _ (products w0)) eqn:Hsku; [discriminate|].
  rewrite <- Hp0.
  destruct (existsb (fun r => N.eqb (ID r) (ID p)) (products w0)) eqn:Hex;
    intros [= <- <-]; simpl; rewrite Hn0.
  - split.
    { rewrite <- Hid1.
      apply (first_by_pk_replaced ID (products w0)
               (row (set_times (CreatedAt p1) (now w) p1))).
      apply existsb_exists in Hex as (y & Hy & Hyp).
      exists y. split; [now apply list_elem_of_In|].
      apply N.eqb_eq in Hyp. simpl. congruence. }
    repeat split; try congruence.
  - split.
    { rewrite <- Hid1.
      apply (first_by_pk_appended ID (products w0)
               (row (product_defaults (now w) (set_times (CreatedAt p1) (now w) p1)))).
      intros x Hin. simpl.
      pose proof (existsb_false_elem _ _ _ Hex Hin) as Hno. simpl in Hno.
      apply N.eqb_neq in Hno. congruence. }
    repeat split; try congruence.
Qed.

(** [Create] of a product as the service builds it: no category
    attached, active. *)
Lemma db_Create_plain (p pc : Product) (w w' : World) :
  Category_ p = None ->
  IsActive p = true ->
  db_Create p w = ((pc, None), w') ->
  first_by_pk ID (fun r => N.eqb (ID r) (ID pc)) (products w') = Some (row pc)
  /\ (forall r, r ∈ products w -> ID r <> ID pc /\ SKU r <> SKU p)
  /\ (ID p <> 0%N -> ID pc = ID p)
  /\ pc = set_times (zero_or (CreatedAt p) (now w)) (zero_or (UpdatedAt p) (now w))
                    (set_ID (ID pc) p)
  /\ products w' = (products w ++ [row pc])%list
  /\ categories w' = categories w /\ cache w' = cache w
  /\ redis_log w' = redis_log w /\ redis_faults w' = redis_faults w
  /\ db_faults w' = tl (db_faults w).
Proof.
  intros Hcat Hact Hc.
  destruct (db_Create_written _ _ _ _ Hc)
    as (Hrow & Hfresh & Hps & Hcache & Hlog & Hrf & _ & Hdf & Hpc & Hid & Hcs).
  assert (Hsave : save_Category p (snd (db_exec w)) = (p, snd (db_exec w))).
  { unfold save_Category. now rewrite Hcat. }
  rewrite Hsave in Hpc, Hcs. simpl in Hpc, Hcs.
  destruct (db_exec_frame w) as (_ & Hcs0 & _).
  do 3 (split; [assumption|]).
  split.
  { rewrite Hpc at 1. destruct p; simpl in *. subst. reflexivity. }
  split; [assumption|]. split; [congruence|]. auto.
Qed.


Section Update_then_read.
Context `{Lib}.




End Update_then_read.



(** ** Listing and searching *)

Section Listing.
Context `{Lib}.

(** Without a cache key, [List] issues no cache command. *)
Lemma List_uncached (filters : ProductFilters) (w : World) :
  buildCacheKey filters = "" ->
  cache (snd (List_ filters w)) = cache w
  /\ redis_log (snd (List_ filters w)) = redis_log w
  /\ redis_faults (snd (List_ filters w)) = redis_faults w.
Proof.
  intros Hkey. unfold List_. rewrite Hkey. simpl.
  unfold db_Count, db_Find, db_exec, bind, ret.
  destruct w as [ps cs c lg rf df t en dr]; simpl.
  repeat (case_match; simpl; simplify_eq/=); auto.
Qed.

(** With a cache key, [List] goes through the cache: the key is read
    first, an entry that deserializes is the answer, and an answer
    computed from the store is written under the key. *)
Lemma List_cached (filters : ProductFilters) (w : World) :
  let key := buildCacheKey filters in
  key <> "" ->
  (exists rest, redis_log (snd (List_ filters w)) = (redis_log w ++ GET key :: rest)%list)
  /\ (forall e page total,
        hd false (redis_faults w) = false ->
        cache w !! key = Some e ->
        json_Unmarshal_list (payload e) = Some (page, total) ->
        List_ filters w
        = (Ok (page, total),
           with_redis_io (redis_log w ++ [GET key]) (tl (redis_faults w)) w))
  /\ (forall page total js,
        redis_faults w = [] ->
        cache w !! key = None ->
        fst (List_ filters w) = Ok (page, total) ->
        json_Marshal_list (page, total) = Some js ->
        cache (snd (List_ filters w)) !! key = Some (mkEntry js (5 * Minute))).
Proof.
  intros key Hk. apply str_empty_false in Hk.
  unfold List_. fold key. rewrite Hk. simpl negb. cbv iota.
  unfold db_Count, db_Find, db_exec, redis_Get, redis_Set, redis_send, bind, ret.
  destruct w as [ps cs c lg rf df t en dr]; simpl.
  split; [|split].
  - destruct rf as [|[] rf]; simpl;
      repeat match goal with
             | |- context [match ?o with Some _ => _ | None => _ end] =>
                 let E := fresh "E" in destruct o eqn:E; simpl
             | |- context [match ?l with [] => _ | _ :: _ => _ end] =>
                 destruct l as [|[] ?]; simpl
             | |- context [let (_, _) := ?x in _] => destruct x; simpl
             end;
      rewrite <- ?app_assoc; simpl; eauto.
  - intros e page total Hup Hc Hdec.
    destruct rf as [|[] rf]; simpl in *; try discriminate;
      rewrite Hc; simpl; rewrite Hdec; reflexivity.
  - intros page total js -> Hc. simpl. rewrite Hc. simpl.
    repeat match goal with
           | |- context [match ?o with Some _ => _ | None => _ end] =>
               let E := fresh "E" in destruct o eqn:E; simpl
           | |- context [match ?l with [] => _ | _ :: _ => _ end] =>
               destruct l as [|[] ?]; simpl
           | |- context [let (_, _) := ?x in _] => destruct x; simpl
           end;
      intros; simplify_eq/=; try apply lookup_insert_eq; try congruence.
Qed.


Ltac defaults :=
  unfold with_defaults;
  repeat (case_match;
          cbn [f_CategoryID f_MinPrice f_MaxPrice f_Search f_IsActive f_InStock
               f_Limit f_Offset f_SortBy f_SortOrder
               set_Limit set_SortBy set_SortOrder] in *);
  try reflexivity; try congruence; try discriminate.

Lemma with_defaults_Search (filters : ProductFilters) :
  f_Search (with_defaults filters) = f_Search filters.
Proof. defaults. Qed.

(** C5 (as amended). For a non-empty term, [SearchProducts] is
    [ListProducts] on the filters with the term as their search field,
    and the call issues no cache command: the cache is neither read nor
    written.  For the empty term it is [ListProducts] on the filters as
    given, their own search field kept; a filter set without search term
    and price bound then goes through the cache: the key of the filters
    with the defaults written in is read first, an entry under it that
    deserializes is the answer, and an answer computed from the store is
    written under the key when the cache takes the commands. *)
Theorem SearchProducts_not_cached (term : string) (filters : ProductFilters) (w : World) :
  (term <> "" ->
   SearchProducts term filters w = ListProducts (set_Search term filters) w
   /\ redis_log (snd (SearchProducts term filters w)) = redis_log w
   /\ cache (snd (SearchProducts term filters w)) = cache w
   /\ redis_faults (snd (SearchProducts term filters w)) = redis_faults w)
  /\ SearchProducts "" filters w = ListProducts filters w
  /\ (f_Search filters = "" -> f_MinPrice filters = None -> f_MaxPrice filters = None ->
      let n := with_defaults filters in
      let key := buildCacheKey n in
      key <> ""
      /\ (exists rest,
            redis_log (snd (SearchProducts "" filters w))
            = (redis_log w ++ GET key :: rest)%list)
      /\ (forall e page total,
            hd false (redis_faults w) = false ->
            cache w !! key = Some e ->
            json_Unmarshal_list (payload e) = Some (page, total) ->
            fst (SearchProducts "" filters w)
            = Ok (mkProductList page total (f_Limit n) (f_Offset filters)
                    (Z.ltb (wrap64 (f_Offset filters + f_Limit n)) total)))
      /\ (forall l js,
            redis_faults w = [] ->
            cache w !! key = None ->
            fst (SearchProducts "" filters w) = Ok l ->
            json_Marshal_list (pl_Products l, pl_Total l) = Some js ->
            cache (snd (SearchProducts "" filters w)) !! key
            = Some (mkEntry js (5 * Minute)))).
Proof.
  split; [|split; [reflexivity|]].
  - intros Hterm. unfold SearchProducts.
    destruct (str_empty term) eqn:He; [apply str_empty_spec in He; contradiction|].
    split; [reflexivity|].
    assert (Hkey : buildCacheKey (with_defaults (set_Search term filters)) = "").
    { apply buildCacheKey_empty_iff. left. now rewrite with_defaults_Search. }
    destruct (List_uncached _ w Hkey) as (Hc & Hl & Hf).
    unfold ListProducts, bind, ret.
    destruct (List_ (with_defaults (set_Search term filters)) w) as [[[ps total]|e] w'];
      simpl in *; auto.
  - intros Hs Hmin Hmax n key.
    assert (Hoff : f_Offset n = f_Offset filters) by (subst n; defaults).
    assert (Hk : key <> "").
    { intros Hk. apply buildCacheKey_empty_iff in Hk. subst n.
      rewrite with_defaults_Search in Hk.
      assert (Hmin' : f_MinPrice (with_defaults filters) = f_MinPrice filters) by defaults.
      assert (Hmax' : f_MaxPrice (with_defaults filters) = f_MaxPrice filters) by defaults.
      rewrite Hmin', Hmax' in Hk. destruct Hk as [Hk|[Hk|Hk]]; congruence. }
    destruct (List_cached n w Hk) as (Hfirst & Hhit & Hwrite). fold key in Hfirst, Hhit, Hwrite.
    split; [exact Hk|].
    change (SearchProducts "" filters w) with (ListProducts filters w).
    unfold ListProducts, bind, ret. fold n. rewrite Hoff.
    split; [|split].
    + destruct Hfirst as [rest Hrest]. exists rest.
      destruct (List_ n w) as [[[ps total]|e] w']; exact Hrest.
    + intros e page total Hup Hc Hdec. rewrite (Hhit e page total Hup Hc Hdec). reflexivity.
    + intros l js Hrf Hc.
      specialize (fun page total => Hwrite page total js Hrf Hc).
      destruct (List_ n w) as [[[ps total]|e] w']; simpl in *; [|discriminate].
      intros [= <-]. simpl. now apply Hwrite.
Qed.

Lemma sorted_page_order (filters : ProductFilters) (q : Query) :
  q_order (sorted_page filters q)
  = Some (f_SortBy filters +:+ " " +:+ strings_ToUpper (f_SortOrder filters)).
Proof.
  unfold sorted_page.
  destruct (Z.ltb 0 (f_Offset filters)), (Z.ltb 0 (f_Limit filters)); reflexivity.
Qed.

Lemma sorted_page_selected (filters : ProductFilters) (q : Query) (rows : list Product) :
  selected (sorted_page filters q) rows = selected q rows.
Proof.
  unfold sorted_page, selected.
  destruct (Z.ltb 0 (f_Offset filters)), (Z.ltb 0 (f_Limit filters)); reflexivity.
Qed.

Lemma db_Count_spec (q : Query) (w : World) :
  products (snd (db_Count q w)) = products w
  /\ categories (snd (db_Count q w)) = categories w
  /\ forall total, fst (db_Count q w) = Ok total ->
       total = Z.of_nat (length (selected q (products w))).
Proof.
  unfold db_Count, db_exec, bind, ret. destruct w as [ps cs c lg rf df t en dr]; simpl.
  destruct df as [|[] df]; simpl; repeat split; auto; intros; simplify_eq/=; auto.
Qed.

Lemma db_Find_spec (q : Query) (w : World) (found : list Product) :
  fst (db_Find q w) = Ok found ->
  exists sorted,
    match q_order q with
    | Some clause => sql_ORDER_BY clause (selected q (products w))
    | None => Some (selected q (products w))
    end = Some sorted
    /\ found = map (preload_Category (categories w)) (paginate q sorted).
Proof.
  unfold db_Find, db_exec, bind, ret. destruct w as [ps cs c lg rf df t en dr]; simpl.
  destruct df as [|[] df]; simpl; try discriminate;
    (destruct (match q_order q with
               | Some clause => sql_ORDER_BY clause (selected q ps)
               | None => Some (selected q ps)
               end) as [sorted|]; simpl; [|discriminate]);
    intros [= <-]; eauto.
Qed.

(** When the cache delivers nothing, the listing is computed from the
    store: the rows the filters select, in the order of the clause, cut
    to the page. *)
Lemma List_from_store (filters : ProductFilters) (w w' : World)
    (page : list Product) (total : Z) :
  list_probe filters w = None ->
  List_ filters w = (Ok (page, total), w') ->
  exists sorted,
    sql_ORDER_BY (f_SortBy filters +:+ " " +:+ strings_ToUpper (f_SortOrder filters))
                 (selected (filtered filters) (products w)) = Some sorted
    /\ page = map (preload_Category (categories w))
                  (paginate (sorted_page filters (filtered filters)) sorted)
    /\ total = Z.of_nat (length (selected (filtered filters) (products w))).
Proof.
  intros Hprobe. unfold List_. unfold bind at 1.
  match goal with
  | |- (let (a, w'0) := ?m w in _) = _ -> _ =>
      assert (Hmiss : fst (m w) = None
                      /\ products (snd (m w)) = products w
                      /\ categories (snd (m w)) = categories w);
      [|destruct (m w) as [hit w1]; simpl in Hmiss; destruct Hmiss as (-> & Hps1 & Hcs1)]
  end.
  { revert Hprobe. unfold list_probe, redis_Get, redis_send, bind, ret.
    destruct w as [ps cs c lg rf df t en dr]; simpl.
    destruct (str_empty (buildCacheKey filters)); simpl; [auto|].
    destruct rf as [|[] rf]; simpl; auto;
      destruct (c !! buildCacheKey filters); simpl; auto. }
  unfold bind at 1.
  destruct (db_Count_spec (filtered filters) w1) as (Hps2 & Hcs2 & Hcount).
  destruct (db_Count (filtered filters) w1) as [[n|e] w2]; simpl in *;
    [|unfold ret; discriminate].
  specialize (Hcount n eq_refl).
  unfold bind at 1.
  pose proof (db_Find_spec (sorted_page filters (filtered filters)) w2) as Hfind.
  destruct (db_Find (sorted_page filters (filtered filters)) w2) as [[found|e] w3];
    simpl in *; [|unfold ret; discriminate].
  destruct (Hfind found eq_refl) as (sorted & Hsorted & ->).
  rewrite sorted_page_order, sorted_page_selected in Hsorted.
  unfold bind, ret.
  match goal with
  | |- (let (_, w'0) := ?m w3 in _) = _ -> _ => destruct (m w3) as [u w4]
  end.
  intros [= <- <- <-]. exists sorted.
  rewrite Hps2, Hps1 in Hsorted. rewrite Hps1 in Hcount. rewrite Hcs2, Hcs1. auto.
Qed.

Lemma filtered_with_defaults (filters : ProductFilters) :
  filtered (with_defaults filters) = filtered filters.
Proof.
  unfold with_defaults.
  repeat (case_match;
          cbn [f_CategoryID f_MinPrice f_MaxPrice f_Search f_IsActive f_InStock
               f_Limit f_Offset f_SortBy f_SortOrder
               set_Limit set_SortBy set_SortOrder] in *);
  reflexivity.
Qed.

(** The query that [List] counts has neither order nor page. *)
Lemma filtered_plain (filters : ProductFilters) :
  q_order (filtered filters) = None
  /\ q_offset (filtered filters) = None
  /\ q_limit (filtered filters) = None.
Proof.
  unfold filtered.
  destruct (f_CategoryID filters), (f_MinPrice filters), (f_MaxPrice filters),
    (negb (str_empty (f_Search filters))), (f_IsActive filters),
    (f_InStock filters) as [[]|]; simpl; auto.
Qed.

(** C6 (as amended). [ListProducts] works on the filters with the
    defaults written in: a limit of zero or less becomes 20, a limit
    above 100 becomes 100, an empty sort field becomes [created_at], an
    empty sort direction becomes [desc], and nothing else changes.  The
    list that comes back reports the normalized limit and the offset as
    given.  When the cache delivers nothing the list is computed by the
    query: the rows the filters select, in the order of the sort clause,
    without the first [offset] of them when the offset is positive, cut
    to the normalized limit; the total is the number of selected rows.
    That query has [LIMIT] the normalized limit, and [OFFSET] the given
    offset only when it is positive: a zero or negative offset puts no
    OFFSET clause into the query, which then starts at the first row. *)
Theorem ListProducts_defaults (filters : ProductFilters) (w : World) :
  let n := with_defaults filters in
  f_Limit n = (if Z.leb (f_Limit filters) 0 then 20
               else if Z.ltb 100 (f_Limit filters) then 100
               else f_Limit filters)
  /\ 0 < f_Limit n <= 100
  /\ f_SortBy n = (if str_empty (f_SortBy filters) then "created_at"
                   else f_SortBy filters)
  /\ f_SortOrder n = (if str_empty (f_SortOrder filters) then "desc"
                      else f_SortOrder filters)
  /\ f_Offset n = f_Offset filters
  /\ (f_CategoryID n, f_MinPrice n, f_MaxPrice n, f_Search n, f_IsActive n, f_InStock n)
     = (f_CategoryID filters, f_MinPrice filters, f_MaxPrice filters,
        f_Search filters, f_IsActive filters, f_InStock filters)
  /\ (forall l w',
        ListProducts filters w = (Ok l, w') ->
        pl_Limit l = f_Limit n
        /\ pl_Offset l = f_Offset filters
        /\ (list_probe n w = None ->
            exists sorted,
              sql_ORDER_BY (f_SortBy n +:+ " " +:+ strings_ToUpper (f_SortOrder n))
                           (selected (filtered filters) (products w)) = Some sorted
              /\ pl_Products l
                 = map (preload_Category (categories w))
                       (take (Z.to_nat (f_Limit n))
                             (drop (Z.to_nat (f_Offset filters)) sorted))
              /\ pl_Total l
                 = Z.of_nat (length (selected (filtered filters) (products w)))))
  /\ q_limit (sorted_page n (filtered n)) = Some (f_Limit n)
  /\ q_offset (sorted_page n (filtered n))
     = (if Z.ltb 0 (f_Offset filters) then Some (f_Offset filters) else None).
Proof.
  intros n.
  assert (Hlim : f_Limit n = (if Z.leb (f_Limit filters) 0 then 20
                              else if Z.ltb 100 (f_Limit filters) then 100
                              else f_Limit filters)) by (subst n; defaults).
  assert (Hoff : f_Offset n = f_Offset filters) by (subst n; defaults).
  assert (Hrange : 0 < f_Limit n <= 100).
  { rewrite Hlim.
    destruct (Z.leb_spec (f_Limit filters) 0); [lia|].
    destruct (Z.ltb_spec 100 (f_Limit filters)); lia. }
  destruct (filtered_plain n) as (_ & Hqo & Hql).
  assert (Hqlimit : q_limit (sorted_page n (filtered n)) = Some (f_Limit n)).
  { unfold sorted_page.
    destruct (Z.ltb_spec 0 (f_Limit n)); [|lia].
    destruct (Z.ltb 0 (f_Offset n)); reflexivity. }
  assert (Hqoffset : q_offset (sorted_page n (filtered n))
                     = (if Z.ltb 0 (f_Offset filters) then Some (f_Offset filters)
                        else None)).
  { unfold sorted_page. rewrite Hoff.
    destruct (Z.ltb 0 (f_Limit n)), (Z.ltb 0 (f_Offset filters)); simpl;
      first [reflexivity | exact Hqo]. }
  split; [exact Hlim|]. split; [exact Hrange|].
  split; [subst n; defaults|].
  split; [subst n; defaults|].
  split; [exact Hoff|].
  split; [subst n; defaults|].
  split; [|split; assumption].
  intros l w'. unfold ListProducts, bind, ret. fold n. rewrite Hoff.
  destruct (List_ n w) as [[[ps total]|e] w1] eqn:Hrun; [|discriminate].
  intros [= <- <-]. simpl.
  do 2 (split; [reflexivity|]).
  intros Hprobe.
  destruct (List_from_store n w w1 ps total Hprobe Hrun) as (sorted & Hsorted & -> & ->).
  assert (Hflt : filtered n = filtered filters) by apply filtered_with_defaults.
  exists sorted. split; [now rewrite <- Hflt|]. split; [|now rewrite Hflt].
  f_equal. unfold paginate. rewrite Hqlimit, Hqoffset.
  destruct (Z.ltb_spec 0 (f_Offset filters)) as [Hpos|Hneg]; [reflexivity|].
  replace (Z.to_nat (f_Offset filters)) with 0%nat by lia. reflexivity.
Qed.

End Listing.

Lemma SearchProducts_not_cached_witness :
  @SearchProducts Demo.codec "wireless" Demo.page1 Demo.warm
  = @ListProducts Demo.codec (set_Search "wireless" Demo.page1) Demo.warm
  /\ redis_log (snd (@SearchProducts Demo.codec "wireless" Demo.page1 Demo.warm))
     = redis_log Demo.warm
  /\ cache (snd (@SearchProducts Demo.codec "wireless" Demo.page1 Demo.warm))
     = cache Demo.warm
  /\ redis_faults (snd (@SearchProducts Demo.codec "wireless" Demo.page1 Demo.warm))
     = redis_faults Demo.warm.
Proof.
  apply (proj1 (@SearchProducts_not_cached Demo.codec "wireless" Demo.page1 Demo.warm)).
  vm_compute. discriminate.
Defined.

(** C5, as stated, fails for the empty term: [SearchProducts] then lists
    with the filters as given.  On an empty cache it reads the list key
    and writes the result under it; its answer comes from that entry
    afterwards (two products although the store has three); and when the
    filters carry a search of their own, it is kept rather than replaced
    by the empty term. *)
Lemma empty_term_is_cached :
  cache Demo.world0 !! Demo.page1_key = None
  /\ cache (snd (@SearchProducts Demo.codec "" Demo.page1 Demo.world0)) !! Demo.page1_key
     <> None
  /\ length (redis_log (snd (@SearchProducts Demo.codec "" Demo.page1 Demo.world0)))
     = 2%nat
  /\ length (products (snd (@CreateProduct Demo.codec Demo.earbuds Demo.warm))) = 3%nat
  /\ total_of (fst (@SearchProducts Demo.codec "" Demo.page1
                      (snd (@CreateProduct Demo.codec Demo.earbuds Demo.warm))))
     = Some 2
  /\ names_of (fst (@SearchProducts Demo.codec "" Demo.wireless Demo.world0))
     = ["Wireless headphones"]
  /\ names_of (fst (@ListProducts Demo.codec (set_Search "" Demo.wireless) Demo.world0))
     = ["Speaker"; "Wireless headphones"].
Proof.
  vm_compute. repeat split; discriminate.
Qed.

Lemma ListProducts_defaults_witness :
  exists l w',
    @ListProducts Demo.codec Demo.page1 Demo.world0 = (Ok l, w')
    /\ pl_Limit l = 20 /\ pl_Offset l = 0
    /\ map Name (pl_Products l) = ["Speaker"; "Wireless headphones"]
    /\ pl_Total l = 2.
Proof.
  eexists _, _. split; [vm_compute; reflexivity|].
  match goal with
  | |- pl_Limit ?l = _ /\ _ =>
      destruct (proj1 (proj2 (proj2 (proj2 (proj2 (proj2 (proj2
                 (@ListProducts_defaults Demo.codec Demo.page1 Demo.world0)))))))
                 l _ eq_refl) as (Hl & Ho & Hpage)
  end.
  destruct (Hpage eq_refl) as (sorted & Hsorted & Hps & Htotal).
  split; [exact Hl|]. split; [exact Ho|].
  vm_compute in Hsorted. injection Hsorted as <-.
  split; [rewrite Hps | rewrite Htotal]; vm_compute; reflexivity.
Defined.

(** C6, as stated, fails for an offset that is not positive: asked for
    one product from offset -1, [ListProducts] runs a query without
    OFFSET and answers with the first product, as for offset 0, while the
    list reports the offset -1. *)
Lemma negative_offset_is_not_applied :
  q_offset (@sorted_page Demo.codec (with_defaults Fixture.negative_offset)
              (@filtered Demo.codec (with_defaults Fixture.negative_offset))) = None
  /\ offset_of (fst (@ListProducts Demo.codec Fixture.negative_offset Demo.world0))
     = Some (-1)
  /\ names_of (fst (@ListProducts Demo.codec Fixture.negative_offset Demo.world0))
     = ["Speaker"]
  /\ names_of (fst (@ListProducts Demo.codec
                      (Handler.set_Offset 0 Fixture.negative_offset) Demo.world0))
     = ["Speaker"].
Proof.
  vm_compute. repeat split.
Qed.

(** ** The invalidation sweep *)

(** *** Key patterns *)

Lemma wildcard_many_any (many one : ascii) (s : list ascii) :
  wildcard_match many one [many] s = true.
Proof.
  simpl. rewrite Ascii.eqb_refl.
  induction s as [|c s IH]; simpl; [reflexivity | exact IH].
Qed.

Lemma wildcard_literal_prefix (many one : ascii) (lit s : list ascii) :
  Forall (fun c => c <> many /\ c <> one) lit ->
  wildcard_match many one (lit ++ [many]) s = true <-> exists t, s = (lit ++ t)%list.
Proof.
  intros Hlit. revert s. induction Hlit as [|c lit [Hm Ho] Hlit IH]; intros s.
  - simpl app. rewrite wildcard_many_any. split; [eauto | reflexivity].
  - change ((c :: lit) ++ [many])%list with (c :: (lit ++ [many]))%list.
    cbn [wildcard_match].
    apply Ascii.eqb_neq in Hm, Ho. rewrite Hm, Ho.
    destruct s as [|d s].
    + split; [discriminate | intros [t Ht]; discriminate].
    + rewrite andb_true_iff, Ascii.eqb_eq, IH. split.
      * intros [-> [t ->]]. now exists t.
      * intros [t [= -> ->]]. eauto.
Qed.

Lemma list_ascii_app (s t : string) :
  list_ascii_of_string (s +:+ t) = (list_ascii_of_string s ++ list_ascii_of_string t)%list.
Proof. induction s as [|c s IH]; [reflexivity|]. rewrite append_cons. simpl. now rewrite IH. Qed.

Lemma matches_literal_prefix (lit k : string) :
  Forall (fun c => c <> "*"%char /\ c <> "?"%char) (list_ascii_of_string lit) ->
  matches (lit +:+ "*") k = true <-> exists t, k = lit +:+ t.
Proof.
  intros Hlit. unfold matches. rewrite list_ascii_app.
  change (list_ascii_of_string "*") with ["*"%char].
  rewrite (wildcard_literal_prefix _ _ _ _ Hlit).
  split; intros [t Ht].
  - exists (string_of_list_ascii t).
    rewrite <- (string_of_list_ascii_of_string k), Ht.
    rewrite <- (list_ascii_of_string_of_list_ascii t) at 1.
    rewrite <- list_ascii_app. now rewrite string_of_list_ascii_of_string.
  - exists (list_ascii_of_string t). now rewrite Ht, list_ascii_app.
Qed.

Lemma entity_key_not_list_key (k : string) :
  matches "product:*" k = true -> matches "products:*" k = false.
Proof.
  intros Hk.
  apply (matches_literal_prefix "product:" k) in Hk as [t ->];
    [|repeat constructor; discriminate].
  destruct (matches "products:*" ("product:" +:+ t)) eqn:Hl; [|reflexivity].
  apply (matches_literal_prefix "products:" _) in Hl as [t' Ht'];
    [|repeat constructor; discriminate].
  discriminate Ht'.
Qed.

Lemma productKey_matches (id : UUID) : matches "product:*" (productKey id) = true.
Proof.
  apply (matches_literal_prefix "product:"); [repeat constructor; discriminate|].
  now exists (uuid_String id).
Qed.

Lemma buildCacheKey_matches (f : ProductFilters) :
  buildCacheKey f <> "" -> matches "products:*" (buildCacheKey f) = true.
Proof.
  intros Hkey.
  apply (matches_literal_prefix "products:"); [repeat constructor; discriminate|].
  rewrite buildCacheKey_refines in *.
  destruct (KeyForFilterSet f) as [k|] eqn:Hk; [|contradiction].
  unfold KeyForFilterSet in Hk. destruct (_ || _); [discriminate|].
  injection Hk as <-. eexists. reflexivity.
Qed.

Lemma foldr_delete_notin (c : gmap string Entry) (keys : list string) (k : string) :
  k ∉ keys -> foldr delete c keys !! k = c !! k.
Proof.
  induction keys as [|k0 keys IH]; simpl; [reflexivity|].
  intros Hk. apply not_elem_of_cons in Hk as [Hne Hk].
  rewrite lookup_delete_ne by congruence. now apply IH.
Qed.

Lemma foldr_delete_in (c : gmap string Entry) (keys : list string) (k : string) :
  k ∈ keys -> foldr delete c keys !! k = None.
Proof.
  induction keys as [|k0 keys IH]; simpl; [intros Hk; inversion Hk|].
  intros Hk. destruct (decide (k0 = k)) as [->|Hne].
  - apply lookup_delete_eq.
  - rewrite lookup_delete_ne by assumption. apply IH.
    apply elem_of_cons in Hk as [->|Hk]; [contradiction | assumption].
Qed.

Lemma keys_matching (pattern : string) (c : gmap string Entry) (k : string) :
  k ∈ filter (fun k => matches pattern k = true) (map fst (map_to_list c))
  <-> c !! k <> None /\ matches pattern k = true.
Proof.
  rewrite list_elem_of_filter. split.
  - intros [Hm Hin]. split; [|assumption].
    apply list_elem_of_fmap in Hin as ([k' e] & -> & Hin).
    apply elem_of_map_to_list in Hin. simpl. congruence.
  - intros [Hin Hm]. split; [assumption|].
    destruct (c !! k) as [e|] eqn:He; [|contradiction].
    apply list_elem_of_fmap. exists (k, e). split; [reflexivity|].
    now apply elem_of_map_to_list.
Qed.

(** With a product entry in the cache, the sweep touches no list entry. *)
Lemma sweep_stops_at_product_keys (w : World) (k k' : string) :
  cache w !! k <> None ->
  matches "product:*" k = true ->
  matches "products:*" k' = true ->
  cache (snd (InvalidateProductCache w)) !! k' = cache w !! k'.
Proof.
  intros Hk Hm Hm'. unfold InvalidateProductCache.
  unfold redis_Keys, redis_Del, redis_send, bind, ret.
  destruct w as [ps cs c lg rf df t en dr]; simpl in *.
  set (eks := filter (fun k => matches "product:*" k = true) (map fst (map_to_list c))).
  assert (Hin : k ∈ eks) by (apply keys_matching; auto).
  assert (Hlen : Nat.ltb 0 (length eks) = true).
  { destruct eks; [inversion Hin | reflexivity]. }
  assert (Hout : k' ∉ eks).
  { intros Hin'. apply keys_matching in Hin' as [_ Hboth].
    apply entity_key_not_list_key in Hboth. congruence. }
  destruct rf as [|[] rf]; simpl; fold eks; rewrite ?Hlen; simpl;
    try reflexivity; try (destruct rf as [|[] rf]; simpl; try reflexivity);
    now apply foldr_delete_notin.
Qed.

(** Without one, and with the cache reachable, it removes every list entry. *)
Lemma sweep_without_product_keys (w : World) (k' : string) :
  (forall k, matches "product:*" k = true -> cache w !! k = None) ->
  redis_faults w = [] ->
  matches "products:*" k' = true ->
  fst (InvalidateProductCache w) = None
  /\ cache (snd (InvalidateProductCache w)) !! k' = None.
Proof.
  intros Hnone Hup Hm'. unfold InvalidateProductCache.
  unfold redis_Keys, redis_Del, redis_send, bind, ret.
  destruct w as [ps cs c lg rf df t en dr]; simpl in *. subst rf. simpl.
  set (eks := filter (fun k => matches "product:*" k = true) (map fst (map_to_list c))).
  assert (Hkeys : eks = []).
  { destruct eks as [|k rest] eqn:Hk; [reflexivity|].
    assert (Hin : k ∈ k :: rest) by left. rewrite <- Hk in Hin.
    apply keys_matching in Hin as [Hsome Hmatch]. now rewrite Hnone in Hsome. }
  rewrite Hkeys. simpl.
  set (listKeys := filter (fun k => matches "products:*" k = true) (map fst (map_to_list c))).
  destruct (c !! k') as [e|] eqn:He.
  - assert (Hin : k' ∈ listKeys) by (apply keys_matching; split; congruence).
    destruct listKeys as [|k0 l] eqn:Hl; [inversion Hin|]. simpl.
    split; [reflexivity|]. now apply (foldr_delete_in c (k0 :: l)).
  - destruct (Nat.ltb 0 (length listKeys)); simpl; (split; [reflexivity|]); [|assumption].
    destruct (decide (k' ∈ listKeys)).
    + now apply foldr_delete_in.
    + now rewrite foldr_delete_notin.
Qed.


(** C1 (the code departs from it). With one product entry and one list
    entry cached, each of the three mutations succeeds and its sweep
    leaves the list entry where it was: [InvalidateProductCache] returns
    after deleting the [product:*] keys and never reaches the
    [products:*] keys.  The next listing is served from that entry: two
    products after a third was created, the old order of prices after a
    price changed, a deleted product still listed. *)
Theorem sweep_leaves_list_entries :
  cache Demo.warm !! Demo.page1_key <> None
  /\ cache Demo.warm !! productKey 0xa1%N <> None
  /\ (let w := snd (@CreateProduct Demo.codec Demo.earbuds Demo.warm) in
      is_Ok (fst (@CreateProduct Demo.codec Demo.earbuds Demo.warm)) = true
      /\ length (products w) = 3%nat
      /\ cache w !! Demo.page1_key = cache Demo.warm !! Demo.page1_key
      /\ total_of (fst (@ListProducts Demo.codec Demo.page1 w)) = Some 2)
  /\ (let w := snd (@UpdateProduct Demo.codec 0xb2%N Demo.reprice Demo.warm) in
      is_Ok (fst (@UpdateProduct Demo.codec 0xb2%N Demo.reprice Demo.warm)) = true
      /\ cache w !! Demo.page1_key = cache Demo.warm !! Demo.page1_key)
  /\ (let w := snd (@DeleteProduct Demo.codec 0xb2%N Demo.warm) in
      fst (@DeleteProduct Demo.codec 0xb2%N Demo.warm) = None
      /\ map Name (products w) = ["Wireless headphones"]
      /\ cache w !! Demo.page1_key = cache Demo.warm !! Demo.page1_key
      /\ names_of (fst (@ListProducts Demo.codec Demo.page1 w))
         = ["Speaker"; "Wireless headphones"]).
Proof.
  vm_compute. repeat split; discriminate.
Qed.

(** C9 (the code departs from it). In the same world the sweep is not
    idempotent: the first run deletes the product entry and leaves the
    list entry, the second run finds it and deletes it.  The store is the
    same throughout. *)
Theorem sweep_twice :
  let w1 := snd (InvalidateProductCache Demo.warm) in
  let w2 := snd (InvalidateProductCache w1) in
  fst (InvalidateProductCache Demo.warm) = None
  /\ fst (InvalidateProductCache w1) = None
  /\ cache w1 !! Demo.page1_key <> None
  /\ cache w2 !! Demo.page1_key = None
  /\ redis_log w2
     = (redis_log w1 ++ [KEYS "product:*"; KEYS "products:*"; DEL [Demo.page1_key]])%list
  /\ products w2 = products Demo.warm
  /\ categories w2 = categories Demo.warm.
Proof.
  vm_compute. repeat split; discriminate.
Qed.

(** * Further properties *)

(** ** The sweep, in general *)

Lemma foldr_delete_subseteq (c : gmap string Entry) (ks : list string) :
  foldr delete c ks ⊆ c.
Proof.
  induction ks as [|k ks IH]; simpl; [reflexivity|].
  etransitivity; [apply delete_subseteq | exact IH].
Qed.

(** X1. While any product entry is cached, the sweep invalidates no
    listing: the entry under the key of every cacheable filter set is
    after [InvalidateProductCache] what it was before, whether or not the
    cache commands go through. *)
Theorem sweep_spares_listings (w : World) (id : UUID) (filters : ProductFilters) :
  cache w !! productKey id <> None ->
  buildCacheKey filters <> "" ->
  cache (snd (InvalidateProductCache w)) !! buildCacheKey filters
  = cache w !! buildCacheKey filters.
Proof.
  intros Hcached Hkey.
  apply (sweep_stops_at_product_keys w (productKey id)); [assumption| |].
  - apply productKey_matches.
  - now apply buildCacheKey_matches.
Qed.

Lemma sweep_spares_listings_witness :
  cache (snd (InvalidateProductCache Demo.warm)) !! buildCacheKey (with_defaults Demo.page1)
  = cache Demo.warm !! buildCacheKey (with_defaults Demo.page1).
Proof.
  apply (sweep_spares_listings Demo.warm 0xa1%N (with_defaults Demo.page1));
    vm_compute; discriminate.
Defined.

(** X2. When [KEYS product:*] finds nothing and the cache executes the
    commands, the sweep succeeds and no listing entry is left: the key of
    every cacheable filter set is absent afterwards. *)
Theorem sweep_clears_listings (w : World) (filters : ProductFilters) :
  forallb (fun k => negb (matches "product:*" k)) (map fst (map_to_list (cache w))) = true ->
  redis_faults w = [] ->
  buildCacheKey filters <> "" ->
  fst (InvalidateProductCache w) = None
  /\ cache (snd (InvalidateProductCache w)) !! buildCacheKey filters = None.
Proof.
  intros Hnone Hup Hkey.
  apply sweep_without_product_keys; [|assumption|now apply buildCacheKey_matches].
  intros k Hk. destruct (cache w !! k) as [e|] eqn:He; [|reflexivity].
  exfalso. rewrite forallb_forall in Hnone.
  assert (Hin : In k (map fst (map_to_list (cache w)))).
  { apply in_map_iff. exists (k, e). split; [reflexivity|].
    apply list_elem_of_In. now apply elem_of_map_to_list. }
  apply Hnone in Hin. rewrite Hk in Hin. discriminate.
Qed.

Lemma sweep_clears_listings_witness :
  fst (InvalidateProductCache (snd (InvalidateProductCache Demo.warm))) = None
  /\ cache (snd (InvalidateProductCache (snd (InvalidateProductCache Demo.warm))))
       !! buildCacheKey (with_defaults Demo.page1) = None.
Proof.
  apply (sweep_clears_listings (snd (InvalidateProductCache Demo.warm))
           (with_defaults Demo.page1)); vm_compute; [reflexivity | reflexivity | discriminate].
Defined.

(** X3. The sweep only deletes: it never touches the two tables, every
    entry the cache holds after it was there before, and it issues at
    most three cache commands.  An error it returns is the failure of one
    of its own cache commands. *)
Theorem sweep_only_deletes (w : World) :
  products (snd (InvalidateProductCache w)) = products w
  /\ categories (snd (InvalidateProductCache w)) = categories w
  /\ cache (snd (InvalidateProductCache w)) ⊆ cache w
  /\ (length (redis_log (snd (InvalidateProductCache w))) <= length (redis_log w) + 3)%nat
  /\ (fst (InvalidateProductCache w) = None
      \/ fst (InvalidateProductCache w) = Some redis_failure).
Proof.
  unfold InvalidateProductCache, redis_Keys, redis_Del, redis_send, bind, ret.
  destruct w as [ps cs c lg rf df t en dr]; simpl.
  pose proof (foldr_delete_subseteq c) as Hsub.
  destruct rf as [|[] rf]; simpl;
    repeat first
      [ progress simpl
      | match goal with
        | |- context [Nat.ltb 0 (length ?l)] => destruct (Nat.ltb 0 (length l))
        | |- context [match ?r with [] => _ | _ :: _ => _ end] =>
            destruct r as [|[] ?]
        end ];
    rewrite ?length_app; simpl;
    repeat split; auto; try reflexivity; try lia.
Qed.


(** ** Reads and writes of one product *)

Section Product_round_trips.
Context `{Lib}.

(** X4. A cache hit is final: when the cache returns a payload that
    deserializes, [GetByID] returns that product with the single command
    [GET]; the store is not asked (no database statement is used up), so
    the answer is the same whatever the tables hold. *)
Theorem GetByID_hit_skips_store (id : UUID) (w : World) (e : Entry) (p : Product) :
  hd false (redis_faults w) = false ->
  cache w !! productKey id = Some e ->
  json_Unmarshal_product (payload e) = Some p ->
  GetByID id w
  = (Ok p, with_redis_io (redis_log w ++ [GET (productKey id)]) (tl (redis_faults w)) w)
  /\ forall ps cs dbf,
      fst (GetByID id (with_db_faults dbf (with_categories cs (with_products ps w)))) = Ok p.
Proof.
  intros Hup Hkey Hdec.
  assert (Hprobe : forall w', redis_faults w' = redis_faults w -> cache w' = cache w ->
                              cache_probe id w' = Some p).
  { intros w' Hf Hc. unfold cache_probe. now rewrite Hf, Hup, Hc, Hkey. }
  split.
  - now apply GetByID_hit, Hprobe.
  - intros ps cs dbf. rewrite (GetByID_hit _ _ p); [reflexivity|].
    now apply Hprobe.
Qed.

(** X5. Read-through: after a read that missed, found the row and wrote
    it to the cache, the next read of the same id returns the same
    product from the cache, also when the database is failing -- given
    that the payload written deserializes to the product it was made
    from. *)
Theorem GetByID_read_through (id : UUID) (w : World) (r : Product) (js : string)
    (dbf : list bool) :
  redis_faults w = [] ->
  hd false (db_faults w) = false ->
  cache w !! productKey id = None ->
  first_by_pk ID (fun p => N.eqb (ID p) id) (products w) = Some r ->
  json_Marshal_product (preload_Category (categories w) r) = Some js ->
  json_Unmarshal_product js = Some (preload_Category (categories w) r) ->
  fst (GetByID id w) = Ok (preload_Category (categories w) r)
  /\ cache (snd (GetByID id w)) !! productKey id = Some (mkEntry js (10 * Minute))
  /\ fst (GetByID id (with_db_faults dbf (snd (GetByID id w))))
     = Ok (preload_Category (categories w) r).
Proof.
  intros Hup Hdb Hmiss Hrow Hjs Hdec.
  assert (Hfirst : GetByID id w
    = (Ok (preload_Category (categories w) r),
       with_cache (<[productKey id := mkEntry js (10 * Minute)]> (cache w))
         (with_redis_io (redis_log w ++ [GET (productKey id);
                                         SET (productKey id) js (10 * Minute)]) []
            (with_db_faults (tl (db_faults w)) w)))).
  { unfold_repo. destruct w as [ps cs c lg rf df t en dr]; simpl in *. subst rf. simpl.
    rewrite Hmiss. simpl.
    destruct df as [|[] df]; simpl in *; try discriminate;
      rewrite Hrow; simpl; rewrite Hjs; simpl; rewrite <- app_assoc; reflexivity. }
  rewrite Hfirst. simpl. split; [reflexivity|].
  split; [apply lookup_insert_eq|].
  rewrite (GetByID_hit _ _ (preload_Category (categories w) r)); [reflexivity|].
  unfold cache_probe. simpl. now rewrite lookup_insert_eq.
Qed.

Lemma db_Delete_then_First (id : UUID) (w w' : World) :
  db_Delete id w = (None, w') ->
  first_by_pk ID (fun p => N.eqb (ID p) id) (products w') = None
  /\ categories w' = categories w /\ cache w' = cache w
  /\ redis_log w' = redis_log w /\ redis_faults w' = redis_faults w.
Proof.
  unfold_repo. destruct w as [ps cs c lg rf df t en dr]; simpl.
  assert (Hnone : first_by_pk ID (fun p => N.eqb (ID p) id)
                    (filter (fun r => N.eqb (ID r) id = false) ps) = None).
  { destruct (first_by_pk _ _ _) as [r|] eqn:Hr; [|reflexivity].
    apply first_by_pk_Some in Hr as [Hin Hid].
    apply list_elem_of_filter in Hin as [Hne _]. congruence. }
  destruct df as [|[] df]; simpl; intros [= <-]; simpl; auto.
Qed.

(** X6. Delete, then read: after a [Delete] that succeeded and whose
    cache delete was executed, [GetByID] of that id is answered by the
    store and reports not-found (or the database failure), whatever was
    cached for the id before. *)
Theorem read_after_delete (id : UUID) (w : World) :
  fst (Delete id w) = None ->
  hd false (redis_faults w) = false ->
  cache (snd (Delete id w)) !! productKey id = None
  /\ fst (GetByID id (snd (Delete id w)))
     = if hd false (db_faults (snd (Delete id w)))
       then Err (Errorf "failed to get product" db_failure)
       else Err (NewNotFoundError "Product not found" (Some gorm_ErrRecordNotFound)).
Proof.
  intros Hok Hup. unfold Delete, bind in *.
  destruct (db_Delete id w) as [[e|] w1] eqn:Hdel; [discriminate|].
  destruct (db_Delete_then_First _ _ _ Hdel) as (Hrow & Hcs & Hc & Hl & Hf).
  rewrite <- Hf in Hup.
  assert (Hw2 : exists w2,
    (let (_, w') := redis_Del [productKey id] w1 in ret (None : option error) w') = (None, w2)
    /\ cache w2 = delete (productKey id) (cache w1)
    /\ products w2 = products w1 /\ db_faults w2 = db_faults w1).
  { unfold_repo. destruct w1 as [ps cs c lg rf df t en dr]; simpl in *.
    destruct rf as [|[] rf]; simpl in *; try discriminate; eexists; eauto. }
  destruct Hw2 as (w2 & -> & Hc2 & Hp2 & Hd2). simpl.
  assert (Hmiss : cache w2 !! productKey id = None)
    by (rewrite Hc2; apply lookup_delete_eq).
  split; [assumption|].
  assert (Hprobe : cache_probe id w2 = None).
  { unfold cache_probe. rewrite Hmiss. now destruct (hd false (redis_faults w2)). }
  destruct (GetByID_fallthrough id w2 Hprobe) as [-> _].
  unfold store_lookup. now rewrite Hp2, Hrow.
Qed.

(** X7. Create, then read: a product built the way the service builds
    it -- no category attached, active -- that [Create] stored is
    returned by [GetByID] under the id it was stored with: the fields as
    given, the id (kept when one was given) and the timestamps filled in
    by the store, the category loaded, provided the cache delivers
    nothing for that id.  The insert happened only because no row had
    that id or that SKU. *)
Theorem read_after_create (p : Product) (w : World) :
  let created := fst (fst (Create p w)) in
  let w' := snd (Create p w) in
  snd (fst (Create p w)) = None ->
  Category_ p = None ->
  IsActive p = true ->
  cache_probe (ID created) w' = None ->
  fst (GetByID (ID created) w')
  = (if hd false (db_faults w')
     then Err (Errorf "failed to get product" db_failure)
     else Ok (preload_Category (categories w) (row created)))
  /\ (Name created, Description created, Price created, CategoryID created,
      Stock created, ImageURL created, SKU created, IsActive created)
     = (Name p, Description p, Price p, CategoryID p,
        Stock p, ImageURL p, SKU p, IsActive p)
  /\ (ID p <> 0%N -> ID created = ID p)
  /\ (forall r, r ∈ products w -> ID r <> ID created /\ SKU r <> SKU p).
Proof.
  unfold Create, bind.
  destruct (db_Create p w) as [[pc [e|]] w'] eqn:Hc; simpl; [discriminate|].
  intros _ Hcat Hact Hprobe.
  destruct (db_Create_plain _ _ _ _ Hcat Hact Hc)
    as (Hrow & Hfresh & Hid & Hpc & _ & Hcs & _).
  destruct (GetByID_fallthrough _ _ Hprobe) as [-> _].
  unfold store_lookup. rewrite Hrow, Hcs.
  assert (Hfields : (Name pc, Description pc, Price pc, CategoryID pc,
                     Stock pc, ImageURL pc, SKU pc, IsActive pc)
                    = (Name p, Description p, Price p, CategoryID p,
                       Stock p, ImageURL p, SKU p, IsActive p)).
  { rewrite Hpc. reflexivity. }
  repeat split; auto; apply Hfresh; assumption.
Qed.

End Product_round_trips.


Lemma GetByID_hit_skips_store_witness :
  @GetByID Demo.codec 0xa1%N Demo.warm
  = (Ok Demo.hp,
     with_redis_io (redis_log Demo.warm ++ [GET (productKey 0xa1%N)])
                   (tl (redis_faults Demo.warm)) Demo.warm)
  /\ forall ps cs dbf,
      fst (@GetByID Demo.codec 0xa1%N
             (with_db_faults dbf (with_categories cs (with_products ps Demo.warm))))
      = Ok Demo.hp.
Proof.
  apply (@GetByID_hit_skips_store Demo.codec 0xa1%N Demo.warm
           (mkEntry (Demo.print_product Demo.hp) (10 * Minute)) Demo.hp);
    vm_compute; reflexivity.
Defined.

Lemma GetByID_read_through_witness :
  fst (@GetByID Demo.codec 0xa1%N Demo.world0) = Ok Demo.hp
  /\ cache (snd (@GetByID Demo.codec 0xa1%N Demo.world0)) !! productKey 0xa1%N
     = Some (mkEntry (Demo.print_product Demo.hp) (10 * Minute))
  /\ fst (@GetByID Demo.codec 0xa1%N
            (with_db_faults [true] (snd (@GetByID Demo.codec 0xa1%N Demo.world0))))
     = Ok Demo.hp.
Proof.
  apply (@GetByID_read_through Demo.codec 0xa1%N Demo.world0 Demo.headphones
           (Demo.print_product Demo.hp) [true]); vm_compute; reflexivity.
Defined.

Lemma read_after_delete_witness :
  cache (snd (Delete 0xa1%N Demo.warm)) !! productKey 0xa1%N = None
  /\ fst (@GetByID Demo.codec 0xa1%N (snd (Delete 0xa1%N Demo.warm)))
     = Err (NewNotFoundError "Product not found" (Some gorm_ErrRecordNotFound)).
Proof.
  apply (@read_after_delete Demo.codec 0xa1%N Demo.warm); vm_compute; reflexivity.
Defined.

Lemma read_after_create_witness :
  fst (@GetByID Demo.codec 0xe3%N (snd (Create Fixture.earbuds_e3 Demo.warm)))
  = Ok (preload_Category [Demo.audio] (set_times 1000 1000 Fixture.earbuds_e3))
  /\ (Name (fst (fst (Create Fixture.earbuds_e3 Demo.warm))),
      Description (fst (fst (Create Fixture.earbuds_e3 Demo.warm))),
      Price (fst (fst (Create Fixture.earbuds_e3 Demo.warm))),
      CategoryID (fst (fst (Create Fixture.earbuds_e3 Demo.warm))),
      Stock (fst (fst (Create Fixture.earbuds_e3 Demo.warm))),
      ImageURL (fst (fst (Create Fixture.earbuds_e3 Demo.warm))),
      SKU (fst (fst (Create Fixture.earbuds_e3 Demo.warm))),
      IsActive (fst (fst (Create Fixture.earbuds_e3 Demo.warm))))
     = (Name Fixture.earbuds_e3, Description Fixture.earbuds_e3, Price Fixture.earbuds_e3,
        CategoryID Fixture.earbuds_e3, Stock Fixture.earbuds_e3, ImageURL Fixture.earbuds_e3,
        SKU Fixture.earbuds_e3, IsActive Fixture.earbuds_e3)
  /\ (ID Fixture.earbuds_e3 <> 0%N ->
      ID (fst (fst (Create Fixture.earbuds_e3 Demo.warm))) = ID Fixture.earbuds_e3)
  /\ (forall r, r ∈ products Demo.warm ->
        ID r <> ID (fst (fst (Create Fixture.earbuds_e3 Demo.warm)))
        /\ SKU r <> SKU Fixture.earbuds_e3).
Proof.
  apply (@read_after_create Demo.codec Fixture.earbuds_e3 Demo.warm);
    vm_compute; reflexivity.
Defined.


(** ** Cache keys *)

(** X8. The two key spaces are apart: the key of a product matches
    [product:*] and not [products:*], the key of a cacheable filter set
    matches [products:*] and not [product:*], and so no product key is
    the key of a filter set. *)
Theorem cache_key_namespaces (id : UUID) (filters : ProductFilters) :
  matches "product:*" (productKey id) = true
  /\ matches "products:*" (productKey id) = false
  /\ (buildCacheKey filters = ""
      \/ (matches "products:*" (buildCacheKey filters) = true
          /\ matches "product:*" (buildCacheKey filters) = false
          /\ productKey id <> buildCacheKey filters)).
Proof.
  pose proof (productKey_matches id) as Hp.
  split; [assumption|]. split; [now apply entity_key_not_list_key|].
  destruct (decide (buildCacheKey filters = "")) as [He|Hne]; [now left | right].
  pose proof (buildCacheKey_matches filters Hne) as Hl.
  assert (Hnot : matches "product:*" (buildCacheKey filters) = false).
  { destruct (matches "product:*" (buildCacheKey filters)) eqn:Hm; [|reflexivity].
    apply entity_key_not_list_key in Hm. congruence. }
  repeat split; auto. intros Heq. rewrite <- Heq in Hnot. congruence.
Qed.

Lemma hex_digit_inj (n m : N) :
  (n < 16)%N -> (m < 16)%N -> hex_digit n = hex_digit m -> n = m.
Proof.
  intros Hn Hm.
  assert (Hcases : forall k, (k < 16)%N ->
            In k [0; 1; 2; 3; 4; 5; 6; 7; 8; 9; 10; 11; 12; 13; 14; 15]%N).
  { intros k Hk. destruct k as [|p]; [now left|].
    do 4 (try destruct p as [p|p|]); simpl; try lia; tauto. }
  apply Hcases in Hn, Hm. simpl in Hn, Hm.
  repeat (destruct Hn as [<-|Hn]; [repeat (destruct Hm as [<-|Hm]; [vm_compute; congruence|]); contradiction|]).
  contradiction.
Qed.

Lemma nibble_lt (u : UUID) (i : nat) : (nibble u i < 16)%N.
Proof.
  unfold nibble. change 15%N with (N.ones 4). rewrite N.land_ones.
  apply N.mod_lt. discriminate.
Qed.

Lemma hex_run_inj (a b : UUID) (len from : nat) (s t : string) :
  hex_run a from len +:+ s = hex_run b from len +:+ t ->
  (forall i, (from <= i < from + len)%nat -> nibble a i = nibble b i) /\ s = t.
Proof.
  revert from. induction len as [|len IH]; intros from; simpl.
  - intros Hst. split; [intros i Hi; exfalso; lia | exact Hst].
  - rewrite !append_cons. intros [= Hd Hrest].
    apply hex_digit_inj in Hd; try apply nibble_lt.
    destruct (IH _ Hrest) as [Hn Hst]. split; [|exact Hst].
    intros i Hi. destruct (Nat.eq_dec i from) as [->|Hne]; [exact Hd|].
    apply Hn. lia.
Qed.

Lemma nibbles_determine (a b : UUID) :
  (forall i, (i < 32)%nat -> nibble a i = nibble b i) ->
  (a mod 2 ^ 128 = b mod 2 ^ 128)%N.
Proof.
  intros Hn. apply N.bits_inj. intros n.
  destruct (N.lt_ge_cases n 128) as [Hlt|Hge].
  - rewrite !N.mod_pow2_bits_low by assumption.
    assert (Hq : (n / 4 < 32)%N) by (apply N.Div0.div_lt_upper_bound; lia).
    pose proof (N.Div0.div_mod n 4) as Hdm.
    pose proof (N2Nat.id (n / 4)) as Hk.
    remember (N.to_nat (n / 4)) as k eqn:Ek. clear Ek.
    remember (n / 4)%N as q eqn:Eq. clear Eq.
    assert (Hi : (31 - k < 32)%nat) by (apply Nat.lt_succ_r, Nat.le_sub_l).
    pose proof (Hn (31 - k)%nat Hi) as He. unfold nibble in He.
    apply (f_equal (fun x => N.testbit x (n mod 4))) in He.
    rewrite !N.land_spec, !N.shiftr_spec' in He.
    assert (Hpos : (n mod 4 + 4 * N.of_nat (31 - (31 - k)) = n)%N).
    { replace (31 - (31 - k))%nat with k by lia. lia. }
    rewrite Hpos in He.
    assert (Hmask : N.testbit 15 (n mod 4) = true).
    { change 15%N with (N.ones 4). apply N.ones_spec_low.
      apply N.mod_lt. discriminate. }
    rewrite Hmask, !andb_true_r in He. exact He.
  - rewrite !N.mod_pow2_bits_high by assumption. reflexivity.
Qed.

Lemma append_inj_l (s t t' : string) : s +:+ t = s +:+ t' -> t = t'.
Proof.
  induction s as [|c s IH]; [trivial|].
  rewrite !append_cons. intros [= Hst]. now apply IH.
Qed.

(** X9. Distinct products never share a cache key: two ids (128-bit
    values) with the same key [product:<uuid>] are equal. *)
Theorem productKey_inj (a b : UUID) :
  (a < 2 ^ 128)%N -> (b < 2 ^ 128)%N -> productKey a = productKey b -> a = b.
Proof.
  intros Ha Hb. unfold productKey, uuid_String. intros Hkey.
  apply append_inj_l in Hkey.
  apply hex_run_inj in Hkey as [H1 Hkey]. apply append_inj_l in Hkey.
  apply hex_run_inj in Hkey as [H2 Hkey]. apply append_inj_l in Hkey.
  apply hex_run_inj in Hkey as [H3 Hkey]. apply append_inj_l in Hkey.
  apply hex_run_inj in Hkey as [H4 Hkey]. apply append_inj_l in Hkey.
  rewrite <- (append_nil_r (hex_run a 20 12)), <- (append_nil_r (hex_run b 20 12)) in Hkey.
  apply hex_run_inj in Hkey as [H5 _].
  rewrite <- (N.mod_small a (2 ^ 128)), <- (N.mod_small b (2 ^ 128)) by assumption.
  apply nibbles_determine. intros i Hi.
  destruct (Nat.lt_ge_cases i 8); [apply H1; lia|].
  destruct (Nat.lt_ge_cases i 12); [apply H2; lia|].
  destruct (Nat.lt_ge_cases i 16); [apply H3; lia|].
  destruct (Nat.lt_ge_cases i 20); [apply H4; lia|].
  apply H5; lia.
Qed.

Lemma productKey_inj_witness : 0xa1%N = N.lor 0xa0 1.
Proof.
  apply (productKey_inj 0xa1%N (N.lor 0xa0 1)); vm_compute; reflexivity.
Defined.


(** ** Listings *)

Section Listing_more.
Context `{Lib}.

(** X10. What [List] does to the cache: nothing at all when the filter
    set has no key; otherwise one read of that key and at most one write,
    of the page and total it returns, under the same key and with an
    expiry of five minutes.  A failed count or query is never followed by
    a write. *)
Theorem List_cache_commands (filters : ProductFilters) (w : World) :
  let key := buildCacheKey filters in
  (key = ""
   /\ redis_log (snd (List_ filters w)) = redis_log w
   /\ cache (snd (List_ filters w)) = cache w)
  \/ (key <> ""
      /\ redis_log (snd (List_ filters w)) = (redis_log w ++ [GET key])%list
      /\ cache (snd (List_ filters w)) = cache w)
  \/ (exists page total js,
        key <> ""
        /\ fst (List_ filters w) = Ok (page, total)
        /\ json_Marshal_list (page, total) = Some js
        /\ redis_log (snd (List_ filters w))
           = (redis_log w ++ [GET key; SET key js (5 * Minute)])%list
        /\ (cache (snd (List_ filters w)) = cache w
            \/ cache (snd (List_ filters w))
               = <[key := mkEntry js (5 * Minute)]> (cache w))).
Proof.
  intros key.
  destruct (str_empty key) eqn:Hk.
  - apply str_empty_spec in Hk. left. split; [assumption|].
    destruct (List_uncached filters w Hk) as (Hc & Hl & _). auto.
  - apply str_empty_false in Hk. right.
    unfold List_. fold key.
    destruct (str_empty key) eqn:Hk'; [apply str_empty_spec in Hk'; contradiction|].
    unfold db_Count, db_Find, db_exec, redis_Get, redis_Set, redis_send, bind, ret.
    destruct w as [ps cs c lg rf df t en dr]; simpl.
    destruct rf as [|[] rf]; simpl;
      try (destruct (c !! key) as [e|]; simpl);
      try (destruct (json_Unmarshal_list (payload e)) as [[page0 total0]|]; simpl);
      try (left; repeat split; assumption || reflexivity);
      (destruct df as [|[] df]; simpl;
       try (left; repeat split; assumption || reflexivity);
       try (destruct df as [|[] df]; simpl);
       try (left; repeat split; assumption || reflexivity);
       repeat match goal with
              | |- context [match ?o with Some _ => _ | None => _ end] =>
                  let E := fresh "E" in destruct o eqn:E; simpl
              | |- context [match ?l with [] => _ | _ :: _ => _ end] =>
                  destruct l as [|[] ?]; simpl
              end;
       first [ left; repeat split; assumption || reflexivity
             | right; eexists _, _, _; rewrite <- ?app_assoc; simpl;
               repeat split; eauto ]).
Qed.

(** X11. A search returns one bounded page and the full count: for a
    non-empty term, a successful [SearchProducts] reports a limit between
    1 and 100, returns at most that many products, and its total is the
    number of rows the filters select -- the same whatever limit and
    offset were asked for. *)
Theorem search_page_bounds (term : string) (filters : ProductFilters) (w w' : World)
    (l : ProductList) :
  term <> "" ->
  SearchProducts term filters w = (Ok l, w') ->
  0 < pl_Limit l <= 100
  /\ (length (pl_Products l) <= Z.to_nat (pl_Limit l))%nat
  /\ pl_Total l
     = Z.of_nat (length (selected (filtered (set_Search term filters)) (products w)))
  /\ forall lim off,
      filtered (set_Search term (set_Limit lim (Handler.set_Offset off filters)))
      = filtered (set_Search term filters).
Proof.
  intros Hterm. unfold SearchProducts.
  destruct (str_empty term) eqn:He; [apply str_empty_spec in He; contradiction|].
  set (f := set_Search term filters).
  assert (Hkey : buildCacheKey (with_defaults f) = "").
  { apply buildCacheKey_empty_iff. left. subst f.
    now rewrite with_defaults_Search. }
  assert (Hlim : 0 < f_Limit (with_defaults f) <= 100).
  { unfold with_defaults.
    destruct (Z.leb_spec (f_Limit f) 0);
      cbn [f_Limit set_Limit];
      [ change (Z.ltb 100 20) with false
      | destruct (Z.ltb_spec 100 (f_Limit f)) ];
      repeat (case_match;
              cbn [f_Limit set_Limit set_SortBy set_SortOrder] in *); lia. }
  unfold ListProducts, List_, bind, ret. rewrite Hkey. simpl.
  rewrite filtered_with_defaults.
  unfold db_Count, db_Find, db_exec, bind, ret.
  destruct w as [ps cs c lg rf df t en dr]; simpl.
  assert (Hpage : forall rows,
    (length (map (preload_Category cs)
               (paginate (sorted_page (with_defaults f) (filtered f)) rows))
     <= Z.to_nat (f_Limit (with_defaults f)))%nat).
  { intros rows. rewrite length_map. unfold paginate, sorted_page.
    destruct (Z.ltb_spec 0 (f_Limit (with_defaults f))); [|lia].
    destruct (Z.ltb 0 (f_Offset (with_defaults f))); simpl;
      rewrite length_take; lia. }
  intros Hres.
  assert (Hgoal : 0 < pl_Limit l <= 100
                  /\ (length (pl_Products l) <= Z.to_nat (pl_Limit l))%nat
                  /\ pl_Total l = Z.of_nat (length (selected (filtered f) ps))).
  { revert Hres.
    destruct df as [|[] df]; simpl; try discriminate;
      try (destruct df as [|[] df]; simpl; try discriminate);
      repeat (case_match; simpl; try discriminate);
      intros; simplify_eq/=; auto. }
  destruct Hgoal as (H1 & H2 & H3). repeat split; auto; try lia.
Qed.

End Listing_more.

Lemma search_page_bounds_witness :
  0 < 20 <= 100
  /\ (length (map (preload_Category (categories Demo.world0)) [Demo.headphones])
      <= Z.to_nat 20)%nat
  /\ 1 = Z.of_nat (length (@selected Demo.codec
                             (@filtered Demo.codec (set_Search "wireless" Demo.page1))
                             (products Demo.world0)))
  /\ forall lim off,
      @filtered Demo.codec
        (set_Search "wireless" (set_Limit lim (Handler.set_Offset off Demo.page1)))
      = @filtered Demo.codec (set_Search "wireless" Demo.page1).
Proof.
  apply (@search_page_bounds Demo.codec "wireless" Demo.page1 Demo.world0 Demo.world0
           (mkProductList [Demo.hp] 1 20 0 false));
    [discriminate | vm_compute; reflexivity].
Defined.


(** ** Error classes and the HTTP status *)

(** X12. An error has at most one class, the type of the outermost
    [AppError] on its unwrap chain: an [AppError] answers true to the test
    of its own type only, whatever its cause is; wrapping with
    [fmt.Errorf("...: %w", err)] changes no answer; an error with no
    [AppError] on its chain, such as a bare driver error, has no class. *)
Theorem error_class_unique (e : error) :
  (length (filter (fun b => b = true) (classes e)) <= 1)%nat
  /\ (forall t m c,
        classes (AppError t m c) = <[class_index t := true]> (replicate 6 false))
  /\ (forall msg, classes (Errorf msg e) = classes e)
  /\ (as_AppError e = None -> classes e = replicate 6 false).
Proof.
  unfold classes, IsNotFound, IsValidation, IsConflict, IsInternal,
    IsUnauthorized, IsForbidden.
  repeat split.
  - destruct (as_AppError e) as [[]|]; vm_compute; lia.
  - intros [] m c; reflexivity.
  - intros ->. reflexivity.
Qed.

Lemma error_class_unique_witness :
  classes gorm_ErrRecordNotFound = replicate 6 false.
Proof.
  apply (error_class_unique gorm_ErrRecordNotFound). reflexivity.
Defined.

Section Endpoints.
Context `{Lib} `{Handler.Parsers}.

(** X13. The search endpoint never uses the cache: whatever the request,
    [SearchProducts] issues no cache command and leaves the cache as it
    was; without a [q] parameter it answers 400 and touches nothing. *)
Theorem search_endpoint_bypasses_cache (c : Handler.Request) (w : World) :
  redis_log (snd (Handler.SearchProducts c w)) = redis_log w
  /\ cache (snd (Handler.SearchProducts c w)) = cache w
  /\ redis_faults (snd (Handler.SearchProducts c w)) = redis_faults w
  /\ (Handler.Query c "q" = "" <->
      Handler.SearchProducts c w
      = (Handler.respond_Error 400 "Search query is required" Handler.NoDetail, w)).
Proof.
  unfold Handler.SearchProducts.
  destruct (str_empty (Handler.Query c "q")) eqn:Hq.
  - apply str_empty_spec in Hq. unfold ret. simpl. tauto.
  - apply str_empty_false in Hq.
    set (q := Handler.Query c "q") in *.
    set (f := Handler.search_filters c).
    assert (Hkey : buildCacheKey (with_defaults (set_Search q f)) = "").
    { apply buildCacheKey_empty_iff. left. now rewrite with_defaults_Search. }
    destruct (List_uncached _ w Hkey) as (Hc & Hl & Hf).
    unfold SearchProducts, ListProducts, bind, ret.
    destruct (str_empty q) eqn:Hq'; [apply str_empty_spec in Hq'; contradiction|].
    destruct (List_ (with_defaults (set_Search q f)) w) as [[[ps total]|e] w'];
      simpl in *; (repeat split; auto; try tauto);
      intros [=]; try contradiction;
      unfold Handler.handleError in *; repeat case_match; discriminate.
Qed.

Lemma List_has_key_Search (filters : ProductFilters) :
  f_Search filters <> "" -> buildCacheKey (with_defaults filters) = "".
Proof.
  intros Hs. apply buildCacheKey_empty_iff. left. now rewrite with_defaults_Search.
Qed.

(** X14. The listing endpoint with a [search] parameter does the same:
    no cache command, the cache untouched. *)
Theorem list_endpoint_search_bypasses_cache (c : Handler.Request) (w : World) :
  Handler.Query c "search" <> "" ->
  redis_log (snd (Handler.ListProducts c w)) = redis_log w
  /\ cache (snd (Handler.ListProducts c w)) = cache w
  /\ redis_faults (snd (Handler.ListProducts c w)) = redis_faults w.
Proof.
  intros Hs. unfold Handler.ListProducts.
  assert (Hsearch : f_Search (Handler.list_filters c) = Handler.Query c "search").
  { unfold Handler.list_filters, Handler.parsed.
    repeat (case_match; simpl); reflexivity. }
  assert (Hkey : buildCacheKey (with_defaults (Handler.list_filters c)) = "").
  { apply List_has_key_Search. now rewrite Hsearch. }
  destruct (List_uncached _ w Hkey) as (Hc & Hl & Hf).
  unfold ListProducts, bind, ret.
  destruct (List_ (with_defaults (Handler.list_filters c)) w) as [[[ps total]|e] w'];
    simpl in *; auto.
Qed.

(** X15. What the product endpoint answers when the cache delivers
    nothing for the id: 200 with the row and its category when the store
    has the row, 404 with the error text when it has none, 500 without
    any error text when the database fails; an id that does not parse is
    answered 400 without touching store or cache. *)
Theorem product_endpoint_status (c : Handler.Request) (w : World) :
  (Handler.uuid_Parse (Handler.Param c "id") = None ->
   Handler.GetProduct c w
   = (Handler.respond_Error 400 "Invalid product ID"
        (Handler.ParseError (Handler.Param c "id")), w))
  /\ (forall id,
        Handler.uuid_Parse (Handler.Param c "id") = Some id ->
        cache_probe id w = None ->
        fst (Handler.GetProduct c w)
        = if hd false (db_faults w)
          then Handler.respond_Error 500 "Internal server error" Handler.NoDetail
          else
            match first_by_pk ID (fun p => N.eqb (ID p) id) (products w) with
            | Some r =>
                Handler.respond_Success 200 "Product retrieved successfully"
                  (Handler.ProductData (preload_Category (categories w) r))
            | None =>
                Handler.respond_Error 404 "Resource not found"
                  (Handler.ErrorText
                     (NewNotFoundError "Product not found"
                        (Some (NewNotFoundError "Product not found"
                                 (Some gorm_ErrRecordNotFound)))))
            end).
Proof.
  unfold Handler.GetProduct. split.
  - intros ->. reflexivity.
  - intros id -> Hprobe. unfold GetProduct, bind, ret.
    destruct (GetByID_fallthrough id w Hprobe) as [Hres _].
    destruct (GetByID id w) as [r w'] eqn:Hg. simpl in Hres. subst r.
    unfold store_lookup.
    destruct (hd false (db_faults w)); [reflexivity|].
    destruct (first_by_pk ID _ (products w)); reflexivity.
Qed.

End Endpoints.


(** ** The service: read your writes *)

Lemma sweep_frame (w : World) :
  products (snd (InvalidateProductCache w)) = products w
  /\ categories (snd (InvalidateProductCache w)) = categories w
  /\ db_faults (snd (InvalidateProductCache w)) = db_faults w
  /\ cache (snd (InvalidateProductCache w)) ⊆ cache w
  /\ (redis_faults w = [] -> redis_faults (snd (InvalidateProductCache w)) = []).
Proof.
  unfold InvalidateProductCache, redis_Keys, redis_Del, redis_send, bind, ret.
  destruct w as [ps cs c lg rf df t en dr]; simpl.
  pose proof (foldr_delete_subseteq c) as Hsub.
  destruct rf as [|[] rf]; simpl;
    repeat first
      [ progress simpl
      | match goal with
        | |- context [Nat.ltb 0 (length ?l)] => destruct (Nat.ltb 0 (length l))
        | |- context [match ?r with [] => _ | _ :: _ => _ end] =>
            destruct r as [|[] ?]
        end ];
    repeat split; auto; try reflexivity; try discriminate.
Qed.

Lemma sweep_keeps_absent (w : World) (k : string) :
  cache w !! k = None -> cache (snd (InvalidateProductCache w)) !! k = None.
Proof.
  intros Hk. destruct (sweep_frame w) as (_ & _ & _ & Hsub & _).
  destruct (cache (snd (InvalidateProductCache w)) !! k) as [e|] eqn:He; [|reflexivity].
  eapply lookup_weaken in He; [|exact Hsub]. congruence.
Qed.

Lemma Delete_effect (id : UUID) (w w' : World) :
  Delete id w = (None, w') ->
  hd false (redis_faults w) = false ->
  first_by_pk ID (fun p => N.eqb (ID p) id) (products w') = None
  /\ cache w' !! productKey id = None
  /\ categories w' = categories w
  /\ (redis_faults w = [] -> redis_faults w' = []).
Proof.
  intros Hdel Hup. unfold Delete, bind in Hdel.
  destruct (db_Delete id w) as [[e|] w1] eqn:Hd; [discriminate|].
  destruct (db_Delete_then_First _ _ _ Hd) as (Hrow & Hcs & Hc & Hl & Hf).
  rewrite <- Hf in Hup. revert Hdel. unfold_repo.
  destruct w1 as [ps cs c lg rf df t en dr]; simpl in *.
  destruct rf as [|[] rf]; simpl in *; try discriminate;
    intros [= <-]; simpl; rewrite lookup_delete_eq; repeat split; auto;
    intros Hnil; rewrite Hnil in Hf; discriminate.
Qed.

Section Read_your_writes.
Context `{Lib}.

Lemma GetByID_frame (id : UUID) (w : World) :
  products (snd (GetByID id w)) = products w
  /\ categories (snd (GetByID id w)) = categories w
  /\ now (snd (GetByID id w)) = now w
  /\ (redis_faults w = [] -> redis_faults (snd (GetByID id w)) = [])
  /\ (db_faults w = [] -> db_faults (snd (GetByID id w)) = []).
Proof.
  unfold_repo. destruct w as [ps cs c lg rf df t en dr]; simpl.
  repeat (case_match; simpl; simplify_eq/=); repeat split; auto; discriminate.
Qed.

Lemma GetProduct_of_store (id : UUID) (w : World) :
  cache_probe id w = None ->
  fst (GetProduct id w)
  = match store_lookup id w with
    | Ok p => Ok p
    | Err err =>
        if IsNotFound err
        then Err (NewNotFoundError "Product not found" (Some err))
        else Err (NewInternalError "Failed to get product" (Some err))
    end.
Proof.
  intros Hprobe. unfold GetProduct, bind, ret.
  destruct (GetByID_fallthrough id w Hprobe) as [Hres _].
  destruct (GetByID id w) as [r w'] eqn:Hg. simpl in Hres. subst r.
  destruct (store_lookup id w) as [p|e]; [reflexivity|].
  destruct (IsNotFound e); reflexivity.
Qed.

Lemma absent_key_probe (id : UUID) (w : World) :
  cache w !! productKey id = None -> cache_probe id w = None.
Proof.
  intros Hk. unfold cache_probe. rewrite Hk. now destruct (hd false (redis_faults w)).
Qed.

(** X16. A deleted product is gone for the next reader: after a
    [DeleteProduct] that succeeded with the cache reachable, no row and
    no cache entry is left for the id, and [GetProduct] reports not-found
    (or the database failure). *)
Theorem deleted_product_is_gone (id : UUID) (w : World) :
  redis_faults w = [] ->
  fst (DeleteProduct id w) = None ->
  first_by_pk ID (fun p => N.eqb (ID p) id) (products (snd (DeleteProduct id w))) = None
  /\ cache (snd (DeleteProduct id w)) !! productKey id = None
  /\ fst (GetProduct id (snd (DeleteProduct id w)))
     = if hd false (db_faults (snd (DeleteProduct id w)))
       then Err (NewInternalError "Failed to get product"
                   (Some (Errorf "failed to get product" db_failure)))
       else Err (NewNotFoundError "Product not found"
                   (Some (NewNotFoundError "Product not found"
                            (Some gorm_ErrRecordNotFound)))).
Proof.
  intros Hup. unfold DeleteProduct, bind, ret.
  destruct (GetByID_frame id w) as (_ & _ & _ & Hrf & _).
  destruct (GetByID id w) as [[p|e] w1] eqn:Hg; simpl in Hrf;
    [|destruct (IsNotFound e); discriminate].
  destruct (Delete id w1) as [[e|] w2] eqn:Hd; [discriminate|].
  destruct (Delete_effect _ _ _ Hd) as (Hrow & Hc & _ & _);
    [now rewrite (Hrf Hup)|].
  destruct (sweep_frame w2) as (Hps & _ & Hdf & _ & _).
  pose proof (sweep_keeps_absent w2 _ Hc) as Hc3.
  destruct (InvalidateProductCache w2) as [r3 w3] eqn:Hs. simpl in *.
  intros _. rewrite Hps. split; [assumption|]. split; [assumption|].
  rewrite (GetProduct_of_store id w3 (absent_key_probe _ _ Hc3)).
  unfold store_lookup. rewrite Hps, Hrow.
  destruct (hd false (db_faults w3)); reflexivity.
Qed.

End Read_your_writes.

Lemma deleted_product_is_gone_witness :
  first_by_pk ID (fun p => N.eqb (ID p) 0xb2%N)
    (products (snd (@DeleteProduct Demo.codec 0xb2%N Demo.warm))) = None
  /\ cache (snd (@DeleteProduct Demo.codec 0xb2%N Demo.warm)) !! productKey 0xb2%N = None
  /\ fst (@GetProduct Demo.codec 0xb2%N (snd (@DeleteProduct Demo.codec 0xb2%N Demo.warm)))
     = Err (NewNotFoundError "Product not found"
              (Some (NewNotFoundError "Product not found"
                       (Some gorm_ErrRecordNotFound)))).
Proof.
  apply (@deleted_product_is_gone Demo.codec 0xb2%N Demo.warm); vm_compute; reflexivity.
Defined.


Lemma GetBySKU_idle (sku : string) (w : World) :
  db_faults w = [] -> snd (GetBySKU sku w) = w.
Proof.
  unfold_repo. destruct w as [ps cs c lg rf df t en dr]; simpl. intros ->. simpl.
  now destruct (first_by_pk ID _ ps).
Qed.

Lemma GetCategory_idle (id : UUID) (w : World) :
  db_faults w = [] -> snd (GetCategory id w) = w.
Proof.
  unfold_repo. destruct w as [ps cs c lg rf df t en dr]; simpl. intros ->. simpl.
  now destruct (first_by_pk cat_ID _ cs).
Qed.

(** [Update] of a product that has a row and carries the category the
    store loads for it, if any. *)
Lemma Update_effect (p pu : Product) (w1 w2 : World) :
  ID p <> 0%N ->
  (exists r, r ∈ products w1 /\ ID r = ID p) ->
  (forall c, Category_ p = Some c -> c ∈ categories w1 /\ cat_ID c = CategoryID p) ->
  Update p w1 = ((pu, None), w2) ->
  redis_faults w1 = [] ->
  db_faults w1 = [] ->
  pu = set_Category_ (category_defaults (now w1) <$> Category_ p)
                     (set_times (CreatedAt p) (now w1) p)
  /\ first_by_pk ID (fun r => N.eqb (ID r) (ID p)) (products w2) = Some (row pu)
  /\ categories w2 = categories w1
  /\ cache w2 !! productKey (ID p) = None
  /\ redis_faults w2 = [] /\ db_faults w2 = [].
Proof.
  intros Hid (r & Hin & Hr) Hcat Hupd Hrf Hdf. unfold Update, bind in Hupd.
  destruct (db_Save p w1) as [[p1 [e|]] w1'] eqn:Hsave; [discriminate|].
  destruct (db_Save_written _ _ _ _ Hid Hsave)
    as (Hrow & Hp1 & Hcache & Hlog & Hfaults & Hnow & Hdf' & Hpu & Hcats).
  assert (Hw0 : snd (db_exec w1) = w1).
  { unfold db_exec. now rewrite Hdf. }
  rewrite Hw0 in Hpu, Hcats. rewrite Hdf in Hdf'. simpl in Hdf'.
  assert (Hex : existsb (fun r => N.eqb (ID r) (ID p)) (products w1) = true).
  { apply existsb_exists. exists r. split; [now apply list_elem_of_In|].
    now apply N.eqb_eq. }
  rewrite Hex in Hpu. cbv zeta in Hpu.
  assert (Hsaved : fst (save_Category p w1)
                   = set_Category_ (category_defaults (now w1) <$> Category_ p) p
                   /\ categories (snd (save_Category p w1)) = categories w1).
  { destruct (save_Category_fields p w1) as [_ Hc].
    destruct (Category_ p) as [c|] eqn:Hpc.
    - destruct (Hcat c eq_refl) as [Hcin Hcid].
      destruct Hc as [_ Hc]. destruct (Hc Hcin) as [-> ->]. rewrite Hcid.
      split; reflexivity.
    - rewrite Hc. simpl. split; [|reflexivity].
      destruct p; simpl in *. subst. reflexivity. }
  destruct Hsaved as [Hsaved Hcs]. rewrite Hsaved in Hpu. rewrite Hcs in Hcats.
  rewrite Hp1 in Hupd. rewrite Hrf in Hfaults.
  revert Hupd. unfold redis_Del, redis_send, bind, ret.
  destruct w1' as [ps cs c lg rf df t en dr]; simpl in *. subst rf df. simpl.
  intros [= <- <-]; simpl. rewrite lookup_delete_eq. subst p1.
  repeat split; auto.
Qed.

Section Read_your_updates.
Context `{Lib}.

(** X17. Read your update: with cache and database reachable, after an
    [UpdateProduct] that leaves the category alone, read the product
    from the store and succeeded, [GetProduct] returns the product as
    updated -- the fields of the request written over the stored row,
    stamped with the time of the write, category loaded -- and not what
    was listed or cached before.  The struct that [UpdateProduct]
    returns is that product with its category as the save left it: the
    loaded category is saved along, which fills the defaults of an
    insert (active, non-zero timestamps) into the struct and changes no
    row. *)
Theorem updated_product_is_read (id : UUID) (req : UpdateProductRequest)
    (w w' : World) (p' : Product) :
  id <> 0%N ->
  ur_CategoryID req = None ->
  redis_faults w = [] ->
  db_faults w = [] ->
  cache_probe id w = None ->
  UpdateProduct id req w = (Ok p', w') ->
  exists r,
    first_by_pk ID (fun p => N.eqb (ID p) id) (products w) = Some r
    /\ p' = (let loaded := preload_Category (categories w) r in
             set_Category_ (category_defaults (now w) <$> Category_ loaded)
               (set_times (CreatedAt r) (now w) (apply_update req loaded)))
    /\ fst (GetProduct id w') = Ok (preload_Category (categories w) (row p')).
Proof.
  intros Hid Hkeep Hrf Hdf Hprobe. unfold UpdateProduct.
  destruct (validate_update req); simpl; [|discriminate].
  unfold bind at 1.
  destruct (GetByID_fallthrough id w Hprobe) as [Hres _].
  destruct (GetByID_frame id w) as (Hps1 & Hcs1 & Hnow1 & Hrf1 & Hdf1).
  destruct (GetByID id w) as [r1 w1] eqn:Hg. simpl in *. subst r1.
  specialize (Hrf1 Hrf). specialize (Hdf1 Hdf).
  unfold store_lookup. rewrite Hdf. simpl.
  destruct (first_by_pk ID (fun p => N.eqb (ID p) id) (products w)) as [r|] eqn:Hrow;
    [|simpl; unfold ret; discriminate].
  exists r. split; [reflexivity|].
  apply first_by_pk_Some in Hrow as [Hrin Hrid]. apply N.eqb_eq in Hrid.
  set (product := preload_Category (categories w) r) in *.
  assert (Hpid : ID (apply_update req product) = id) by (subst product; exact Hrid).
  assert (Hstored : exists r0, r0 ∈ products w1 /\ ID r0 = ID (apply_update req product)).
  { exists r. rewrite Hps1, Hpid. auto. }
  assert (Hloaded : forall c, Category_ (apply_update req product) = Some c ->
                      c ∈ categories w1 /\ cat_ID c = CategoryID (apply_update req product)).
  { intros c Hc. unfold apply_update, product in Hc |- *. simpl in Hc |- *.
    rewrite Hkeep. simpl.
    apply first_by_pk_Some in Hc as [Hcin Hcid]. apply N.eqb_eq in Hcid.
    rewrite Hcs1. auto. }
  match goal with Hrun : _ = (Ok p', w') |- _ => revert Hrun end. unfold bind at 1.
  (* the SKU check leaves the world as it is *)
  assert (Hsku : forall (m : Repo (option error)) e0 w0,
    m = match ur_SKU req with
        | Some sku =>
            if negb (String.eqb sku (SKU product)) then
              let* r := GetBySKU sku in
              match r with
              | Err err =>
                  if negb (IsNotFound err)
                  then ret (Some (NewInternalError "Failed to validate SKU" (Some err)))
                  else ret None
              | Ok existing => ret (Some (NewConflictError "SKU already exists" None))
              end
            else ret None
        | None => ret None
        end ->
    m w1 = (e0, w0) -> w0 = w1).
  { intros m e0 w0 -> . destruct (ur_SKU req) as [sku|]; [|intros [= _ <-]; reflexivity].
    destruct (negb _); [|intros [= _ <-]; reflexivity].
    unfold bind. pose proof (GetBySKU_idle sku w1 Hdf1) as Hi.
    destruct (GetBySKU sku w1) as [[x|e] wx]; simpl in Hi; subst wx;
      [intros [= _ <-]; reflexivity|].
    destruct (negb (IsNotFound e)); intros [= _ <-]; reflexivity. }
  match goal with
  | |- (let (a, w'0) := ?m w1 in _) = _ -> _ =>
      destruct (m w1) as [e0 w0] eqn:Hm;
      pose proof (Hsku m e0 w0 eq_refl Hm) as Hw0; subst w0
  end.
  destruct e0 as [e0|]; [unfold ret; discriminate|].
  unfold bind at 1.
  assert (Hcat : forall (m : Repo (option error)) e0 w0,
    m = match ur_CategoryID req with
        | Some c =>
            let* r := GetCategory c in
            match r with
            | Err err =>
                if IsNotFound err
                then ret (Some (NewNotFoundError "Category not found" (Some err)))
                else ret (Some (NewInternalError "Failed to verify category" (Some err)))
            | Ok _ => ret None
            end
        | None => ret None
        end ->
    m w1 = (e0, w0) -> w0 = w1).
  { intros m e0 w0 -> . destruct (ur_CategoryID req) as [c|]; [|intros [= _ <-]; reflexivity].
    unfold bind. pose proof (GetCategory_idle c w1 Hdf1) as Hi.
    destruct (GetCategory c w1) as [[x|e] wx]; simpl in Hi; subst wx;
      [intros [= _ <-]; reflexivity|].
    destruct (IsNotFound e); intros [= _ <-]; reflexivity. }
  match goal with
  | |- (let (a, w'0) := ?m w1 in _) = _ -> _ =>
      destruct (m w1) as [e1 w0] eqn:Hm1;
      pose proof (Hcat m e1 w0 eq_refl Hm1) as Hw0; subst w0
  end.
  destruct e1 as [e1|]; [unfold ret; discriminate|].
  unfold bind at 1.
  destruct (Update (apply_update req product) w1) as [[pu [e|]] w2] eqn:Hupd;
    [unfold ret; discriminate|].
  destruct (Update_effect _ _ _ _ ltac:(now rewrite Hpid) Hstored Hloaded Hupd Hrf1 Hdf1)
    as (Hpu & Hrow2 & Hcs2 & Hc2 & Hrf2 & Hdf2).
  rewrite Hpid in Hrow2, Hc2.
  destruct (sweep_frame w2) as (Hps3 & Hcs3 & Hdf3 & _ & _).
  pose proof (sweep_keeps_absent w2 _ Hc2) as Hc3.
  unfold bind, ret.
  destruct (InvalidateProductCache w2) as [r3 w3] eqn:Hs. simpl in *.
  intros [= <- <-].
  split.
  - rewrite Hpu, Hnow1. reflexivity.
  - rewrite (GetProduct_of_store id w3 (absent_key_probe _ _ Hc3)).
    unfold store_lookup. rewrite Hdf3, Hdf2, Hps3, Hrow2, Hcs3, Hcs2, Hcs1. reflexivity.
Qed.

End Read_your_updates.

Lemma updated_product_is_read_witness :
  exists r,
    first_by_pk ID (fun p => N.eqb (ID p) 0xb2%N) (products Demo.warm) = Some r
    /\ fst (@UpdateProduct Demo.codec 0xb2%N Demo.reprice Demo.warm)
       = Ok (set_times (CreatedAt r) (now Demo.warm)
               (apply_update Demo.reprice (preload_Category (categories Demo.warm) r)))
    /\ price_of (fst (@GetProduct Demo.codec 0xb2%N
                        (snd (@UpdateProduct Demo.codec 0xb2%N Demo.reprice Demo.warm))))
       = Some 50%float.
Proof.
  destruct (@updated_product_is_read Demo.codec 0xb2%N Demo.reprice Demo.warm
              (snd (@UpdateProduct Demo.codec 0xb2%N Demo.reprice Demo.warm))
              (set_times 200 1000 (apply_update Demo.reprice Demo.sp)))
    as (r & Hr & Hp & Hget);
    [lia | reflexivity | vm_compute; reflexivity | vm_compute; reflexivity
    | vm_compute; reflexivity | vm_compute; reflexivity |].
  exists r. split; [exact Hr|]. split.
  - vm_compute in Hr. injection Hr as <-. vm_compute. reflexivity.
  - rewrite Hget. vm_compute. reflexivity.
Defined.


(** ** Categories *)

Lemma save_Parent_frame (c : Category) (w : World) :
  products (snd (save_Parent c w)) = products w
  /\ cache (snd (save_Parent c w)) = cache w
  /\ redis_log (snd (save_Parent c w)) = redis_log w
  /\ redis_faults (snd (save_Parent c w)) = redis_faults w
  /\ db_faults (snd (save_Parent c w)) = db_faults w
  /\ now (snd (save_Parent c w)) = now w.
Proof.
  unfold save_Parent. destruct (cat_Parent c) as [parent|]; [|auto 10].
  destruct (save_belongs_to_frame parent w) as (Hp & Hc & Hl & Hrf & Hdf & Hn & _).
  destruct (save_belongs_to parent w) as [c' w1]; simpl in *. auto 10.
Qed.

Lemma save_has_many_frame (owner : UUID) (children saved : list Category)
    (w w' : World) :
  save_has_many owner children w = Some (saved, w') ->
  products w' = products w /\ cache w' = cache w /\ redis_log w' = redis_log w
  /\ redis_faults w' = redis_faults w /\ db_faults w' = db_faults w /\ now w' = now w.
Proof.
  revert saved w w'. induction children as [|child rest IH]; simpl; intros saved w w'.
  - intros [= <- <-]. auto 10.
  - destruct (save_child owner child w) as [[child' w1]|] eqn:Hchild; [|discriminate].
    destruct (save_has_many owner rest w1) as [[rest' w2]|] eqn:Hrest; [|discriminate].
    intros [= <- <-]. destruct (IH _ _ _ Hrest) as (Hp & Hc & Hl & Hrf & Hdf & Hn).
    revert Hchild. unfold save_child.
    destruct (with_key_frame (cat_ID child) w)
      as (Hp0 & _ & Hc0 & Hl0 & Hrf0 & Hdf0 & Hn0 & _).
    destruct (with_key (cat_ID child) w) as [id w0]; simpl in *.
    repeat case_match; intros [= <- <-]; simpl in *; repeat split; congruence.
Qed.

(** A write to the categories table changes neither the cache nor the
    products table. *)
Lemma db_Save_category_frame (c : Category) (w : World) :
  cache (snd (db_Save_category c w)) = cache w
  /\ redis_log (snd (db_Save_category c w)) = redis_log w
  /\ redis_faults (snd (db_Save_category c w)) = redis_faults w
  /\ products (snd (db_Save_category c w)) = products w
  /\ cache (snd (db_Create_category c w)) = cache w
  /\ redis_log (snd (db_Create_category c w)) = redis_log w
  /\ redis_faults (snd (db_Create_category c w)) = redis_faults w
  /\ products (snd (db_Create_category c w)) = products w.
Proof.
  assert (Hcreate : cache (snd (db_Create_category c w)) = cache w
                    /\ redis_log (snd (db_Create_category c w)) = redis_log w
                    /\ redis_faults (snd (db_Create_category c w)) = redis_faults w
                    /\ products (snd (db_Create_category c w)) = products w).
  { unfold db_Create_category, bind, ret.
    destruct (db_exec_frame w) as (Hp0 & _ & Hc0 & Hl0 & Hrf0 & _).
    destruct (db_exec w) as [[] w0]; simpl in *; [|auto].
    destruct (save_Parent_frame c w0) as (Hp1 & Hc1 & Hl1 & Hrf1 & _).
    destruct (save_Parent c w0) as [c1 w1]; simpl in *.
    destruct (with_key_frame (cat_ID c) w1) as (Hp2 & _ & Hc2 & Hl2 & Hrf2 & _).
    destruct (with_key (cat_ID c) w1) as [id w2]; simpl in *.
    destruct (existsb _ (categories w1)); simpl; [auto|].
    match goal with
    | |- context [save_has_many ?o ?l ?x] =>
        destruct (save_has_many o l x) as [[saved w3]|] eqn:Hmany; simpl; [|auto]
    end.
    apply save_has_many_frame in Hmany as (Hp3 & Hc3 & Hl3 & Hrf3 & _).
    simpl in *. repeat split; congruence. }
  split; [|split; [|split; [|split; [|exact Hcreate]]]];
    unfold db_Save_category; (destruct (N.eqb (cat_ID c) 0); [apply Hcreate|]);
    unfold bind, ret;
    destruct (db_exec_frame w) as (Hp0 & _ & Hc0 & Hl0 & Hrf0 & _);
    (destruct (db_exec w) as [[] w0]; simpl in *; [|auto]);
    destruct (save_Parent_frame c w0) as (Hp1 & Hc1 & Hl1 & Hrf1 & _);
    destruct (save_Parent c w0) as [c1 w1]; simpl in *;
    (destruct (existsb _ (categories w1)); simpl; [auto|]);
    (destruct (existsb _ (categories w1)); simpl);
    match goal with
    | |- context [save_has_many ?o ?l ?x] =>
        destruct (save_has_many o l x) as [[saved w3]|] eqn:Hmany; simpl; [|auto];
        apply save_has_many_frame in Hmany as (Hp3 & Hc3 & Hl3 & Hrf3 & _);
        simpl in *; congruence
    end.
Qed.

Section Category_facts.
Context `{Lib} `{CategoryLib}.

(** X18. Categories are not cached: none of the six category methods of
    the repository issues a cache command or changes the cache, and none
    changes the products table. *)
Theorem category_methods_bypass_cache (c : Category) (id : UUID) (name : string)
    (w : World) :
  let untouched (w' : World) :=
    cache w' = cache w /\ redis_log w' = redis_log w
    /\ redis_faults w' = redis_faults w /\ products w' = products w in
  untouched (snd (CreateCategory c w))
  /\ untouched (snd (GetCategory id w))
  /\ untouched (snd (GetCategoryByName name w))
  /\ untouched (snd (UpdateCategory c w))
  /\ untouched (snd (DeleteCategory id w))
  /\ untouched (snd (ListCategories w)).
Proof.
  destruct (db_Save_category_frame c w) as (Hs1 & Hs2 & Hs3 & Hs4 & Hc1 & Hc2 & Hc3 & Hc4).
  unfold CreateCategory, GetCategory, GetCategoryByName, UpdateCategory, DeleteCategory,
    ListCategories, db_First_category, db_First_category_by_name,
    db_Delete_category, db_Find_categories, bind, ret.
  destruct (db_Create_category c w) as [[c1 [e1|]] w1];
    destruct (db_Save_category c w) as [[c2 [e2|]] w2]; simpl in *;
    (repeat split; try assumption);
    unfold db_exec; destruct w as [ps cs ch lg rf df t en dr]; simpl;
    repeat (case_match; simpl; simplify_eq/=); reflexivity.
Qed.

(** X19. A category name is taken once: when a row already has the name
    and the database answers, [CreateCategory] of the service returns the
    conflict error and changes nothing; and whenever it succeeds, no row
    had the name before and the new row is the only one that has it
    afterwards. *)
Theorem category_names_unique (req : CreateCategoryRequest) (w : World) :
  (validate_create_category req = true ->
   db_faults w = [] ->
   (exists c, c ∈ categories w /\ cat_Name c = ccr_Name req) ->
   CategoryService.CreateCategory req w
   = (Err (NewConflictError "Category name already exists" None), w))
  /\ (forall created w',
        CategoryService.CreateCategory req w = (Ok created, w') ->
        (forall c, c ∈ categories w -> cat_Name c <> ccr_Name req)
        /\ cat_Name created = ccr_Name req
        /\ categories w' = (categories w ++ [cat_row created])%list).
Proof.
  split.
  - intros Hv Hdf (c & Hin & Hname).
    unfold CategoryService.CreateCategory. rewrite Hv. simpl.
    unfold GetCategoryByName, db_First_category_by_name, db_exec, bind, ret.
    destruct w as [ps cs ch lg rf df t en dr]; simpl in *. subst df. simpl.
    destruct (first_by_pk cat_ID (fun c0 => String.eqb (cat_Name c0) (ccr_Name req)) cs)
      as [c0|] eqn:Hf; [reflexivity|].
    exfalso.
    assert (Hsome : first_by_pk cat_ID
                      (fun c0 => String.eqb (cat_Name c0) (ccr_Name req)) cs <> None).
    { clear Hf. induction cs as [|x cs IH]; [inversion Hin|]. simpl.
      apply elem_of_cons in Hin as [<-|Hin].
      - rewrite Hname, String.eqb_refl.
        destruct (first_by_pk _ _ cs) as [r'|]; [destruct (N.leb _ _)|]; discriminate.
      - specialize (IH Hin). destruct (String.eqb (cat_Name x) (ccr_Name req)); [|exact IH].
        destruct (first_by_pk _ _ cs) as [r'|]; [destruct (N.leb _ _); discriminate|].
        contradiction. }
    contradiction.
  - intros created w'. unfold CategoryService.CreateCategory.
    destruct (validate_create_category req); simpl; [|discriminate].
    unfold bind at 1.
    destruct (GetCategoryByName (ccr_Name req) w) as [[x|e] w1] eqn:Hn; [discriminate|].
    destruct (negb (IsNotFound e)); [discriminate|].
    unfold bind at 1.
    match goal with
    | |- (let (a, w'0) := ?m w1 in _) = _ -> _ => destruct (m w1) as [[e1|] w2] eqn:Hm
    end; [discriminate|].
    unfold bind at 1.
    destruct (CreateCategory _ w2) as [[cr [e2|]] w3] eqn:Hc; [discriminate|].
    intros [= <- <-].
    (* the checks before the insert do not change the table *)
    assert (Hcs1 : categories w1 = categories w).
    { revert Hn. unfold GetCategoryByName, db_First_category_by_name, db_exec, bind, ret.
      destruct w as [ps cs ch lg rf df t en dr]; simpl.
      repeat (case_match; simpl; simplify_eq/=); intros; simplify_eq/=; reflexivity. }
    assert (Hcs2 : categories w2 = categories w1).
    { revert Hm. destruct (ccr_ParentID req) as [pid|]; [|intros [= <-]; reflexivity].
      unfold GetCategory, db_First_category, db_exec, bind, ret.
      destruct w1 as [ps cs ch lg rf df t en dr]; simpl.
      repeat (case_match; simpl; simplify_eq/=); intros; simplify_eq/=; reflexivity. }
    revert Hc. unfold CreateCategory, db_Create_category, db_exec, bind, ret.
    rewrite <- Hcs1, <- Hcs2.
    destruct w2 as [ps cs ch lg rf df t en dr]; simpl.
    destruct df as [|[] df]; simpl; try discriminate;
      (destruct (existsb _ cs) eqn:Hex; simpl; [discriminate|]);
      intros [= <- <-]; simpl; (repeat split; auto);
      intros c Hin; pose proof (existsb_false_elem _ _ _ Hex Hin) as Hno; simpl in Hno;
      apply orb_false_iff in Hno as [_ Hno]; now apply String.eqb_neq in Hno.
Qed.

End Category_facts.


Section Category_deletion.
Context `{Lib} `{CategoryLib}.

(** X20. [DeleteCategory] of the service decides "has products" through
    the product cache: its usage check is the listing of the filter set
    category = id, limit 1, which is cacheable.  When the cache holds a
    page under that key, the page alone decides -- an empty page lets the
    category be deleted, a non-empty one is answered with the conflict
    error -- whatever the products table holds. *)
Theorem category_usage_check_is_cached (id : UUID) (w : World) (c : Category)
    (e : Entry) (page : list Product) (total : Z) :
  let key := buildCacheKey (mkFilters (Some id) None None "" None None 1 0 "" "") in
  hd false (redis_faults w) = false ->
  db_faults w = [] ->
  first_by_pk cat_ID (fun c' => N.eqb (cat_ID c') id) (categories w) = Some c ->
  cache w !! key = Some e ->
  json_Unmarshal_list (payload e) = Some (page, total) ->
  key <> ""
  /\ fst (CategoryService.DeleteCategory id w)
     = (if Nat.ltb 0 (length page)
        then Some (NewConflictError "Cannot delete category with products" None)
        else None)
  /\ categories (snd (CategoryService.DeleteCategory id w))
     = (if Nat.ltb 0 (length page) then categories w
        else filter (fun r => N.eqb (cat_ID r) id = false) (categories w))
  /\ products (snd (CategoryService.DeleteCategory id w)) = products w.
Proof.
  intros key Hup Hdf Hcat Hkey Hdec.
  assert (Hne : key <> "").
  { subst key. intros Hk. apply buildCacheKey_empty_iff in Hk. simpl in Hk.
    destruct Hk as [Hk|[Hk|Hk]]; congruence. }
  split; [assumption|].
  unfold CategoryService.DeleteCategory, GetCategory, db_First_category, List_,
    DeleteCategory, db_Delete_category.
  fold key.
  destruct (str_empty key) eqn:Hs; [apply str_empty_spec in Hs; contradiction|].
  unfold redis_Get, redis_send, db_exec, bind, ret.
  destruct w as [ps cs ch lg rf df t en dr]; simpl in *. subst df. simpl.
  rewrite Hcat. simpl.
  destruct rf as [|[] rf]; simpl in *; try discriminate;
    rewrite Hkey; simpl; rewrite Hdec; simpl;
    destruct (Nat.ltb 0 (length page)); simpl; auto.
Qed.

(** X21. A fresh usage check sorts by the blank clause: the filter set
    [DeleteCategory] builds has neither sort field nor direction, so the
    query is ordered by [" "] followed by the upper-cased empty string.
    On a database that rejects this clause, and with nothing usable
    cached under the key, [DeleteCategory] returns the internal error
    "Failed to check category usage" and deletes nothing. *)
Theorem category_usage_check_blank_order (id : UUID) (w : World) (c : Category) :
  let filters := mkFilters (Some id) None None "" None None 1 0 "" "" in
  db_faults w = [] ->
  first_by_pk cat_ID (fun c' => N.eqb (cat_ID c') id) (categories w) = Some c ->
  cache w !! buildCacheKey filters = None ->
  sql_ORDER_BY (" " +:+ strings_ToUpper "") (selected (filtered filters) (products w))
  = None ->
  q_order (sorted_page filters (filtered filters)) = Some (" " +:+ strings_ToUpper "")
  /\ fst (CategoryService.DeleteCategory id w)
     = Some (NewInternalError "Failed to check category usage"
               (Some (Errorf "failed to list products" db_failure)))
  /\ categories (snd (CategoryService.DeleteCategory id w)) = categories w.
Proof.
  intros filters Hdf Hcat Hmiss Hrej.
  split; [reflexivity|].
  unfold CategoryService.DeleteCategory, GetCategory, db_First_category, List_.
  fold filters.
  destruct (str_empty (buildCacheKey filters)) eqn:Hs.
  { exfalso. apply str_empty_spec, buildCacheKey_empty_iff in Hs. simpl in Hs.
    destruct Hs as [Hk|[Hk|Hk]]; congruence. }
  unfold db_Count, db_Find, redis_Get, redis_send, db_exec, bind, ret.
  destruct w as [ps cs ch lg rf df t en dr]; simpl in *. subst df. simpl.
  rewrite Hcat. simpl.
  destruct rf as [|[] rf]; simpl in *; rewrite ?Hmiss; simpl;
    change (sql_ORDER_BY ("" +:+ " " +:+ strings_ToUpper "")
              (selected (sorted_page filters (filtered filters)) ps))
      with (sql_ORDER_BY (" " +:+ strings_ToUpper "") (selected (filtered filters) ps));
    rewrite Hrej; simpl; auto.
Qed.

End Category_deletion.

Lemma category_usage_check_is_cached_witness :
  Fixture.usage_key 0xc0%N <> ""
  /\ fst (@CategoryService.DeleteCategory Fixture.usage_codec 0xc0%N Fixture.stale_usage)
     = None
  /\ categories (snd (@CategoryService.DeleteCategory Fixture.usage_codec 0xc0%N
                        Fixture.stale_usage)) = []
  /\ products (snd (@CategoryService.DeleteCategory Fixture.usage_codec 0xc0%N
                      Fixture.stale_usage))
     = [Demo.headphones; Demo.speaker].
Proof.
  apply (@category_usage_check_is_cached Fixture.usage_codec 0xc0%N Fixture.stale_usage
           Demo.audio (mkEntry (Demo.print_list ([], 0)) (5 * Minute)) [] 0);
    vm_compute; reflexivity.
Defined.

Lemma category_usage_check_blank_order_witness :
  q_order (@sorted_page Demo.codec (mkFilters (Some 0xc0%N) None None "" None None 1 0 "" "")
             (@filtered Demo.codec (mkFilters (Some 0xc0%N) None None "" None None 1 0 "" "")))
  = Some " "
  /\ fst (@CategoryService.DeleteCategory Demo.codec 0xc0%N Demo.world0)
     = Some (NewInternalError "Failed to check category usage"
               (Some (Errorf "failed to list products" db_failure)))
  /\ categories (snd (@CategoryService.DeleteCategory Demo.codec 0xc0%N Demo.world0))
     = categories Demo.world0.
Proof.
  apply (@category_usage_check_blank_order Demo.codec 0xc0%N Demo.world0 Demo.audio);
    vm_compute; reflexivity.
Defined.

(** ** Configuration *)

Lemma digits_value_to_uint (p : positive) :
  digits_value (NilZero.string_of_uint (Pos.to_uint p)) = Some (Z.pos p).
Proof.
  assert (Hnil : Pos.to_uint p <> Decimal.Nil).
  { intros E. pose proof (DecimalPos.Unsigned.of_to p) as Hp.
    rewrite E in Hp. discriminate Hp. }
  unfold digits_value.
  pose proof (NilZero.usu _ Hnil) as Hu.
  destruct (NilZero.string_of_uint (Pos.to_uint p)) as [|c s] eqn:Es.
  - discriminate Hu.
  - simpl str_empty. cbv iota. rewrite Hu.
    unfold N.of_uint. rewrite DecimalPos.Unsigned.of_to. reflexivity.
Qed.

Lemma digits_head (d : Decimal.uint) (c : ascii) (s : string) :
  NilZero.string_of_uint d = String c s ->
  Ascii.eqb c "-" = false /\ Ascii.eqb c "+" = false.
Proof.
  destruct d; simpl; intros E; injection E as <- _; split; reflexivity.
Qed.

Lemma Atoi_fmt_d (n : Z) :
  - 2 ^ 63 <= n < 2 ^ 63 -> strconv_Atoi (fmt_d n) = Some n.
Proof.
  intros Hn.
  assert (Hr : (Z.leb (- 2 ^ 63) n && Z.ltb n (2 ^ 63))%bool = true).
  { apply andb_true_iff. split; [apply Z.leb_le | apply Z.ltb_lt]; lia. }
  unfold strconv_Atoi, fmt_d.
  destruct n as [|p|p]; simpl Z.to_int; simpl NilZero.string_of_int.
  - reflexivity.
  - pose proof (digits_value_to_uint p) as Hd.
    destruct (NilZero.string_of_uint (Pos.to_uint p)) as [|c s] eqn:Es.
    + discriminate Hd.
    + destruct (digits_head _ _ _ Es) as [-> ->]. rewrite Hd, Hr. reflexivity.
  - change (match Z.opp <$> digits_value (NilZero.string_of_uint (Pos.to_uint p)) with
            | Some n => if Z.leb (- 2 ^ 63) n && Z.ltb n (2 ^ 63) then Some n else None
            | None => None
            end = Some (Z.neg p)).
    rewrite digits_value_to_uint.
    change (Z.opp <$> Some (Z.pos p)) with (Some (Z.neg p)).
    cbv beta iota. rewrite Hr. reflexivity.
Qed.

Lemma fmt_d_nonempty (n : Z) : str_empty (fmt_d n) = false.
Proof.
  unfold fmt_d. destruct n as [|p|p]; simpl; try reflexivity.
  pose proof (digits_value_to_uint p) as Hd. unfold digits_value in Hd.
  destruct (str_empty _); [discriminate Hd | reflexivity].
Qed.

Lemma getEnvAsInt_fallback (env : Config.Env) (key : string) (d : Z) :
  strconv_Atoi (env key) = None -> Config.getEnvAsInt env key d = d.
Proof.
  unfold Config.getEnvAsInt. intros ->. destruct (negb _); reflexivity.
Qed.

(** X22. [getEnvAsInt] reads back every [int] printed in decimal, and
    falls back to the default exactly when the variable is unset, empty or
    not such a numeral. *)
Theorem getEnvAsInt_spec (env : Config.Env) (key : string) (d : Z) :
  (forall n, - 2 ^ 63 <= n < 2 ^ 63 -> env key = fmt_d n ->
     Config.getEnvAsInt env key d = n) /\
  (strconv_Atoi (env key) = None -> Config.getEnvAsInt env key d = d) /\
  (Config.getEnvAsInt env key d <> d ->
     strconv_Atoi (env key) = Some (Config.getEnvAsInt env key d)).
Proof.
  unfold Config.getEnvAsInt. repeat split.
  - intros n Hn ->. rewrite fmt_d_nonempty, (Atoi_fmt_d n Hn). reflexivity.
  - apply getEnvAsInt_fallback.
  - destruct (env key) as [|c s]; simpl negb; cbv iota.
    + congruence.
    + destruct (strconv_Atoi (String c s)); congruence.
Qed.

Lemma getEnvAsInt_spec_witness :
  Config.getEnvAsInt (Fixture.environment [("DB_PORT", "-15432")]) "DB_PORT" 5432 = - 15432
  /\ Config.getEnvAsInt (Fixture.environment [("DB_PORT", "5432 ")]) "DB_PORT" 5432 = 5432
  /\ strconv_Atoi "6543" = Some 6543.
Proof.
  split; [|split].
  - apply (proj1 (getEnvAsInt_spec (Fixture.environment [("DB_PORT", "-15432")]) "DB_PORT" 5432) (- 15432)).
    + lia.
    + reflexivity.
  - apply (proj1 (proj2 (getEnvAsInt_spec (Fixture.environment [("DB_PORT", "5432 ")]) "DB_PORT" 5432))).
    reflexivity.
  - apply (proj2 (proj2 (getEnvAsInt_spec (Fixture.environment [("DB_PORT", "6543")]) "DB_PORT" 5432))).
    discriminate.
Defined.

Lemma getEnv_nonempty (env : Config.Env) (key d : string) :
  d <> "" -> Config.getEnv env key d <> "".
Proof.
  unfold Config.getEnv. destruct (env key); simpl; [auto | discriminate].
Qed.

(** X23. Whatever the environment holds, [Load] leaves no string
    setting empty except the Redis password, which is the variable as it
    is; and a port variable that is not a decimal [int] gives the default
    port. *)
Theorem Load_settings (env : Config.Env) :
  let cfg := Config.Load env in
  Forall (fun s => s <> "")
    [Config.http_Port (Config.HTTP cfg); Config.grpc_Port (Config.GRPC cfg);
     Config.db_Host (Config.Database cfg); Config.db_User (Config.Database cfg);
     Config.db_Password (Config.Database cfg); Config.db_Name (Config.Database cfg);
     Config.db_SSLMode (Config.Database cfg); Config.db_TimeZone (Config.Database cfg);
     Config.redis_Host (Config.Redis cfg); Config.log_Level (Config.Logger cfg)]
  /\ Config.redis_Password (Config.Redis cfg) = env "REDIS_PASSWORD"
  /\ (strconv_Atoi (env "DB_PORT") = None -> Config.db_Port (Config.Database cfg) = 5432)
  /\ (strconv_Atoi (env "REDIS_PORT") = None -> Config.redis_Port (Config.Redis cfg) = 6379).
Proof.
  simpl. split; [|split; [|split]].
  - repeat (apply Forall_cons; split; [apply getEnv_nonempty; discriminate|]).
    apply Forall_nil. exact I.
  - unfold Config.getEnv. now destruct (env "REDIS_PASSWORD").
  - apply (getEnvAsInt_fallback env "DB_PORT" 5432).
  - apply (getEnvAsInt_fallback env "REDIS_PORT" 6379).
Qed.

Lemma Load_settings_witness :
  Config.db_Port (Config.Database (Config.Load (Fixture.environment [("DB_PORT", "5432/tcp")])))
  = 5432.
Proof.
  apply (proj1 (proj2 (proj2 (Load_settings (Fixture.environment [("DB_PORT", "5432/tcp")]))))).
  reflexivity.
Defined.

Lemma list_endpoint_search_bypasses_cache_witness :
  redis_log (snd (@Handler.ListProducts Demo.codec Fixture.parsers
                    (Fixture.request [] [("search", "wire")]) Demo.warm))
  = redis_log Demo.warm
  /\ cache (snd (@Handler.ListProducts Demo.codec Fixture.parsers
                   (Fixture.request [] [("search", "wire")]) Demo.warm))
     = cache Demo.warm
  /\ redis_faults (snd (@Handler.ListProducts Demo.codec Fixture.parsers
                          (Fixture.request [] [("search", "wire")]) Demo.warm))
     = redis_faults Demo.warm.
Proof.
  apply (@list_endpoint_search_bypasses_cache Demo.codec Fixture.parsers
           (Fixture.request [] [("search", "wire")]) Demo.warm).
  vm_compute. discriminate.
Defined.

Lemma product_endpoint_status_witness :
  @Handler.GetProduct Demo.codec Fixture.parsers
    (Fixture.request [("id", "a1")] []) Demo.world0
  = (Handler.respond_Error 400 "Invalid product ID" (Handler.ParseError "a1"),
     Demo.world0)
  /\ fst (@Handler.GetProduct Demo.codec Fixture.parsers
            (Fixture.request [("id", uuid_String 0xdead%N)] []) Demo.world0)
     = Handler.respond_Error 404 "Resource not found"
         (Handler.ErrorText
            (NewNotFoundError "Product not found"
               (Some (NewNotFoundError "Product not found"
                        (Some gorm_ErrRecordNotFound))))).
Proof.
  split.
  - apply (proj1 (@product_endpoint_status Demo.codec Fixture.parsers
                    (Fixture.request [("id", "a1")] []) Demo.world0)).
    vm_compute. reflexivity.
  - apply (proj2 (@product_endpoint_status Demo.codec Fixture.parsers
                    (Fixture.request [("id", uuid_String 0xdead%N)] []) Demo.world0)
             0xdead%N); vm_compute; reflexivity.
Defined.

Lemma category_names_unique_witness :
  @CategoryService.CreateCategory Fixture.categories_lib
    (mkCreateCategoryRequest "Audio" "" None) Demo.world0
  = (Err (NewConflictError "Category name already exists" None), Demo.world0)
  /\ categories (snd (@CategoryService.CreateCategory Fixture.categories_lib
                        (mkCreateCategoryRequest "Video" "" None) Demo.world0))
     = (categories Demo.world0
        ++ [cat_row (mkCategory 0xf000%N "Video" "" None None [] true 1000 1000)])%list.
Proof.
  split.
  - apply (proj1 (@category_names_unique Fixture.categories_lib
                    (mkCreateCategoryRequest "Audio" "" None) Demo.world0)).
    + reflexivity.
    + reflexivity.
    + exists Demo.audio. split; [left | reflexivity].
  - refine (proj2 (proj2 (proj2 (@category_names_unique Fixture.categories_lib
                    (mkCreateCategoryRequest "Video" "" None) Demo.world0)
             (mkCategory 0xf000%N "Video" "" None None [] true 1000 1000)
             (snd (@CategoryService.CreateCategory Fixture.categories_lib
                        (mkCreateCategoryRequest "Video" "" None) Demo.world0))
             _))).
    vm_compute. reflexivity.
Defined.

(** ** Creating a product *)

Lemma first_by_pk_finds {A} (pk : A -> UUID) (f : A -> bool) (rows : list A) :
  (exists x, x ∈ rows /\ f x = true) -> first_by_pk pk f rows <> None.
Proof.
  intros (x & Hin & Hfx). induction rows as [|y rows IH]; [inversion Hin|]. simpl.
  apply elem_of_cons in Hin as [<-|Hin].
  - rewrite Hfx. destruct (first_by_pk pk f rows); [destruct (N.leb _ _)|]; discriminate.
  - specialize (IH Hin). destruct (f y); [|exact IH].
    destruct (first_by_pk pk f rows); [destruct (N.leb _ _); discriminate | contradiction].
Qed.

Lemma GetBySKU_miss (sku : string) (e : error) (w w1 : World) :
  GetBySKU sku w = (Err e, w1) ->
  products w1 = products w /\ categories w1 = categories w.
Proof.
  unfold_repo. destruct w as [ps cs c lg rf df t en dr]; simpl.
  repeat (case_match; simpl; simplify_eq/=); intros; simplify_eq/=; auto.
Qed.

Lemma GetCategory_found (id : UUID) (c : Category) (w w1 : World) :
  GetCategory id w = (Ok c, w1) ->
  products w1 = products w /\ categories w1 = categories w
  /\ exists r, r ∈ categories w /\ cat_ID r = id.
Proof.
  unfold_repo. destruct w as [ps cs ch lg rf df t en dr]; simpl.
  destruct df as [|[] df]; simpl; try discriminate;
    (destruct (first_by_pk cat_ID _ cs) as [r|] eqn:Hr; simpl; [|discriminate]);
    intros; simplify_eq/=; (repeat split; auto);
    apply first_by_pk_Some in Hr as [Hin Hid]; exists r; split; auto;
    now apply N.eqb_eq.
Qed.

Lemma Create_effect (p created : Product) (w w1 : World) :
  Category_ p = None ->
  IsActive p = true ->
  Create p w = ((created, None), w1) ->
  (forall r, r ∈ products w -> SKU r <> SKU p /\ ID r <> ID created)
  /\ products w1 = (products w ++ [row created])%list
  /\ categories w1 = categories w
  /\ set_times (CreatedAt created) (UpdatedAt created) (set_ID (ID created) p) = created.
Proof.
  intros Hcat Hact. unfold Create, bind, ret.
  destruct (db_Create p w) as [[pc [e|]] w'] eqn:Hc; [discriminate|].
  intros [= <- <-].
  destruct (db_Create_plain _ _ _ _ Hcat Hact Hc)
    as (_ & Hfresh & _ & Hpc & Hps & Hcs & _).
  split; [intros r Hin; destruct (Hfresh r Hin); auto|].
  do 2 (split; [assumption|]).
  rewrite Hpc at 4. rewrite Hpc at 1 2. reflexivity.
Qed.

Section Product_creation.
Context `{Lib}.

(** X24. [CreateProduct] of the service keeps SKUs unique and products
    inside existing categories: with a row of that SKU in the table and
    an answering database it returns the conflict error and changes
    nothing, and whenever it succeeds no row had the SKU, the category
    exists, and exactly one row was added, which is the returned product:
    active, with a fresh id and the request's fields. *)
Theorem create_product_checks (req : CreateProductRequest) (w : World) :
  (validate_create req = true ->
   db_faults w = [] ->
   (exists p, p ∈ products w /\ SKU p = cr_SKU req) ->
   CreateProduct req w = (Err (NewConflictError "SKU already exists" None), w))
  /\ (forall created w',
        CreateProduct req w = (Ok created, w') ->
        (forall p, p ∈ products w -> SKU p <> cr_SKU req /\ ID p <> ID created)
        /\ (exists c, c ∈ categories w /\ cat_ID c = cr_CategoryID req)
        /\ products w' = (products w ++ [row created])%list
        /\ created
           = set_times (CreatedAt created) (UpdatedAt created)
               (mkProduct (ID created) (cr_Name req) (cr_Description req) (cr_Price req)
                  (cr_CategoryID req) None (cr_Stock req) (cr_ImageURL req)
                  (cr_SKU req) true 0 0)).
Proof.
  split.
  - intros Hv Hdf (p & Hin & Hsku).
    unfold CreateProduct. rewrite Hv. simpl. unfold_repo.
    destruct w as [ps cs ch lg rf df t en dr]; simpl in *. subst df. simpl.
    destruct (first_by_pk ID (fun p0 => String.eqb (SKU p0) (cr_SKU req)) ps) eqn:Hf;
      [reflexivity|].
    exfalso. revert Hf. apply first_by_pk_finds. exists p. split; [exact Hin|].
    now apply String.eqb_eq.
  - intros created w'. unfold CreateProduct.
    destruct (validate_create req); simpl; [|discriminate].
    unfold bind at 1.
    destruct (GetBySKU (cr_SKU req) w) as [[x|e] w1] eqn:Hs; [discriminate|].
    destruct (negb (IsNotFound e)); [discriminate|].
    unfold bind at 1.
    destruct (GetCategory (cr_CategoryID req) w1) as [[c|e1] w2] eqn:Hc;
      [|destruct (IsNotFound e1); discriminate].
    unfold bind at 1.
    destruct (Create _ w2) as [[cr [e2|]] w3] eqn:Hcr; [discriminate|].
    unfold bind, ret.
    destruct (InvalidateProductCache w3) as [o w4] eqn:Hsw. intros [= <- <-].
    destruct (GetBySKU_miss _ _ _ _ Hs) as [Hp1 Hc1].
    destruct (GetCategory_found _ _ _ _ Hc) as (Hp2 & Hc2 & r & Hin & Hid).
    pose proof (fun Hcat Hact => Create_effect _ _ _ _ Hcat Hact Hcr) as Heff.
    destruct (Heff eq_refl eq_refl) as (Hfresh & Hp3 & _ & Hshape). clear Heff.
    destruct (sweep_frame w3) as (Hp4 & _). rewrite Hsw in Hp4. simpl in Hp4.
    rewrite Hp2, Hp1 in Hfresh, Hp3. rewrite Hc1 in Hin.
    repeat split.
    + match goal with Hp : _ ∈ products w |- _ => apply (Hfresh _ Hp) end.
    + match goal with Hp : _ ∈ products w |- _ => apply (Hfresh _ Hp) end.
    + exists r. auto.
    + congruence.
    + symmetry. exact Hshape.
Qed.

End Product_creation.

Lemma create_product_checks_witness :
  @CreateProduct Demo.codec
    (mkCreateProductRequest "Headset" "" 12%float 0xc0%N 1 "" "X1") Demo.world0
  = (Err (NewConflictError "SKU already exists" None), Demo.world0)
  /\ products (snd (@CreateProduct Demo.codec Demo.earbuds Demo.world0))
     = (products Demo.world0
        ++ [row (mkProduct 0xf000%N "Earbuds" "" 30%float 0xc0%N None 7 "" "E3" true
                   1000 1000)])%list.
Proof.
  split.
  - apply (proj1 (@create_product_checks Demo.codec
                    (mkCreateProductRequest "Headset" "" 12%float 0xc0%N 1 "" "X1")
                    Demo.world0)).
    + reflexivity.
    + reflexivity.
    + exists Demo.headphones. split; [left | reflexivity].
  - refine (proj1 (proj2 (proj2 (proj2 (@create_product_checks Demo.codec Demo.earbuds
                                          Demo.world0)
             (mkProduct 0xf000%N "Earbuds" "" 30%float 0xc0%N None 7 "" "E3" true
                1000 1000)
             (snd (@CreateProduct Demo.codec Demo.earbuds Demo.world0)) _)))).
    vm_compute. reflexivity.
Defined.

